(** * Port driver (TIVA-C, AUTOSAR MCAL): shallow embedding of Port.c

    The driver is embedded as a small state-and-fault monad over a record
    holding the two static variables of Port.c ([Port_Status],
    [Port_ConfigPtr]), the memory-mapped register file and the trace of
    everything the driver did to the outside world, in program order:
    register accesses, [Det_ReportError] calls and assignments to the two
    static variables.

    The build is the one fixed by Port_Cfg.h: [PORT_DEV_ERROR_DETECT] is
    [STD_ON], so every [#if (PORT_DEV_ERROR_DETECT == STD_ON)] block is
    part of the program, and [PORT_CONFIGURED_CHANNELS] is 2. *)

From Stdlib Require Import ZArith List Bool Lia.
Import ListNotations.
Local Open Scope Z_scope.

(** ** Machine integers *)

Definition uint8 (z : Z) : Z := z mod 2 ^ 8.
Definition uint16 (z : Z) : Z := z mod 2 ^ 16.
Definition uint32 (z : Z) : Z := z mod 2 ^ 32.

(** [1 << n], kept in a 32-bit word.  C leaves a shift by 32 or more
    undefined; the model gives it the value zero, which is a placeholder
    and says nothing about what a build of the driver does there.  The
    same holds for the shift [0x0F << (pin_num * 4)] of the port-control
    mask in [Port_Init] and [Port_SetPinMode], which C defines for
    [pin_num] up to 7 only.  No counterexample below depends on such a
    shift, and the statements about the bits of the port-control
    register bound the channel by 7. *)
Definition BIT (n : Z) : Z := uint32 (Z.shiftl 1 n).

(** [~m] on a 32-bit word. *)
Definition NOT32 (m : Z) : Z := uint32 (Z.lnot m).

(** ** Constants *)

(** Modelled from the spec: Std_Types.h is not part of the sources; the
    values are the AUTOSAR standard ones (logic HIGH/LOW, TRUE/FALSE). *)
Definition STD_HIGH : Z := 1.
Definition STD_LOW : Z := 0.
Definition TRUE : Z := 1.
Definition FALSE : Z := 0.

(* Port.h *)
Definition PORT_VENDOR_ID : Z := 1000.
Definition PORT_MODULE_ID : Z := 124.
Definition PORT_INSTANCE_ID : Z := 0.
Definition PORT_SW_MAJOR_VERSION : Z := 1.
Definition PORT_SW_MINOR_VERSION : Z := 0.
Definition PORT_SW_PATCH_VERSION : Z := 0.
Definition PORT_INITIALIZED : Z := 1.
Definition PORT_NOT_INITIALIZED : Z := 0.

Definition PORT_INIT_SID : Z := 0.
Definition PORT_SET_PIN_DIRECTION_SID : Z := 1.
Definition PORT_REFRESH_PIN_DIRECTION_SID : Z := 2.
Definition PORT_GET_VERSION_INFO_SID : Z := 3.
Definition PORT_SET_PIN_MODE_SID : Z := 4.

Definition PORT_E_PARAM_PIN : Z := 10.
Definition PORT_E_DIRECTION_UNCHANGEABLE : Z := 11.
Definition PORT_E_PARAM_CONFIG : Z := 12.
Definition PORT_E_PARAM_INVALID_MODE : Z := 13.
Definition PORT_E_MODE_UNCHANGEABLE : Z := 14.
Definition PORT_E_UNINIT : Z := 15.
Definition PORT_E_PARAM_POINTER : Z := 16.

Definition PORT_PIN_IN : Z := 0.
Definition PORT_PIN_OUT : Z := 1.

Definition RESISTOR_OFF : Z := 0.
Definition PULL_UP : Z := 1.
Definition PULL_DOWN : Z := 2.

(* Port_Cfg.h *)
Definition PORT_CONFIGURED_CHANNELS : Z := 2.
Definition PIN_MODE_DIO : Z := 0.

(** The value written to the lock register (Port.c, lines 132, 290, 371,
    497). *)
Definition GPIO_UNLOCK_KEY : Z := 0x4C4F434B.

(** ** Configuration data (Port.h)

    All fields are C integers ([uint8], [boolean] or an [enum]); they are
    kept as [Z] so that out-of-range values stay expressible. *)

Record Port_ConfigChannel : Type := mkChannel {
  Port_Num : Z;
  Ch_Num : Z;
  Mode : Z;
  Direction : Z;
  InitialValue : Z;
  Direction_Changeable : Z;
  Mode_Changeable : Z;
  Resistor : Z
}.

(** [Port_ConfigChannel Pins[PORT_CONFIGURED_CHANNELS]]: the array length
    is part of the C type, here the side condition [wf_config]. *)
Record Port_ConfigType : Type := mkConfig {
  Pins : list Port_ConfigChannel
}.

Definition wf_config (cfg : Port_ConfigType) : Prop :=
  Z.of_nat (length (Pins cfg)) = PORT_CONFIGURED_CHANNELS.

(** Modelled from the spec: Std_Types.h ([Std_VersionInfoType]) is not
    part of the sources; the record has the five fields Port.c fills. *)
Record Std_VersionInfoType : Type := mkVersionInfo {
  vendorID : Z;
  moduleID : Z;
  sw_major_version : Z;
  sw_minor_version : Z;
  sw_patch_version : Z
}.

(** ** Registers

    Modelled from the spec: Port_Regs.h is not part of the sources.  The
    six port base addresses and the register offsets within a port block
    are kept as names, one constructor per macro used by Port.c, and
    [SYSCTL_RCGCGPIO_REG] is the shared clock-gate register.  Distinct
    names stand for distinct memory-mapped registers. *)

Inductive GpioBase : Type :=
| GPIO_PORTA_BASE_ADDRESS
| GPIO_PORTB_BASE_ADDRESS
| GPIO_PORTC_BASE_ADDRESS
| GPIO_PORTD_BASE_ADDRESS
| GPIO_PORTE_BASE_ADDRESS
| GPIO_PORTF_BASE_ADDRESS.

Inductive RegOffset : Type :=
| PORT_DATA_REG_OFFSET
| PORT_DIR_REG_OFFSET
| PORT_ALT_FUNC_REG_OFFSET
| PORT_PULL_UP_REG_OFFSET
| PORT_PULL_DOWN_REG_OFFSET
| PORT_DIGITAL_ENABLE_REG_OFFSET
| PORT_LOCK_REG_OFFSET
| PORT_COMMIT_REG_OFFSET
| PORT_ANALOG_MODE_SEL_REG_OFFSET
| PORT_CTL_REG_OFFSET.

Inductive Reg : Type :=
| SYSCTL_RCGCGPIO_REG
| GpioReg (base : GpioBase) (off : RegOffset).

Definition GpioBase_eq_dec (a b : GpioBase) : {a = b} + {a <> b}.
Proof. decide equality. Defined.

Definition RegOffset_eq_dec (a b : RegOffset) : {a = b} + {a <> b}.
Proof. decide equality. Defined.

Definition Reg_eq_dec (a b : Reg) : {a = b} + {a <> b}.
Proof.
  decide equality; [apply RegOffset_eq_dec | apply GpioBase_eq_dec].
Defined.

(** One access to a volatile register: a plain store, or the
    read-modify-write of [reg |= m] and [reg &= m]. *)
Inductive Access : Type :=
| Store (v : Z)
| OrMask (m : Z)
| AndMask (m : Z).

Definition apply_access (a : Access) (old : Z) : Z :=
  match a with
  | Store v => v
  | OrMask m => Z.lor old m
  | AndMask m => Z.land old m
  end.

(** ** Observable events and the driver state *)

Inductive Event : Type :=
| EvReg (r : Reg) (a : Access)
| EvDet (ModuleId InstanceId ApiId ErrorId : Z)
| EvStatus (v : Z)
| EvConfigPtr (p : option Port_ConfigType).

Record State : Type := mkState {
  Port_Status : Z;
  Port_ConfigPtr : option Port_ConfigType;
  regs : Reg -> Z;
  trace : list Event
}.

Definition upd (r : Reg) (v : Z) (f : Reg -> Z) : Reg -> Z :=
  fun r' => if Reg_eq_dec r' r then v else f r'.

(** Program start: the initialisers of the two static variables. *)
Definition reset_state (hw : Reg -> Z) : State :=
  {| Port_Status := PORT_NOT_INITIALIZED;
     Port_ConfigPtr := None;
     regs := hw;
     trace := [] |}.

(** ** The monad: state, plus a fault for what C leaves undefined
    (dereferencing a null [Port_ConfigPtr], indexing [Pins] outside the
    array). *)

Definition M (A : Type) : Type := State -> option (A * State).

Definition ret {A : Type} (a : A) : M A := fun s => Some (a, s).

Definition bind {A B : Type} (m : M A) (k : A -> M B) : M B :=
  fun s => match m s with
           | Some (a, s') => k a s'
           | None => None
           end.

Notation "x <- m ;; k" := (bind m (fun x => k))
  (at level 61, m at next level, right associativity).
Notation "m ;; k" := (bind m (fun _ => k))
  (at level 61, right associativity).

(** What one event does to the state: a register access updates the
    register file, an assignment to a static variable updates it, and
    every event is appended to the trace. *)
Definition apply_event (s : State) (ev : Event) : State :=
  match ev with
  | EvReg r a =>
      {| Port_Status := Port_Status s;
         Port_ConfigPtr := Port_ConfigPtr s;
         regs := upd r (apply_access a (regs s r)) (regs s);
         trace := trace s ++ [ev] |}
  | EvDet _ _ _ _ =>
      {| Port_Status := Port_Status s;
         Port_ConfigPtr := Port_ConfigPtr s;
         regs := regs s;
         trace := trace s ++ [ev] |}
  | EvStatus v =>
      {| Port_Status := v;
         Port_ConfigPtr := Port_ConfigPtr s;
         regs := regs s;
         trace := trace s ++ [ev] |}
  | EvConfigPtr p =>
      {| Port_Status := Port_Status s;
         Port_ConfigPtr := p;
         regs := regs s;
         trace := trace s ++ [ev] |}
  end.

Definition do_event (ev : Event) : M unit :=
  fun s => Some (tt, apply_event s ev).

Definition reg_access (r : Reg) (a : Access) : M unit := do_event (EvReg r a).

Definition Det_ReportError (ModuleId InstanceId ApiId ErrorId : Z) : M unit :=
  do_event (EvDet ModuleId InstanceId ApiId ErrorId).

Definition read_Port_Status : M Z := fun s => Some (Port_Status s, s).

Definition write_Port_Status (v : Z) : M unit := do_event (EvStatus v).

Definition write_Port_ConfigPtr (p : option Port_ConfigType) : M unit :=
  do_event (EvConfigPtr p).

(** [Port_ConfigPtr->Pins[i]] *)
Definition Pins_at (i : Z) : M Port_ConfigChannel :=
  fun s => match Port_ConfigPtr s with
           | None => None
           | Some cfg =>
               match nth_error (Pins cfg) (Z.to_nat i) with
               | Some e => Some (e, s)
               | None => None
               end
           end.

(** Modelled from the spec: common_macros.h is not part of the sources;
    [SET_BIT(REG,BIT)] is [REG |= (1 << BIT)] and [CLEAR_BIT(REG,BIT)] is
    [REG &= ~(1 << BIT)]. *)
Definition SET_BIT (r : Reg) (n : Z) : M unit := reg_access r (OrMask (BIT n)).
Definition CLEAR_BIT (r : Reg) (n : Z) : M unit :=
  reg_access r (AndMask (NOT32 (BIT n))).

(** ** Port.c *)

(** The [switch (port_num)] that resolves the port base address; the same
    six cases are written out in all four functions of Port.c.  [None]
    is the [default:] branch. *)
Definition GPIO_base (port_num : Z) : option GpioBase :=
  match port_num with
  | 0 => Some GPIO_PORTA_BASE_ADDRESS
  | 1 => Some GPIO_PORTB_BASE_ADDRESS
  | 2 => Some GPIO_PORTC_BASE_ADDRESS
  | 3 => Some GPIO_PORTD_BASE_ADDRESS
  | 4 => Some GPIO_PORTE_BASE_ADDRESS
  | 5 => Some GPIO_PORTF_BASE_ADDRESS
  | _ => None
  end.

(** [((port_num == 3) && (pin_num == 7)) || ((port_num == 5) && (pin_num == 0))] *)
Definition is_PD7_or_PF0 (port_num pin_num : Z) : bool :=
  ((port_num =? 3) && (pin_num =? 7)) || ((port_num =? 5) && (pin_num =? 0)).

(** Body of the [for] loop of [Port_Init] (lines 90-200); the result is
    the new value of the local [portsEnabledMask].  A [continue] is the
    early [ret].  [portsEnabledMask] is a [uint8], so the test
    [portsEnabledMask & (1 << port_num)] only sees bits 0..7 of the
    shifted one, whatever the width of the shift; [1U << port_num] is a
    32-bit word and its cast to [uint8] keeps the low byte. *)
Definition Port_Init_entry (e : Port_ConfigChannel) (portsEnabledMask : Z) : M Z :=
  let port_num := Port_Num e in
  let pin_num := Ch_Num e in
  let direction := Direction e in
  let mode := Mode e in
  let initVal := InitialValue e in
  let resistor := Resistor e in
  portsEnabledMask <-
    (if Z.land portsEnabledMask (Z.shiftl 1 port_num) =? 0 then
       reg_access SYSCTL_RCGCGPIO_REG (OrMask (uint32 (Z.shiftl 1 port_num))) ;;
       ret (Z.lor portsEnabledMask (uint8 (uint32 (Z.shiftl 1 port_num))))
     else ret portsEnabledMask) ;;
  match GPIO_base port_num with
  | None =>
      Det_ReportError PORT_MODULE_ID PORT_INSTANCE_ID PORT_INIT_SID PORT_E_PARAM_PIN ;;
      ret portsEnabledMask
  | Some PortGpio_Ptr =>
      (if is_PD7_or_PF0 port_num pin_num then
         reg_access (GpioReg PortGpio_Ptr PORT_LOCK_REG_OFFSET) (Store GPIO_UNLOCK_KEY) ;;
         SET_BIT (GpioReg PortGpio_Ptr PORT_COMMIT_REG_OFFSET) pin_num
       else ret tt) ;;
      (if direction =? PORT_PIN_OUT then
         SET_BIT (GpioReg PortGpio_Ptr PORT_DIR_REG_OFFSET) pin_num ;;
         (if initVal =? STD_HIGH then
            SET_BIT (GpioReg PortGpio_Ptr PORT_DATA_REG_OFFSET) pin_num
          else
            CLEAR_BIT (GpioReg PortGpio_Ptr PORT_DATA_REG_OFFSET) pin_num)
       else
         CLEAR_BIT (GpioReg PortGpio_Ptr PORT_DIR_REG_OFFSET) pin_num ;;
         (if resistor =? PULL_UP then
            SET_BIT (GpioReg PortGpio_Ptr PORT_PULL_UP_REG_OFFSET) pin_num ;;
            CLEAR_BIT (GpioReg PortGpio_Ptr PORT_PULL_DOWN_REG_OFFSET) pin_num
          else if resistor =? PULL_DOWN then
            SET_BIT (GpioReg PortGpio_Ptr PORT_PULL_DOWN_REG_OFFSET) pin_num ;;
            CLEAR_BIT (GpioReg PortGpio_Ptr PORT_PULL_UP_REG_OFFSET) pin_num
          else ret tt)) ;;
      (if mode =? PIN_MODE_DIO then
         CLEAR_BIT (GpioReg PortGpio_Ptr PORT_ANALOG_MODE_SEL_REG_OFFSET) pin_num ;;
         CLEAR_BIT (GpioReg PortGpio_Ptr PORT_ALT_FUNC_REG_OFFSET) pin_num ;;
         reg_access (GpioReg PortGpio_Ptr PORT_CTL_REG_OFFSET)
           (AndMask (NOT32 (uint32 (Z.shiftl 15 (pin_num * 4))))) ;;
         SET_BIT (GpioReg PortGpio_Ptr PORT_DIGITAL_ENABLE_REG_OFFSET) pin_num
       else
         Det_ReportError PORT_MODULE_ID PORT_INSTANCE_ID PORT_INIT_SID
           PORT_E_PARAM_INVALID_MODE) ;;
      ret portsEnabledMask
  end.

(** [for (loop_idx = ...; loop_idx < PORT_CONFIGURED_CHANNELS; loop_idx++)],
    with [n] the number of iterations still to run. *)
Fixpoint Port_Init_loop (n : nat) (loop_idx : Z) (portsEnabledMask : Z) : M unit :=
  match n with
  | O => ret tt
  | S n' =>
      e <- Pins_at loop_idx ;;
      portsEnabledMask <- Port_Init_entry e portsEnabledMask ;;
      Port_Init_loop n' (loop_idx + 1) portsEnabledMask
  end.

Definition Port_Init (ConfigPtr : option Port_ConfigType) : M unit :=
  match ConfigPtr with
  | None =>
      Det_ReportError PORT_MODULE_ID PORT_INSTANCE_ID PORT_INIT_SID PORT_E_PARAM_CONFIG
  | Some _ =>
      write_Port_ConfigPtr ConfigPtr ;;
      write_Port_Status PORT_NOT_INITIALIZED ;;
      Port_Init_loop (Z.to_nat PORT_CONFIGURED_CHANNELS) 0 0 ;;
      write_Port_Status PORT_INITIALIZED
  end.

Definition Port_setPinDirection (Pin : Z) (Direction : Z) : M unit :=
  status <- read_Port_Status ;;
  if status =? PORT_NOT_INITIALIZED then
    Det_ReportError PORT_MODULE_ID PORT_INSTANCE_ID PORT_SET_PIN_DIRECTION_SID PORT_E_UNINIT
  else if Pin >=? PORT_CONFIGURED_CHANNELS then
    Det_ReportError PORT_MODULE_ID PORT_INSTANCE_ID PORT_SET_PIN_DIRECTION_SID PORT_E_PARAM_PIN
  else
    e <- Pins_at Pin ;;
    if Direction_Changeable e =? FALSE then
      Det_ReportError PORT_MODULE_ID PORT_INSTANCE_ID PORT_SET_PIN_DIRECTION_SID
        PORT_E_DIRECTION_UNCHANGEABLE
    else
      let port_num := Port_Num e in
      let pin_num := Ch_Num e in
      match GPIO_base port_num with
      | None =>
          Det_ReportError PORT_MODULE_ID PORT_INSTANCE_ID PORT_SET_PIN_DIRECTION_SID
            PORT_E_PARAM_PIN
      | Some PortGpio_Ptr =>
          (if is_PD7_or_PF0 port_num pin_num then
             reg_access (GpioReg PortGpio_Ptr PORT_LOCK_REG_OFFSET) (Store GPIO_UNLOCK_KEY) ;;
             SET_BIT (GpioReg PortGpio_Ptr PORT_COMMIT_REG_OFFSET) pin_num
           else ret tt) ;;
          if Direction =? PORT_PIN_OUT then
            SET_BIT (GpioReg PortGpio_Ptr PORT_DIR_REG_OFFSET) pin_num
          else
            CLEAR_BIT (GpioReg PortGpio_Ptr PORT_DIR_REG_OFFSET) pin_num
      end.

(** Body of the [for] loop of [Port_RefreshPortDirection] (lines 338-385). *)
Definition Port_RefreshPortDirection_entry (e : Port_ConfigChannel) : M unit :=
  if Direction_Changeable e =? FALSE then
    let port_num := Port_Num e in
    let pin_num := Ch_Num e in
    let configuredDirection := Direction e in
    match GPIO_base port_num with
    | None =>
        Det_ReportError PORT_MODULE_ID PORT_INSTANCE_ID PORT_REFRESH_PIN_DIRECTION_SID
          PORT_E_PARAM_PIN
    | Some PortGpio_Ptr =>
        (if is_PD7_or_PF0 port_num pin_num then
           reg_access (GpioReg PortGpio_Ptr PORT_LOCK_REG_OFFSET) (Store GPIO_UNLOCK_KEY) ;;
           SET_BIT (GpioReg PortGpio_Ptr PORT_COMMIT_REG_OFFSET) pin_num
         else ret tt) ;;
        if configuredDirection =? PORT_PIN_OUT then
          SET_BIT (GpioReg PortGpio_Ptr PORT_DIR_REG_OFFSET) pin_num
        else
          CLEAR_BIT (GpioReg PortGpio_Ptr PORT_DIR_REG_OFFSET) pin_num
    end
  else ret tt.

Fixpoint Port_RefreshPortDirection_loop (n : nat) (loop_idx : Z) : M unit :=
  match n with
  | O => ret tt
  | S n' =>
      e <- Pins_at loop_idx ;;
      Port_RefreshPortDirection_entry e ;;
      Port_RefreshPortDirection_loop n' (loop_idx + 1)
  end.

Definition Port_RefreshPortDirection : M unit :=
  status <- read_Port_Status ;;
  if status =? PORT_NOT_INITIALIZED then
    Det_ReportError PORT_MODULE_ID PORT_INSTANCE_ID PORT_REFRESH_PIN_DIRECTION_SID
      PORT_E_UNINIT
  else
    Port_RefreshPortDirection_loop (Z.to_nat PORT_CONFIGURED_CHANNELS) 0.

(** [versioninfo] is the pointer argument ([None] for [NULL_PTR]); the
    result is what the pointed slot holds on return. *)
Definition Port_GetVersionInfo (versioninfo : option Std_VersionInfoType)
  : M (option Std_VersionInfoType) :=
  match versioninfo with
  | None =>
      Det_ReportError PORT_MODULE_ID PORT_INSTANCE_ID PORT_GET_VERSION_INFO_SID
        PORT_E_PARAM_POINTER ;;
      ret None
  | Some _ =>
      ret (Some {| vendorID := uint16 PORT_VENDOR_ID;
                   moduleID := uint16 PORT_MODULE_ID;
                   sw_major_version := uint8 PORT_SW_MAJOR_VERSION;
                   sw_minor_version := uint8 PORT_SW_MINOR_VERSION;
                   sw_patch_version := uint8 PORT_SW_PATCH_VERSION |})
  end.

Definition Port_SetPinMode (Pin : Z) (Mode : Z) : M unit :=
  status <- read_Port_Status ;;
  if status =? PORT_NOT_INITIALIZED then
    Det_ReportError PORT_MODULE_ID PORT_INSTANCE_ID PORT_SET_PIN_MODE_SID PORT_E_UNINIT
  else if Pin >=? PORT_CONFIGURED_CHANNELS then
    Det_ReportError PORT_MODULE_ID PORT_INSTANCE_ID PORT_SET_PIN_MODE_SID PORT_E_PARAM_PIN
  else
    e <- Pins_at Pin ;;
    if Mode_Changeable e =? FALSE then
      Det_ReportError PORT_MODULE_ID PORT_INSTANCE_ID PORT_SET_PIN_MODE_SID
        PORT_E_MODE_UNCHANGEABLE
    else
      let port_num := Port_Num e in
      let pin_num := Ch_Num e in
      match GPIO_base port_num with
      | None =>
          Det_ReportError PORT_MODULE_ID PORT_INSTANCE_ID PORT_SET_PIN_MODE_SID
            PORT_E_PARAM_PIN
      | Some PortGpio_Ptr =>
          (if is_PD7_or_PF0 port_num pin_num then
             reg_access (GpioReg PortGpio_Ptr PORT_LOCK_REG_OFFSET) (Store GPIO_UNLOCK_KEY) ;;
             SET_BIT (GpioReg PortGpio_Ptr PORT_COMMIT_REG_OFFSET) pin_num
           else ret tt) ;;
          if Mode =? PIN_MODE_DIO then
            CLEAR_BIT (GpioReg PortGpio_Ptr PORT_ANALOG_MODE_SEL_REG_OFFSET) pin_num ;;
            CLEAR_BIT (GpioReg PortGpio_Ptr PORT_ALT_FUNC_REG_OFFSET) pin_num ;;
            reg_access (GpioReg PortGpio_Ptr PORT_CTL_REG_OFFSET)
              (AndMask (NOT32 (uint32 (Z.shiftl 15 (pin_num * 4))))) ;;
            SET_BIT (GpioReg PortGpio_Ptr PORT_DIGITAL_ENABLE_REG_OFFSET) pin_num
          else
            Det_ReportError PORT_MODULE_ID PORT_INSTANCE_ID PORT_SET_PIN_MODE_SID
              PORT_E_PARAM_INVALID_MODE
      end.

(** ** Running the driver *)

(** The state an operation leaves, when it does not fault. *)
Definition exec {A : Type} (m : M A) (s : State) : option State :=
  match m s with
  | Some (_, s') => Some s'
  | None => None
  end.

(** The events a run added to the trace. *)
Definition events_since (s s' : State) : list Event :=
  skipn (length (trace s)) (trace s').

(** ** Trace vocabulary

    No branch of Port.c depends on what a register holds, so the events
    of a run are determined by the configuration table alone.  The
    definitions below name the event groups that the driver emits; the
    lemmas of the next part prove that the code emits exactly these. *)

(** The state reached from [s] when the events of [tr] happen in order. *)
Definition replay (tr : list Event) (s : State) : State :=
  fold_left apply_event tr s.

(** Events that leave the two static variables alone. *)
Definition hw_event (ev : Event) : bool :=
  match ev with
  | EvReg _ _ | EvDet _ _ _ _ => true
  | EvStatus _ | EvConfigPtr _ => false
  end.

(** The event is an access to register [r]. *)
Definition accesses (r : Reg) (ev : Event) : bool :=
  match ev with
  | EvReg r' _ => if Reg_eq_dec r' r then true else false
  | _ => false
  end.

(** The clock-gate access of a [Port_Init] entry (lines 99-104), made
    when the mask does not hold the bit of [port_num] yet. *)
Definition clock_events (port_num portsEnabledMask : Z) : list Event :=
  if Z.land portsEnabledMask (Z.shiftl 1 port_num) =? 0 then
    [EvReg SYSCTL_RCGCGPIO_REG (OrMask (uint32 (Z.shiftl 1 port_num)))]
  else [].

(** [portsEnabledMask] after that step. *)
Definition clock_mask (port_num portsEnabledMask : Z) : Z :=
  if Z.land portsEnabledMask (Z.shiftl 1 port_num) =? 0 then
    Z.lor portsEnabledMask (uint8 (uint32 (Z.shiftl 1 port_num)))
  else portsEnabledMask.

(** The unlock sequence, emitted for PD7 and PF0 only. *)
Definition unlock_events (P : GpioBase) (port_num pin_num : Z) : list Event :=
  if is_PD7_or_PF0 port_num pin_num then
    [EvReg (GpioReg P PORT_LOCK_REG_OFFSET) (Store GPIO_UNLOCK_KEY);
     EvReg (GpioReg P PORT_COMMIT_REG_OFFSET) (OrMask (BIT pin_num))]
  else [].

(** The accesses made by [SET_BIT] and [CLEAR_BIT]. *)
Definition set_bit (n : Z) : Access := OrMask (BIT n).
Definition clear_bit (n : Z) : Access := AndMask (NOT32 (BIT n)).

(** The access to the direction register: set for [PORT_PIN_OUT], clear
    for anything else. *)
Definition direction_access (pin_num direction : Z) : Access :=
  if direction =? PORT_PIN_OUT then set_bit pin_num else clear_bit pin_num.

(** Initial level of an output pin (lines 144-151). *)
Definition level_events (P : GpioBase) (pin_num initVal : Z) : list Event :=
  [EvReg (GpioReg P PORT_DATA_REG_OFFSET)
     (if initVal =? STD_HIGH then set_bit pin_num else clear_bit pin_num)].

(** Pull resistor of an input pin (lines 159-172). *)
Definition resistor_events (P : GpioBase) (pin_num resistor : Z) : list Event :=
  if resistor =? PULL_UP then
    [EvReg (GpioReg P PORT_PULL_UP_REG_OFFSET) (set_bit pin_num);
     EvReg (GpioReg P PORT_PULL_DOWN_REG_OFFSET) (clear_bit pin_num)]
  else if resistor =? PULL_DOWN then
    [EvReg (GpioReg P PORT_PULL_DOWN_REG_OFFSET) (set_bit pin_num);
     EvReg (GpioReg P PORT_PULL_UP_REG_OFFSET) (clear_bit pin_num)]
  else [].

(** The four accesses that make a pin a digital I/O pin. *)
Definition dio_events (P : GpioBase) (pin_num : Z) : list Event :=
  [EvReg (GpioReg P PORT_ANALOG_MODE_SEL_REG_OFFSET) (clear_bit pin_num);
   EvReg (GpioReg P PORT_ALT_FUNC_REG_OFFSET) (clear_bit pin_num);
   EvReg (GpioReg P PORT_CTL_REG_OFFSET)
     (AndMask (NOT32 (uint32 (Z.shiftl 15 (pin_num * 4)))));
   EvReg (GpioReg P PORT_DIGITAL_ENABLE_REG_OFFSET) (set_bit pin_num)].

(** The [switch] on the mode, in the operation with service id [sid]. *)
Definition mode_events (sid : Z) (P : GpioBase) (pin_num mode : Z) : list Event :=
  if mode =? PIN_MODE_DIO then dio_events P pin_num
  else [EvDet PORT_MODULE_ID PORT_INSTANCE_ID sid PORT_E_PARAM_INVALID_MODE].

(** The events of one iteration of the loop of [Port_Init]. *)
Definition Port_Init_entry_events (e : Port_ConfigChannel) (portsEnabledMask : Z)
  : list Event :=
  clock_events (Port_Num e) portsEnabledMask ++
  match GPIO_base (Port_Num e) with
  | None => [EvDet PORT_MODULE_ID PORT_INSTANCE_ID PORT_INIT_SID PORT_E_PARAM_PIN]
  | Some P =>
      unlock_events P (Port_Num e) (Ch_Num e) ++
      (EvReg (GpioReg P PORT_DIR_REG_OFFSET) (direction_access (Ch_Num e) (Direction e))
       :: (if Direction e =? PORT_PIN_OUT then level_events P (Ch_Num e) (InitialValue e)
           else resistor_events P (Ch_Num e) (Resistor e))) ++
      mode_events PORT_INIT_SID P (Ch_Num e) (Mode e)
  end.

(** The events of the loop of [Port_Init] over the entries [l]. *)
Fixpoint Port_Init_table_events (l : list Port_ConfigChannel) (portsEnabledMask : Z)
  : list Event :=
  match l with
  | [] => []
  | e :: l' =>
      Port_Init_entry_events e portsEnabledMask ++
      Port_Init_table_events l' (clock_mask (Port_Num e) portsEnabledMask)
  end.

(** [portsEnabledMask] after the entries [l]. *)
Fixpoint table_mask (l : list Port_ConfigChannel) (portsEnabledMask : Z) : Z :=
  match l with
  | [] => portsEnabledMask
  | e :: l' => table_mask l' (clock_mask (Port_Num e) portsEnabledMask)
  end.

(** The events of one iteration of the loop of
    [Port_RefreshPortDirection], and of the whole loop. *)
Definition Port_RefreshPortDirection_entry_events (e : Port_ConfigChannel)
  : list Event :=
  if Direction_Changeable e =? FALSE then
    match GPIO_base (Port_Num e) with
    | None =>
        [EvDet PORT_MODULE_ID PORT_INSTANCE_ID PORT_REFRESH_PIN_DIRECTION_SID
           PORT_E_PARAM_PIN]
    | Some P =>
        unlock_events P (Port_Num e) (Ch_Num e) ++
        [EvReg (GpioReg P PORT_DIR_REG_OFFSET)
           (direction_access (Ch_Num e) (Direction e))]
    end
  else [].

Definition Port_RefreshPortDirection_table_events (l : list Port_ConfigChannel)
  : list Event :=
  flat_map Port_RefreshPortDirection_entry_events l.

(** What [Port_setPinDirection] does once the flag and the pin identifier
    have passed their checks and the entry [e] has been read. *)
Definition Port_setPinDirection_entry_events (e : Port_ConfigChannel) (Direction : Z)
  : list Event :=
  if Direction_Changeable e =? FALSE then
    [EvDet PORT_MODULE_ID PORT_INSTANCE_ID PORT_SET_PIN_DIRECTION_SID
       PORT_E_DIRECTION_UNCHANGEABLE]
  else
    match GPIO_base (Port_Num e) with
    | None =>
        [EvDet PORT_MODULE_ID PORT_INSTANCE_ID PORT_SET_PIN_DIRECTION_SID
           PORT_E_PARAM_PIN]
    | Some P =>
        unlock_events P (Port_Num e) (Ch_Num e) ++
        [EvReg (GpioReg P PORT_DIR_REG_OFFSET) (direction_access (Ch_Num e) Direction)]
    end.

(** The same for [Port_SetPinMode]. *)
Definition Port_SetPinMode_entry_events (e : Port_ConfigChannel) (Mode : Z)
  : list Event :=
  if Mode_Changeable e =? FALSE then
    [EvDet PORT_MODULE_ID PORT_INSTANCE_ID PORT_SET_PIN_MODE_SID
       PORT_E_MODE_UNCHANGEABLE]
  else
    match GPIO_base (Port_Num e) with
    | None =>
        [EvDet PORT_MODULE_ID PORT_INSTANCE_ID PORT_SET_PIN_MODE_SID PORT_E_PARAM_PIN]
    | Some P =>
        unlock_events P (Port_Num e) (Ch_Num e) ++
        mode_events PORT_SET_PIN_MODE_SID P (Ch_Num e) Mode
    end.

(** The loop bodies run over a list of entries, in order: what the two
    [for] loops do on a table of the right length. *)
Fixpoint Port_Init_entries (l : list Port_ConfigChannel) (portsEnabledMask : Z) : M Z :=
  match l with
  | [] => ret portsEnabledMask
  | e :: l' =>
      portsEnabledMask <- Port_Init_entry e portsEnabledMask ;;
      Port_Init_entries l' portsEnabledMask
  end.

Fixpoint Port_RefreshPortDirection_entries (l : list Port_ConfigChannel) : M unit :=
  match l with
  | [] => ret tt
  | e :: l' =>
      Port_RefreshPortDirection_entry e ;;
      Port_RefreshPortDirection_entries l'
  end.

(** ** Predicates used by the statements *)

(** The driver is usable: once the flag is raised, the stored pointer
    designates a table of [PORT_CONFIGURED_CHANNELS] entries.  [Port_Init]
    establishes this and nothing else writes the two variables. *)
Definition state_ok (s : State) : Prop :=
  Port_Status s <> PORT_NOT_INITIALIZED ->
  exists cfg, Port_ConfigPtr s = Some cfg /\ wf_config cfg.

(** PD7 and PF0, named by port block and channel. *)
Definition locked_pin (P : GpioBase) (c : Z) : bool :=
  match P with
  | GPIO_PORTD_BASE_ADDRESS => c =? 7
  | GPIO_PORTF_BASE_ADDRESS => c =? 0
  | _ => false
  end.



(** [e] with its [Direction] field replaced. *)
Definition with_Direction (e : Port_ConfigChannel) (d : Z) : Port_ConfigChannel :=
  {| Port_Num := Port_Num e;
     Ch_Num := Ch_Num e;
     Mode := Mode e;
     Direction := d;
     InitialValue := InitialValue e;
     Direction_Changeable := Direction_Changeable e;
     Mode_Changeable := Mode_Changeable e;
     Resistor := Resistor e |}.

(** A state in which the driver has been initialised with [cfg]; the
    registers are whatever [hw] says. *)
Definition initialized_state (cfg : Port_ConfigType) (hw : Reg -> Z) : State :=
  {| Port_Status := PORT_INITIALIZED;
     Port_ConfigPtr := Some cfg;
     regs := hw;
     trace := [] |}.



(** ** Sample tables and states *)

(** Registers all zero. *)
Definition hw_zero : Reg -> Z := fun _ => 0.

(** The table of the spec's concrete scenario (LED on PF1, switch on
    PF4), which is the shape of [Port_Configuration] in Port_PBcfg.c. *)
Definition Port_Configuration : Port_ConfigType :=
  {| Pins :=
       [ mkChannel 5 1 PIN_MODE_DIO PORT_PIN_OUT STD_HIGH TRUE TRUE RESISTOR_OFF;
         mkChannel 5 4 PIN_MODE_DIO PORT_PIN_IN STD_LOW FALSE TRUE PULL_UP ] |}.

(** [Port_Init (Some cfg)] started in [s] reaches the entry [e], found
    after the entries [pre] and before the entries [post], in state [s1]
    with [portsEnabledMask = m1]; the loop body takes it to [s2], the
    remaining entries are processed, the flag is raised and the call
    returns in [s']. *)
Definition Port_Init_visits (cfg : Port_ConfigType) (s : State)
           (pre : list Port_ConfigChannel) (e : Port_ConfigChannel)
           (post : list Port_ConfigChannel)
           (m1 : Z) (s1 s2 s' : State) : Prop :=
  exists s0 m2 m3 s3,
    Pins cfg = pre ++ e :: post /\
    exec (write_Port_ConfigPtr (Some cfg) ;; write_Port_Status PORT_NOT_INITIALIZED) s
    = Some s0 /\
    Port_Init_entries pre 0 s0 = Some (m1, s1) /\
    Port_Init_entry e m1 s1 = Some (m2, s2) /\
    Port_Init_entries post m2 s2 = Some (m3, s3) /\
    exec (write_Port_Status PORT_INITIALIZED) s3 = Some s' /\
    Port_Init (Some cfg) s = Some (tt, s').

(** [Port_RefreshPortDirection] started in [s] reaches the entry [e] in
    state [s1]; the loop body takes it to [s2], the remaining entries are
    processed and the call returns in [s']. *)
Definition Port_RefreshPortDirection_visits (cfg : Port_ConfigType) (s : State)
           (pre : list Port_ConfigChannel) (e : Port_ConfigChannel)
           (post : list Port_ConfigChannel)
           (s1 s2 s' : State) : Prop :=
  Pins cfg = pre ++ e :: post /\
  Port_RefreshPortDirection_entries pre s = Some (tt, s1) /\
  Port_RefreshPortDirection_entry e s1 = Some (tt, s2) /\
  Port_RefreshPortDirection_entries post s2 = Some (tt, s') /\
  Port_RefreshPortDirection s = Some (tt, s').

(** A table with the two hardware-locked pins: PF0 as an output whose
    direction may change, PD7 as a fixed input. *)
Definition cfg_locked_pins : Port_ConfigType :=
  {| Pins :=
       [ mkChannel 5 0 PIN_MODE_DIO PORT_PIN_OUT STD_LOW TRUE TRUE RESISTOR_OFF;
         mkChannel 3 7 PIN_MODE_DIO PORT_PIN_IN STD_LOW FALSE TRUE PULL_UP ] |}.

(** A table whose first entry is an input on PA0 with the resistor off. *)
Definition cfg_input_resistor_off : Port_ConfigType :=
  {| Pins :=
       [ mkChannel 0 0 PIN_MODE_DIO PORT_PIN_IN STD_LOW FALSE TRUE RESISTOR_OFF;
         mkChannel 5 1 PIN_MODE_DIO PORT_PIN_OUT STD_HIGH TRUE TRUE RESISTOR_OFF ] |}.

(** Registers in which both pull resistors of PA0 are enabled. *)
Definition hw_PA0_pulls_on : Reg -> Z :=
  fun r =>
    match r with
    | GpioReg GPIO_PORTA_BASE_ADDRESS PORT_PULL_UP_REG_OFFSET => 1
    | GpioReg GPIO_PORTA_BASE_ADDRESS PORT_PULL_DOWN_REG_OFFSET => 1
    | _ => 0
    end.

(** [e] is a fixed-direction entry that names channel [k] of port block
    [P]. *)
Definition names_fixed_pin (e : Port_ConfigChannel) (P : GpioBase) (k : Z) : bool :=
  (Direction_Changeable e =? FALSE) &&
  match GPIO_base (Port_Num e) with
  | Some P' => if GpioBase_eq_dec P' P then Ch_Num e =? k else false
  | None => false
  end.

(** A table whose first entry names port 6, which does not exist. *)
Definition cfg_unknown_port : Port_ConfigType :=
  {| Pins :=
       [ mkChannel 6 0 PIN_MODE_DIO PORT_PIN_OUT STD_HIGH TRUE TRUE RESISTOR_OFF;
         mkChannel 5 4 PIN_MODE_DIO PORT_PIN_IN STD_LOW FALSE TRUE PULL_UP ] |}.

(** A table whose first entry names channel 9 of port A. *)
Definition cfg_channel_9 : Port_ConfigType :=
  {| Pins :=
       [ mkChannel 0 9 PIN_MODE_DIO PORT_PIN_IN STD_LOW TRUE TRUE RESISTOR_OFF;
         mkChannel 5 4 PIN_MODE_DIO PORT_PIN_IN STD_LOW FALSE TRUE PULL_UP ] |}.

(** A table whose first entry is a fixed-direction output on port 9,
    which does not exist. *)
Definition cfg_fixed_unknown_port : Port_ConfigType :=
  {| Pins :=
       [ mkChannel 9 0 PIN_MODE_DIO PORT_PIN_OUT STD_HIGH FALSE TRUE RESISTOR_OFF;
         mkChannel 5 1 PIN_MODE_DIO PORT_PIN_OUT STD_HIGH TRUE TRUE RESISTOR_OFF ] |}.

(** A mode value other than [PIN_MODE_DIO]. *)
Definition PIN_MODE_OTHER : Z := 1.

(** Registers as some other code may have left them: the low eight bits
    of every register set. *)
Definition hw_tampered : Reg -> Z := fun _ => 0xFF.

(** ** Further vocabulary: events of a whole call, bits, call sequences *)

(** The events of a call of [Port_setPinDirection], read off the two
    static variables and the arguments. *)
Definition Port_setPinDirection_events (s : State) (Pin Direction : Z) : list Event :=
  if Port_Status s =? PORT_NOT_INITIALIZED then
    [EvDet PORT_MODULE_ID PORT_INSTANCE_ID PORT_SET_PIN_DIRECTION_SID PORT_E_UNINIT]
  else if Pin >=? PORT_CONFIGURED_CHANNELS then
    [EvDet PORT_MODULE_ID PORT_INSTANCE_ID PORT_SET_PIN_DIRECTION_SID PORT_E_PARAM_PIN]
  else
    match Port_ConfigPtr s with
    | Some cfg =>
        match nth_error (Pins cfg) (Z.to_nat Pin) with
        | Some e => Port_setPinDirection_entry_events e Direction
        | None => []
        end
    | None => []
    end.

(** The same for [Port_SetPinMode]. *)
Definition Port_SetPinMode_events (s : State) (Pin Mode : Z) : list Event :=
  if Port_Status s =? PORT_NOT_INITIALIZED then
    [EvDet PORT_MODULE_ID PORT_INSTANCE_ID PORT_SET_PIN_MODE_SID PORT_E_UNINIT]
  else if Pin >=? PORT_CONFIGURED_CHANNELS then
    [EvDet PORT_MODULE_ID PORT_INSTANCE_ID PORT_SET_PIN_MODE_SID PORT_E_PARAM_PIN]
  else
    match Port_ConfigPtr s with
    | Some cfg =>
        match nth_error (Pins cfg) (Z.to_nat Pin) with
        | Some e => Port_SetPinMode_entry_events e Mode
        | None => []
        end
    | None => []
    end.

(** The same for [Port_RefreshPortDirection]. *)
Definition Port_RefreshPortDirection_events (s : State) : list Event :=
  if Port_Status s =? PORT_NOT_INITIALIZED then
    [EvDet PORT_MODULE_ID PORT_INSTANCE_ID PORT_REFRESH_PIN_DIRECTION_SID PORT_E_UNINIT]
  else
    match Port_ConfigPtr s with
    | Some cfg => Port_RefreshPortDirection_table_events (Pins cfg)
    | None => []
    end.

(** The events of [Port_Init]. *)
Definition Port_Init_events (ConfigPtr : option Port_ConfigType) : list Event :=
  match ConfigPtr with
  | None => [EvDet PORT_MODULE_ID PORT_INSTANCE_ID PORT_INIT_SID PORT_E_PARAM_CONFIG]
  | Some cfg =>
      EvConfigPtr (Some cfg) :: EvStatus PORT_NOT_INITIALIZED ::
      Port_Init_table_events (Pins cfg) 0 ++ [EvStatus PORT_INITIALIZED]
  end.

(** What an access does to bit [k] of the register it goes to: it forces
    the bit to a value, or leaves it as it is. *)
Definition access_bit (a : Access) (k : Z) : option bool :=
  match a with
  | Store v => Some (Z.testbit v k)
  | OrMask m => if Z.testbit m k then Some true else None
  | AndMask m => if Z.testbit m k then None else Some false
  end.

(** What a sequence of events does to bit [k] of register [r]: the last
    access that forces the bit decides. *)
Fixpoint bit_effect (tr : list Event) (r : Reg) (k : Z) : option bool :=
  match tr with
  | [] => None
  | ev :: tr' =>
      match bit_effect tr' r k with
      | Some c => Some c
      | None =>
          match ev with
          | EvReg r' a => if Reg_eq_dec r' r then access_bit a k else None
          | _ => None
          end
      end
  end.

(** The event is the clock-gate access that enables port [p]. *)
Definition is_clock_enable (p : Z) (ev : Event) : bool :=
  match ev with
  | EvReg SYSCTL_RCGCGPIO_REG (OrMask m) => m =? 2 ^ p
  | _ => false
  end.

(** Some entry of the list names port [p]. *)
Definition names_port (p : Z) (l : list Port_ConfigChannel) : bool :=
  existsb (fun e => Port_Num e =? p) l.

(** The event is an access to a register. *)
Definition is_access (ev : Event) : bool :=
  match ev with
  | EvReg _ _ => true
  | _ => false
  end.

(** The event is a report to the DET. *)
Definition is_report (ev : Event) : bool :=
  match ev with
  | EvDet _ _ _ _ => true
  | _ => false
  end.

(** Every register access of [tr] goes to a register that [allowed]
    accepts. *)
Definition accesses_only (allowed : Reg -> bool) (tr : list Event) : bool :=
  forallb (fun ev => match ev with
                     | EvReg r _ => allowed r
                     | _ => true
                     end) tr.

(** The registers of the direction path: lock, commit and direction
    register of a port block. *)
Definition direction_path (r : Reg) : bool :=
  match r with
  | GpioReg _ PORT_LOCK_REG_OFFSET
  | GpioReg _ PORT_COMMIT_REG_OFFSET
  | GpioReg _ PORT_DIR_REG_OFFSET => true
  | _ => false
  end.

(** The registers of the mode path: lock, commit and the four function
    registers of a port block. *)
Definition mode_path (r : Reg) : bool :=
  match r with
  | GpioReg _ PORT_LOCK_REG_OFFSET
  | GpioReg _ PORT_COMMIT_REG_OFFSET
  | GpioReg _ PORT_ANALOG_MODE_SEL_REG_OFFSET
  | GpioReg _ PORT_ALT_FUNC_REG_OFFSET
  | GpioReg _ PORT_CTL_REG_OFFSET
  | GpioReg _ PORT_DIGITAL_ENABLE_REG_OFFSET => true
  | _ => false
  end.

(** The event is an access of the direction path. *)
Definition on_direction_path (ev : Event) : bool :=
  match ev with
  | EvReg r _ => direction_path r
  | _ => false
  end.

(** The entry has a fixed direction. *)
Definition fixed_direction (e : Port_ConfigChannel) : bool :=
  Direction_Changeable e =? FALSE.

(** One call of the API. *)
Inductive Call : Type :=
| Call_Init (ConfigPtr : option Port_ConfigType)
| Call_setPinDirection (Pin Direction : Z)
| Call_RefreshPortDirection
| Call_GetVersionInfo (versioninfo : option Std_VersionInfoType)
| Call_SetPinMode (Pin Mode : Z).

Definition run_call (c : Call) : M unit :=
  match c with
  | Call_Init p => Port_Init p
  | Call_setPinDirection Pin d => Port_setPinDirection Pin d
  | Call_RefreshPortDirection => Port_RefreshPortDirection
  | Call_GetVersionInfo v => Port_GetVersionInfo v ;; ret tt
  | Call_SetPinMode Pin m => Port_SetPinMode Pin m
  end.

Fixpoint run_calls (cs : list Call) : M unit :=
  match cs with
  | [] => ret tt
  | c :: cs' => run_call c ;; run_calls cs'
  end.

(** The call passes a table of the C type: when one is given, it has
    [PORT_CONFIGURED_CHANNELS] entries. *)
Definition well_typed_call (c : Call) : Prop :=
  match c with
  | Call_Init (Some cfg) => wf_config cfg
  | _ => True
  end.

(** The events of a call, read off the two static variables and the
    arguments. *)
Definition call_events (c : Call) (s : State) : list Event :=
  match c with
  | Call_Init p => Port_Init_events p
  | Call_setPinDirection Pin d => Port_setPinDirection_events s Pin d
  | Call_RefreshPortDirection => Port_RefreshPortDirection_events s
  | Call_GetVersionInfo None =>
      [EvDet PORT_MODULE_ID PORT_INSTANCE_ID PORT_GET_VERSION_INFO_SID
         PORT_E_PARAM_POINTER]
  | Call_GetVersionInfo (Some _) => []
  | Call_SetPinMode Pin m => Port_SetPinMode_events s Pin m
  end.

(** The value of [Port_Status] after the calls, when it was [st]
    before: a [Port_Init] that is given a table raises it. *)
Fixpoint status_after (cs : list Call) (st : Z) : Z :=
  match cs with
  | [] => st
  | Call_Init (Some _) :: cs' => status_after cs' PORT_INITIALIZED
  | _ :: cs' => status_after cs' st
  end.

(** The table of the last [Port_Init] of the sequence that was given
    one, if any. *)
Fixpoint last_table (cs : list Call) (acc : option Port_ConfigType)
  : option Port_ConfigType :=
  match cs with
  | [] => acc
  | Call_Init (Some cfg) :: cs' => last_table cs' (Some cfg)
  | _ :: cs' => last_table cs' acc
  end.

(** [portsEnabledMask] is a [uint8]: only its low eight bits can be
    set. *)
Definition mask_inv (m : Z) : Prop :=
  forall k, Z.testbit m k = true -> 0 <= k < 8.

(** [e] names channel [k] of port block [P]. *)
Definition names_pin (e : Port_ConfigChannel) (P : GpioBase) (k : Z) : bool :=
  match GPIO_base (Port_Num e) with
  | Some P' => if GpioBase_eq_dec P' P then Ch_Num e =? k else false
  | None => false
  end.

(** Bit [k'] of the register at offset [off] belongs to channel [k]: one
    bit per channel in the direction, data, pull, analog-select,
    alternate-function and digital-enable registers, four bits per
    channel in the port-control register.  The lock and commit registers
    are not counted. *)
Definition pin_bit (off : RegOffset) (k k' : Z) : bool :=
  match off with
  | PORT_CTL_REG_OFFSET => (k * 4 <=? k') && (k' <? k * 4 + 4)
  | PORT_LOCK_REG_OFFSET | PORT_COMMIT_REG_OFFSET => false
  | _ => k' =? k
  end.

(** * Proofs *)

(** ** Replaying events *)

Lemma replay_nil (s : State) : replay [] s = s.
Proof. reflexivity. Qed.

Lemma replay_cons (ev : Event) (tr : list Event) (s : State) :
  replay (ev :: tr) s = replay tr (apply_event s ev).
Proof. reflexivity. Qed.

Lemma replay_app (tr1 tr2 : list Event) (s : State) :
  replay (tr1 ++ tr2) s = replay tr2 (replay tr1 s).
Proof. unfold replay. apply fold_left_app. Qed.

Lemma trace_apply_event (s : State) (ev : Event) :
  trace (apply_event s ev) = trace s ++ [ev].
Proof. destruct ev; reflexivity. Qed.

Lemma trace_replay (tr : list Event) (s : State) :
  trace (replay tr s) = trace s ++ tr.
Proof.
  revert s. induction tr as [|ev tr IH]; intros s.
  - rewrite replay_nil. now rewrite app_nil_r.
  - rewrite replay_cons, IH, trace_apply_event, <- app_assoc. reflexivity.
Qed.

Lemma events_since_app (s s' : State) (tr : list Event) :
  trace s' = trace s ++ tr -> events_since s s' = tr.
Proof.
  intros H. unfold events_since. rewrite H.
  rewrite skipn_app, skipn_all, Nat.sub_diag. reflexivity.
Qed.

Lemma events_since_replay (tr : list Event) (s : State) :
  events_since s (replay tr s) = tr.
Proof. apply events_since_app, trace_replay. Qed.

Lemma static_apply_event (ev : Event) (s : State) :
  hw_event ev = true ->
  Port_Status (apply_event s ev) = Port_Status s /\
  Port_ConfigPtr (apply_event s ev) = Port_ConfigPtr s.
Proof. destruct ev; try discriminate; split; reflexivity. Qed.

Lemma static_replay (tr : list Event) (s : State) :
  forallb hw_event tr = true ->
  Port_Status (replay tr s) = Port_Status s /\
  Port_ConfigPtr (replay tr s) = Port_ConfigPtr s.
Proof.
  revert s. induction tr as [|ev tr IH]; intros s H.
  - split; reflexivity.
  - simpl in H. apply andb_prop in H as [Hev Htr].
    rewrite replay_cons.
    destruct (IH (apply_event s ev) Htr) as [IH1 IH2].
    destruct (static_apply_event ev s Hev) as [E1 E2].
    rewrite IH1, IH2, E1, E2. split; reflexivity.
Qed.

Lemma regs_apply_event_frame (r : Reg) (ev : Event) (s : State) :
  accesses r ev = false -> regs (apply_event s ev) r = regs s r.
Proof.
  destruct ev as [r' a| | |]; try reflexivity.
  simpl. unfold upd. destruct (Reg_eq_dec r' r) as [->|Hne].
  - discriminate.
  - intros _. destruct (Reg_eq_dec r r') as [->|]; [contradiction | reflexivity].
Qed.

Lemma regs_replay_frame (r : Reg) (tr : list Event) (s : State) :
  existsb (accesses r) tr = false ->
  regs (replay tr s) r = regs s r.
Proof.
  revert s. induction tr as [|ev tr IH]; intros s H.
  - reflexivity.
  - simpl in H. apply orb_false_elim in H as [Hev Htr].
    rewrite replay_cons, (IH _ Htr). now apply regs_apply_event_frame.
Qed.

(** ** The code emits the events of the vocabulary *)

Ltac run_monad :=
  cbv beta iota zeta delta
    [bind ret SET_BIT CLEAR_BIT reg_access Det_ReportError do_event
     read_Port_Status write_Port_Status write_Port_ConfigPtr
     replay fold_left app set_bit clear_bit].

Lemma Port_Init_entry_replay (e : Port_ConfigChannel) (m : Z) (s : State) :
  Port_Init_entry e m s
  = Some (clock_mask (Port_Num e) m, replay (Port_Init_entry_events e m) s).
Proof.
  unfold Port_Init_entry, Port_Init_entry_events, clock_events, clock_mask,
    unlock_events, direction_access, level_events, resistor_events, mode_events,
    dio_events.
  destruct (Z.land m (Z.shiftl 1 (Port_Num e)) =? 0);
    (destruct (GPIO_base (Port_Num e)) as [P|]; [|run_monad; reflexivity]);
    destruct (is_PD7_or_PF0 (Port_Num e) (Ch_Num e));
    destruct (Mode e =? PIN_MODE_DIO);
    (destruct (Direction e =? PORT_PIN_OUT);
     [ destruct (InitialValue e =? STD_HIGH); run_monad; reflexivity
     | destruct (Resistor e =? PULL_UP); [run_monad; reflexivity|];
       destruct (Resistor e =? PULL_DOWN); run_monad; reflexivity ]).
Qed.

Lemma Port_Init_entries_replay (l : list Port_ConfigChannel) (m : Z) (s : State) :
  Port_Init_entries l m s
  = Some (table_mask l m, replay (Port_Init_table_events l m) s).
Proof.
  revert m s. induction l as [|e l IH]; intros m s.
  - reflexivity.
  - cbn [Port_Init_entries Port_Init_table_events table_mask].
    unfold bind. rewrite Port_Init_entry_replay, IH, replay_app. reflexivity.
Qed.

Lemma Port_RefreshPortDirection_entry_replay (e : Port_ConfigChannel) (s : State) :
  Port_RefreshPortDirection_entry e s
  = Some (tt, replay (Port_RefreshPortDirection_entry_events e) s).
Proof.
  unfold Port_RefreshPortDirection_entry, Port_RefreshPortDirection_entry_events,
    unlock_events, direction_access.
  destruct (Direction_Changeable e =? FALSE); [|reflexivity].
  destruct (GPIO_base (Port_Num e)) as [P|]; [|reflexivity].
  destruct (is_PD7_or_PF0 (Port_Num e) (Ch_Num e));
    destruct (Direction e =? PORT_PIN_OUT); run_monad; reflexivity.
Qed.

Lemma Port_RefreshPortDirection_entries_replay (l : list Port_ConfigChannel) (s : State) :
  Port_RefreshPortDirection_entries l s
  = Some (tt, replay (Port_RefreshPortDirection_table_events l) s).
Proof.
  revert s. induction l as [|e l IH]; intros s.
  - reflexivity.
  - cbn [Port_RefreshPortDirection_entries]. unfold bind.
    rewrite Port_RefreshPortDirection_entry_replay, IH.
    unfold Port_RefreshPortDirection_table_events. cbn [flat_map].
    rewrite replay_app. reflexivity.
Qed.

(** All the groups of the vocabulary leave the static variables alone. *)

Lemma hw_unlock_events (P : GpioBase) (p c : Z) :
  forallb hw_event (unlock_events P p c) = true.
Proof. unfold unlock_events. destruct (is_PD7_or_PF0 p c); reflexivity. Qed.

Lemma hw_mode_events (sid : Z) (P : GpioBase) (c m : Z) :
  forallb hw_event (mode_events sid P c m) = true.
Proof. unfold mode_events. destruct (m =? PIN_MODE_DIO); reflexivity. Qed.

Lemma hw_Port_Init_entry_events (e : Port_ConfigChannel) (m : Z) :
  forallb hw_event (Port_Init_entry_events e m) = true.
Proof.
  unfold Port_Init_entry_events. rewrite forallb_app. apply andb_true_intro. split.
  - unfold clock_events. destruct (_ =? 0); reflexivity.
  - destruct (GPIO_base (Port_Num e)) as [P|]; [|reflexivity].
    rewrite !forallb_app, hw_unlock_events, hw_mode_events.
    cbn [forallb hw_event andb]. rewrite andb_true_r.
    unfold level_events, resistor_events.
    destruct (Direction e =? PORT_PIN_OUT); [reflexivity|].
    destruct (Resistor e =? PULL_UP); [reflexivity|].
    destruct (Resistor e =? PULL_DOWN); reflexivity.
Qed.

Lemma hw_Port_Init_table_events (l : list Port_ConfigChannel) (m : Z) :
  forallb hw_event (Port_Init_table_events l m) = true.
Proof.
  revert m. induction l as [|e l IH]; intros m; [reflexivity|].
  cbn [Port_Init_table_events]. rewrite forallb_app, hw_Port_Init_entry_events, IH.
  reflexivity.
Qed.

Lemma hw_Port_RefreshPortDirection_entry_events (e : Port_ConfigChannel) :
  forallb hw_event (Port_RefreshPortDirection_entry_events e) = true.
Proof.
  unfold Port_RefreshPortDirection_entry_events.
  destruct (Direction_Changeable e =? FALSE); [|reflexivity].
  destruct (GPIO_base (Port_Num e)) as [P|]; [|reflexivity].
  rewrite forallb_app, hw_unlock_events. reflexivity.
Qed.

Lemma hw_Port_RefreshPortDirection_table_events (l : list Port_ConfigChannel) :
  forallb hw_event (Port_RefreshPortDirection_table_events l) = true.
Proof.
  induction l as [|e l IH]; [reflexivity|].
  unfold Port_RefreshPortDirection_table_events in *. cbn [flat_map].
  rewrite forallb_app, hw_Port_RefreshPortDirection_entry_events, IH. reflexivity.
Qed.

Lemma hw_Port_setPinDirection_entry_events (e : Port_ConfigChannel) (d : Z) :
  forallb hw_event (Port_setPinDirection_entry_events e d) = true.
Proof.
  unfold Port_setPinDirection_entry_events.
  destruct (Direction_Changeable e =? FALSE); [reflexivity|].
  destruct (GPIO_base (Port_Num e)) as [P|]; [|reflexivity].
  rewrite forallb_app, hw_unlock_events. reflexivity.
Qed.

Lemma hw_Port_SetPinMode_entry_events (e : Port_ConfigChannel) (m : Z) :
  forallb hw_event (Port_SetPinMode_entry_events e m) = true.
Proof.
  unfold Port_SetPinMode_entry_events.
  destruct (Mode_Changeable e =? FALSE); [reflexivity|].
  destruct (GPIO_base (Port_Num e)) as [P|]; [|reflexivity].
  rewrite forallb_app, hw_unlock_events, hw_mode_events. reflexivity.
Qed.

(** ** The indexed loops walk the table *)

Lemma Pins_at_Some (s : State) (cfg : Port_ConfigType)
      (pre : list Port_ConfigChannel) (e : Port_ConfigChannel)
      (post : list Port_ConfigChannel) (i : Z) :
  Port_ConfigPtr s = Some cfg ->
  Pins cfg = pre ++ e :: post ->
  i = Z.of_nat (length pre) ->
  Pins_at i s = Some (e, s).
Proof.
  intros Hp Hl ->. unfold Pins_at. rewrite Hp, Hl, Nat2Z.id.
  rewrite nth_error_app2 by lia. rewrite Nat.sub_diag. reflexivity.
Qed.

Lemma Port_Init_loop_replay (cfg : Port_ConfigType) (l pre : list Port_ConfigChannel)
      (m : Z) (s : State) :
  Port_ConfigPtr s = Some cfg ->
  Pins cfg = pre ++ l ->
  Port_Init_loop (length l) (Z.of_nat (length pre)) m s
  = Some (tt, replay (Port_Init_table_events l m) s).
Proof.
  revert pre m s. induction l as [|e l IH]; intros pre m s Hp Hl.
  - reflexivity.
  - cbn [length Port_Init_loop Port_Init_table_events]. unfold bind.
    rewrite (Pins_at_Some s cfg pre e l _ Hp Hl eq_refl).
    rewrite Port_Init_entry_replay, replay_app.
    replace (Z.of_nat (length pre) + 1) with (Z.of_nat (length (pre ++ [e])))
      by (rewrite length_app; simpl; lia).
    apply IH.
    + destruct (static_replay _ s (hw_Port_Init_entry_events e m)) as [_ ->].
      exact Hp.
    + rewrite <- app_assoc. exact Hl.
Qed.

Lemma Port_RefreshPortDirection_loop_replay (cfg : Port_ConfigType)
      (l pre : list Port_ConfigChannel) (s : State) :
  Port_ConfigPtr s = Some cfg ->
  Pins cfg = pre ++ l ->
  Port_RefreshPortDirection_loop (length l) (Z.of_nat (length pre)) s
  = Some (tt, replay (Port_RefreshPortDirection_table_events l) s).
Proof.
  revert pre s. induction l as [|e l IH]; intros pre s Hp Hl.
  - reflexivity.
  - cbn [length Port_RefreshPortDirection_loop]. unfold bind.
    rewrite (Pins_at_Some s cfg pre e l _ Hp Hl eq_refl).
    rewrite Port_RefreshPortDirection_entry_replay.
    unfold Port_RefreshPortDirection_table_events. cbn [flat_map].
    rewrite replay_app.
    replace (Z.of_nat (length pre) + 1) with (Z.of_nat (length (pre ++ [e])))
      by (rewrite length_app; simpl; lia).
    apply IH.
    + destruct (static_replay _ s (hw_Port_RefreshPortDirection_entry_events e))
        as [_ ->].
      exact Hp.
    + rewrite <- app_assoc. exact Hl.
Qed.

Lemma wf_config_length (cfg : Port_ConfigType) :
  wf_config cfg -> length (Pins cfg) = Z.to_nat PORT_CONFIGURED_CHANNELS.
Proof. unfold wf_config. intros H. rewrite <- H. now rewrite Nat2Z.id. Qed.

(** [Port_Init] on a table: the two assignments, the events of the table,
    the final assignment. *)
Lemma Port_Init_replay (cfg : Port_ConfigType) (s : State) :
  wf_config cfg ->
  Port_Init (Some cfg) s
  = Some (tt, replay (EvConfigPtr (Some cfg) :: EvStatus PORT_NOT_INITIALIZED ::
                      Port_Init_table_events (Pins cfg) 0 ++
                      [EvStatus PORT_INITIALIZED]) s).
Proof.
  intros Hwf. unfold Port_Init.
  rewrite <- (wf_config_length cfg Hwf).
  unfold bind at 1. unfold write_Port_ConfigPtr at 1, do_event at 1.
  unfold bind at 1. unfold write_Port_Status at 1, do_event at 1.
  unfold bind at 1.
  change 0 with (Z.of_nat (length (@nil Port_ConfigChannel))) at 1.
  rewrite (Port_Init_loop_replay cfg (Pins cfg) [] 0
             (apply_event (apply_event s (EvConfigPtr (Some cfg)))
                          (EvStatus PORT_NOT_INITIALIZED))
             eq_refl eq_refl).
  rewrite !replay_cons, replay_app. reflexivity.
Qed.

Lemma Port_RefreshPortDirection_replay (cfg : Port_ConfigType) (s : State) :
  wf_config cfg ->
  Port_Status s <> PORT_NOT_INITIALIZED ->
  Port_ConfigPtr s = Some cfg ->
  Port_RefreshPortDirection s
  = Some (tt, replay (Port_RefreshPortDirection_table_events (Pins cfg)) s).
Proof.
  intros Hwf Hst Hp. unfold Port_RefreshPortDirection, bind, read_Port_Status.
  destruct (Z.eqb_spec (Port_Status s) PORT_NOT_INITIALIZED) as [E|_];
    [contradiction|].
  rewrite <- (wf_config_length cfg Hwf).
  exact (Port_RefreshPortDirection_loop_replay cfg (Pins cfg) [] s Hp eq_refl).
Qed.

(** ** The single-pin operations *)

Lemma Pins_at_nth (s : State) (cfg : Port_ConfigType) (i : Z) (e : Port_ConfigChannel) :
  Port_ConfigPtr s = Some cfg ->
  nth_error (Pins cfg) (Z.to_nat i) = Some e ->
  Pins_at i s = Some (e, s).
Proof. intros Hp Hn. unfold Pins_at. rewrite Hp, Hn. reflexivity. Qed.

Lemma Pins_at_total (s : State) (cfg : Port_ConfigType) (i : Z) :
  Port_ConfigPtr s = Some cfg ->
  wf_config cfg ->
  i < PORT_CONFIGURED_CHANNELS ->
  exists e, nth_error (Pins cfg) (Z.to_nat i) = Some e /\ Pins_at i s = Some (e, s).
Proof.
  intros Hp Hwf Hi.
  destruct (nth_error (Pins cfg) (Z.to_nat i)) as [e|] eqn:E.
  - exists e. split; [reflexivity|]. now apply (Pins_at_nth s cfg).
  - apply nth_error_None in E. rewrite (wf_config_length cfg Hwf) in E.
    unfold PORT_CONFIGURED_CHANNELS in *. lia.
Qed.

Lemma Port_setPinDirection_uninit (Pin d : Z) (s : State) :
  Port_Status s = PORT_NOT_INITIALIZED ->
  Port_setPinDirection Pin d s
  = Some (tt, replay [EvDet PORT_MODULE_ID PORT_INSTANCE_ID
                        PORT_SET_PIN_DIRECTION_SID PORT_E_UNINIT] s).
Proof.
  intros H. unfold Port_setPinDirection, bind, read_Port_Status.
  rewrite H. reflexivity.
Qed.

Lemma Port_setPinDirection_bad_pin (Pin d : Z) (s : State) :
  Port_Status s <> PORT_NOT_INITIALIZED ->
  PORT_CONFIGURED_CHANNELS <= Pin ->
  Port_setPinDirection Pin d s
  = Some (tt, replay [EvDet PORT_MODULE_ID PORT_INSTANCE_ID
                        PORT_SET_PIN_DIRECTION_SID PORT_E_PARAM_PIN] s).
Proof.
  intros H Hp. unfold Port_setPinDirection, bind, read_Port_Status.
  destruct (Z.eqb_spec (Port_Status s) PORT_NOT_INITIALIZED); [contradiction|].
  destruct (Z.geb_spec Pin PORT_CONFIGURED_CHANNELS); [reflexivity | lia].
Qed.

Lemma Port_setPinDirection_entry (Pin d : Z) (s : State) (e : Port_ConfigChannel) :
  Port_Status s <> PORT_NOT_INITIALIZED ->
  Pin < PORT_CONFIGURED_CHANNELS ->
  Pins_at Pin s = Some (e, s) ->
  Port_setPinDirection Pin d s
  = Some (tt, replay (Port_setPinDirection_entry_events e d) s).
Proof.
  intros H Hp He. unfold Port_setPinDirection, bind, read_Port_Status.
  destruct (Z.eqb_spec (Port_Status s) PORT_NOT_INITIALIZED); [contradiction|].
  destruct (Z.geb_spec Pin PORT_CONFIGURED_CHANNELS); [lia|].
  rewrite He.
  unfold Port_setPinDirection_entry_events, unlock_events, direction_access.
  destruct (Direction_Changeable e =? FALSE); [reflexivity|].
  destruct (GPIO_base (Port_Num e)) as [P|]; [|reflexivity].
  destruct (is_PD7_or_PF0 (Port_Num e) (Ch_Num e));
    destruct (d =? PORT_PIN_OUT); run_monad; reflexivity.
Qed.

Lemma Port_SetPinMode_uninit (Pin m : Z) (s : State) :
  Port_Status s = PORT_NOT_INITIALIZED ->
  Port_SetPinMode Pin m s
  = Some (tt, replay [EvDet PORT_MODULE_ID PORT_INSTANCE_ID
                        PORT_SET_PIN_MODE_SID PORT_E_UNINIT] s).
Proof.
  intros H. unfold Port_SetPinMode, bind, read_Port_Status.
  rewrite H. reflexivity.
Qed.

Lemma Port_SetPinMode_bad_pin (Pin m : Z) (s : State) :
  Port_Status s <> PORT_NOT_INITIALIZED ->
  PORT_CONFIGURED_CHANNELS <= Pin ->
  Port_SetPinMode Pin m s
  = Some (tt, replay [EvDet PORT_MODULE_ID PORT_INSTANCE_ID
                        PORT_SET_PIN_MODE_SID PORT_E_PARAM_PIN] s).
Proof.
  intros H Hp. unfold Port_SetPinMode, bind, read_Port_Status.
  destruct (Z.eqb_spec (Port_Status s) PORT_NOT_INITIALIZED); [contradiction|].
  destruct (Z.geb_spec Pin PORT_CONFIGURED_CHANNELS); [reflexivity | lia].
Qed.

Lemma Port_SetPinMode_entry (Pin m : Z) (s : State) (e : Port_ConfigChannel) :
  Port_Status s <> PORT_NOT_INITIALIZED ->
  Pin < PORT_CONFIGURED_CHANNELS ->
  Pins_at Pin s = Some (e, s) ->
  Port_SetPinMode Pin m s
  = Some (tt, replay (Port_SetPinMode_entry_events e m) s).
Proof.
  intros H Hp He. unfold Port_SetPinMode, bind, read_Port_Status.
  destruct (Z.eqb_spec (Port_Status s) PORT_NOT_INITIALIZED); [contradiction|].
  destruct (Z.geb_spec Pin PORT_CONFIGURED_CHANNELS); [lia|].
  rewrite He.
  unfold Port_SetPinMode_entry_events, unlock_events, mode_events, dio_events.
  destruct (Mode_Changeable e =? FALSE); [reflexivity|].
  destruct (GPIO_base (Port_Num e)) as [P|]; [|reflexivity].
  destruct (is_PD7_or_PF0 (Port_Num e) (Ch_Num e));
    destruct (m =? PIN_MODE_DIO); run_monad; reflexivity.
Qed.

(** Every run of an operation other than [Port_Init] is the replay of
    events that do not write the static variables. *)

Lemma Port_setPinDirection_runs (Pin d : Z) (s : State) :
  state_ok s ->
  exists tr, Port_setPinDirection Pin d s = Some (tt, replay tr s) /\
             (Port_Status s = PORT_NOT_INITIALIZED \/
              PORT_CONFIGURED_CHANNELS <= Pin \/
              exists cfg e, Port_ConfigPtr s = Some cfg /\
                            nth_error (Pins cfg) (Z.to_nat Pin) = Some e /\
                            tr = Port_setPinDirection_entry_events e d) /\
             forallb hw_event tr = true.
Proof.
  intros Hok.
  destruct (Z.eq_dec (Port_Status s) PORT_NOT_INITIALIZED) as [E|NE].
  - eexists. split; [apply Port_setPinDirection_uninit, E|]. split; [now left | reflexivity].
  - destruct (Z_le_gt_dec PORT_CONFIGURED_CHANNELS Pin) as [Hle|Hgt].
    + eexists. split; [now apply Port_setPinDirection_bad_pin|].
      split; [now right; left | reflexivity].
    + destruct (Hok NE) as (cfg & Hp & Hwf).
      destruct (Pins_at_total s cfg Pin Hp Hwf) as (e & Hn & He); [lia|].
      eexists. split; [apply (Port_setPinDirection_entry Pin d s e); [assumption|lia|assumption]|].
      split; [|apply hw_Port_setPinDirection_entry_events].
      right; right. now exists cfg, e.
Qed.

Lemma Port_SetPinMode_runs (Pin m : Z) (s : State) :
  state_ok s ->
  exists tr, Port_SetPinMode Pin m s = Some (tt, replay tr s) /\
             forallb hw_event tr = true.
Proof.
  intros Hok.
  destruct (Z.eq_dec (Port_Status s) PORT_NOT_INITIALIZED) as [E|NE].
  - eexists. split; [apply Port_SetPinMode_uninit, E | reflexivity].
  - destruct (Z_le_gt_dec PORT_CONFIGURED_CHANNELS Pin) as [Hle|Hgt].
    + eexists. split; [now apply Port_SetPinMode_bad_pin | reflexivity].
    + destruct (Hok NE) as (cfg & Hp & Hwf).
      destruct (Pins_at_total s cfg Pin Hp Hwf) as (e & Hn & He); [lia|].
      eexists. split; [apply (Port_SetPinMode_entry Pin m s e); [assumption|lia|assumption]|].
      apply hw_Port_SetPinMode_entry_events.
Qed.

Lemma Port_RefreshPortDirection_runs (s : State) :
  state_ok s ->
  exists tr, Port_RefreshPortDirection s = Some (tt, replay tr s) /\
             (Port_Status s = PORT_NOT_INITIALIZED \/
              exists cfg, Port_ConfigPtr s = Some cfg /\
                          tr = Port_RefreshPortDirection_table_events (Pins cfg)) /\
             forallb hw_event tr = true.
Proof.
  intros Hok.
  destruct (Z.eq_dec (Port_Status s) PORT_NOT_INITIALIZED) as [E|NE].
  - exists [EvDet PORT_MODULE_ID PORT_INSTANCE_ID PORT_REFRESH_PIN_DIRECTION_SID
              PORT_E_UNINIT].
    split; [|split; [now left | reflexivity]].
    unfold Port_RefreshPortDirection, bind, read_Port_Status. rewrite E. reflexivity.
  - destruct (Hok NE) as (cfg & Hp & Hwf).
    eexists. split; [now apply (Port_RefreshPortDirection_replay cfg)|].
    split; [right; now exists cfg | apply hw_Port_RefreshPortDirection_table_events].
Qed.

(** A run that does not fault is determined by its events. *)
Lemma exec_Some {A : Type} (m : M A) (s : State) (a : A) (s' : State) :
  m s = Some (a, s') -> exec m s = Some s'.
Proof. intros H. unfold exec. now rewrite H. Qed.

(** ** Bits *)

Lemma testbit_1 (k : Z) : Z.testbit 1 k = (k =? 0).
Proof. destruct k; reflexivity. Qed.

Lemma testbit_BIT (c k : Z) :
  0 <= k < 32 -> Z.testbit (BIT c) k = (c =? k).
Proof.
  intros Hk. unfold BIT, uint32.
  rewrite Z.mod_pow2_bits_low by lia.
  rewrite Z.shiftl_spec by lia. rewrite testbit_1.
  destruct (Z.eqb_spec (k - c) 0), (Z.eqb_spec c k); try reflexivity; lia.
Qed.

Lemma testbit_NOT32 (m k : Z) :
  0 <= k < 32 -> Z.testbit (NOT32 m) k = negb (Z.testbit m k).
Proof.
  intros Hk. unfold NOT32, uint32.
  rewrite Z.mod_pow2_bits_low by lia.
  apply Z.lnot_spec. lia.
Qed.



Lemma GPIO_base_None (p : Z) : ~ (0 <= p <= 5) -> GPIO_base p = None.
Proof.
  intros H. destruct p as [|q|q]; [lia| |reflexivity].
  destruct q as [[[q|q|]|[q|q|]|]|[[q|q|]|[q|q|]|]|]; try reflexivity; lia.
Qed.

Lemma GPIO_base_Some (p : Z) (P : GpioBase) :
  GPIO_base p = Some P ->
  (p = 0 /\ P = GPIO_PORTA_BASE_ADDRESS) \/
  (p = 1 /\ P = GPIO_PORTB_BASE_ADDRESS) \/
  (p = 2 /\ P = GPIO_PORTC_BASE_ADDRESS) \/
  (p = 3 /\ P = GPIO_PORTD_BASE_ADDRESS) \/
  (p = 4 /\ P = GPIO_PORTE_BASE_ADDRESS) \/
  (p = 5 /\ P = GPIO_PORTF_BASE_ADDRESS).
Proof.
  intros H.
  assert (Hr : 0 <= p <= 5).
  { destruct (Z_le_dec 0 p) as [H0|H0]; [destruct (Z_le_dec p 5) as [H5|H5]|];
      try lia; rewrite GPIO_base_None in H by lia; discriminate. }
  assert (Hc : p = 0 \/ p = 1 \/ p = 2 \/ p = 3 \/ p = 4 \/ p = 5) by lia.
  destruct Hc as [->|[->|[->|[->|[->| ->]]]]]; cbn in H; inversion H; subst; tauto.
Qed.

Lemma GPIO_base_valid (p : Z) : 0 <= p <= 5 -> exists P, GPIO_base p = Some P.
Proof.
  intros Hr.
  assert (Hc : p = 0 \/ p = 1 \/ p = 2 \/ p = 3 \/ p = 4 \/ p = 5) by lia.
  destruct Hc as [->|[->|[->|[->|[->| ->]]]]]; eexists; reflexivity.
Qed.

Lemma locked_pin_is_PD7_or_PF0 (p c : Z) (P : GpioBase) :
  GPIO_base p = Some P ->
  is_PD7_or_PF0 p c = locked_pin P c.
Proof.
  intros H. unfold is_PD7_or_PF0.
  destruct (GPIO_base_Some p P H) as [[-> ->]|[[-> ->]|[[-> ->]|[[-> ->]|[[-> ->]|[-> ->]]]]]];
    cbn [locked_pin Z.eqb Pos.eqb andb orb]; try reflexivity.
  now rewrite orb_false_r.
Qed.

(** ** Runs that do not fault *)

Lemma Pins_at_state (i : Z) (s s' : State) (e : Port_ConfigChannel) :
  Pins_at i s = Some (e, s') -> s' = s.
Proof.
  unfold Pins_at. destruct (Port_ConfigPtr s) as [cfg|]; [|discriminate].
  destruct (nth_error (Pins cfg) (Z.to_nat i)); [|discriminate].
  intros H. now inversion H.
Qed.

Ltac run_inv E :=
  match type of E with
  | Some (_, ?x) = Some (_, ?s') => assert (s' = x) by congruence; subst s'
  end.




Lemma Port_setPinDirection_inv (Pin d : Z) (s s' : State) :
  exec (Port_setPinDirection Pin d) s = Some s' ->
  exists tr, s' = replay tr s /\ forallb hw_event tr = true.
Proof.
  unfold exec. destruct (Port_setPinDirection Pin d s) as [[u s1]|] eqn:E; [|discriminate].
  intros H. assert (s1 = s') by congruence. subst s1. clear H.
  destruct (Z.eq_dec (Port_Status s) PORT_NOT_INITIALIZED) as [E0|NE].
  - rewrite (Port_setPinDirection_uninit Pin d s E0) in E. run_inv E.
    eexists. split; reflexivity.
  - destruct (Z_le_gt_dec PORT_CONFIGURED_CHANNELS Pin) as [Hle|Hgt].
    + rewrite (Port_setPinDirection_bad_pin Pin d s NE Hle) in E. run_inv E.
      eexists. split; reflexivity.
    + destruct (Pins_at Pin s) as [[e s2]|] eqn:Ep.
      * pose proof (Pins_at_state _ _ _ _ Ep). subst s2.
        rewrite (Port_setPinDirection_entry Pin d s e NE) in E by (assumption || lia).
        run_inv E. eexists. split; [reflexivity|].
        apply hw_Port_setPinDirection_entry_events.
      * exfalso. revert E. unfold Port_setPinDirection, bind, read_Port_Status.
        destruct (Z.eqb_spec (Port_Status s) PORT_NOT_INITIALIZED); [contradiction|].
        destruct (Z.geb_spec Pin PORT_CONFIGURED_CHANNELS); [lia|].
        rewrite Ep. discriminate.
Qed.

Lemma Port_SetPinMode_inv (Pin m : Z) (s s' : State) :
  exec (Port_SetPinMode Pin m) s = Some s' ->
  exists tr, s' = replay tr s /\ forallb hw_event tr = true.
Proof.
  unfold exec. destruct (Port_SetPinMode Pin m s) as [[u s1]|] eqn:E; [|discriminate].
  intros H. assert (s1 = s') by congruence. subst s1. clear H.
  destruct (Z.eq_dec (Port_Status s) PORT_NOT_INITIALIZED) as [E0|NE].
  - rewrite (Port_SetPinMode_uninit Pin m s E0) in E. run_inv E.
    eexists. split; reflexivity.
  - destruct (Z_le_gt_dec PORT_CONFIGURED_CHANNELS Pin) as [Hle|Hgt].
    + rewrite (Port_SetPinMode_bad_pin Pin m s NE Hle) in E. run_inv E.
      eexists. split; reflexivity.
    + destruct (Pins_at Pin s) as [[e s2]|] eqn:Ep.
      * pose proof (Pins_at_state _ _ _ _ Ep). subst s2.
        rewrite (Port_SetPinMode_entry Pin m s e NE) in E by (assumption || lia).
        run_inv E. eexists. split; [reflexivity|].
        apply hw_Port_SetPinMode_entry_events.
      * exfalso. revert E. unfold Port_SetPinMode, bind, read_Port_Status.
        destruct (Z.eqb_spec (Port_Status s) PORT_NOT_INITIALIZED); [contradiction|].
        destruct (Z.geb_spec Pin PORT_CONFIGURED_CHANNELS); [lia|].
        rewrite Ep. discriminate.
Qed.

Lemma Port_RefreshPortDirection_loop_inv (n : nat) (i : Z) (s s' : State) :
  exec (Port_RefreshPortDirection_loop n i) s = Some s' ->
  exists tr, s' = replay tr s /\ forallb hw_event tr = true.
Proof.
  revert i s. induction n as [|n IH]; intros i s.
  - intros H. assert (s' = s) by (cbv in H; congruence). subst s'.
    exists []. split; reflexivity.
  - unfold exec. cbn [Port_RefreshPortDirection_loop]. unfold bind.
    destruct (Pins_at i s) as [[e s2]|] eqn:Ep; [|discriminate].
    pose proof (Pins_at_state _ _ _ _ Ep). subst s2.
    rewrite Port_RefreshPortDirection_entry_replay.
    intros H. destruct (IH (i + 1) _ H) as (tr & -> & Htr).
    exists (Port_RefreshPortDirection_entry_events e ++ tr).
    rewrite replay_app, forallb_app, hw_Port_RefreshPortDirection_entry_events, Htr.
    split; reflexivity.
Qed.

Lemma Port_RefreshPortDirection_inv (s s' : State) :
  exec Port_RefreshPortDirection s = Some s' ->
  exists tr, s' = replay tr s /\ forallb hw_event tr = true.
Proof.
  unfold exec, Port_RefreshPortDirection, bind, read_Port_Status.
  destruct (Port_Status s =? PORT_NOT_INITIALIZED).
  - intros H.
    exists [EvDet PORT_MODULE_ID PORT_INSTANCE_ID PORT_REFRESH_PIN_DIRECTION_SID
              PORT_E_UNINIT].
    split; [|reflexivity]. unfold Det_ReportError, do_event in H.
    cbv beta in H. injection H as <-. reflexivity.
  - apply Port_RefreshPortDirection_loop_inv.
Qed.

Lemma Port_GetVersionInfo_inv (v : option Std_VersionInfoType) (s s' : State) :
  exec (Port_GetVersionInfo v) s = Some s' ->
  exists tr, s' = replay tr s /\ forallb hw_event tr = true.
Proof.
  destruct v; unfold exec, Port_GetVersionInfo, bind, ret, Det_ReportError, do_event;
    cbv beta iota; intros H; injection H as <-.
  - exists []. split; reflexivity.
  - exists [EvDet PORT_MODULE_ID PORT_INSTANCE_ID PORT_GET_VERSION_INFO_SID
              PORT_E_PARAM_POINTER].
    split; reflexivity.
Qed.

Lemma hw_no_status (tr : list Event) :
  forallb hw_event tr = true -> forall v, ~ In (EvStatus v) tr.
Proof.
  intros H v Hin. rewrite forallb_forall in H. specialize (H _ Hin). discriminate.
Qed.

(** ** The scenario of the specification

    Table: PF1 output, initially high; PF4 fixed input with pull-up.
    After [Port_Init]: the clock of port F is enabled once; PF1 has its
    direction bit and data bit set; PF4 has its direction bit cleared,
    pull-up set, pull-down cleared; both are digital pins; the driver is
    INITIALIZED. *)
Example Port_Init_scenario :
  exists s',
    Port_Init (Some Port_Configuration) (reset_state hw_zero) = Some (tt, s') /\
    trace s'
    = [ EvConfigPtr (Some Port_Configuration);
        EvStatus PORT_NOT_INITIALIZED;
        EvReg SYSCTL_RCGCGPIO_REG (OrMask 32);
        EvReg (GpioReg GPIO_PORTF_BASE_ADDRESS PORT_DIR_REG_OFFSET) (OrMask 2);
        EvReg (GpioReg GPIO_PORTF_BASE_ADDRESS PORT_DATA_REG_OFFSET) (OrMask 2);
        EvReg (GpioReg GPIO_PORTF_BASE_ADDRESS PORT_ANALOG_MODE_SEL_REG_OFFSET)
          (AndMask 0xFFFFFFFD);
        EvReg (GpioReg GPIO_PORTF_BASE_ADDRESS PORT_ALT_FUNC_REG_OFFSET)
          (AndMask 0xFFFFFFFD);
        EvReg (GpioReg GPIO_PORTF_BASE_ADDRESS PORT_CTL_REG_OFFSET) (AndMask 0xFFFFFF0F);
        EvReg (GpioReg GPIO_PORTF_BASE_ADDRESS PORT_DIGITAL_ENABLE_REG_OFFSET) (OrMask 2);
        EvReg (GpioReg GPIO_PORTF_BASE_ADDRESS PORT_DIR_REG_OFFSET) (AndMask 0xFFFFFFEF);
        EvReg (GpioReg GPIO_PORTF_BASE_ADDRESS PORT_PULL_UP_REG_OFFSET) (OrMask 16);
        EvReg (GpioReg GPIO_PORTF_BASE_ADDRESS PORT_PULL_DOWN_REG_OFFSET)
          (AndMask 0xFFFFFFEF);
        EvReg (GpioReg GPIO_PORTF_BASE_ADDRESS PORT_ANALOG_MODE_SEL_REG_OFFSET)
          (AndMask 0xFFFFFFEF);
        EvReg (GpioReg GPIO_PORTF_BASE_ADDRESS PORT_ALT_FUNC_REG_OFFSET)
          (AndMask 0xFFFFFFEF);
        EvReg (GpioReg GPIO_PORTF_BASE_ADDRESS PORT_CTL_REG_OFFSET) (AndMask 0xFFF0FFFF);
        EvReg (GpioReg GPIO_PORTF_BASE_ADDRESS PORT_DIGITAL_ENABLE_REG_OFFSET) (OrMask 16);
        EvStatus PORT_INITIALIZED ] /\
    regs s' SYSCTL_RCGCGPIO_REG = 32 /\
    regs s' (GpioReg GPIO_PORTF_BASE_ADDRESS PORT_DIR_REG_OFFSET) = 2 /\
    regs s' (GpioReg GPIO_PORTF_BASE_ADDRESS PORT_DATA_REG_OFFSET) = 2 /\
    regs s' (GpioReg GPIO_PORTF_BASE_ADDRESS PORT_PULL_UP_REG_OFFSET) = 16 /\
    regs s' (GpioReg GPIO_PORTF_BASE_ADDRESS PORT_DIGITAL_ENABLE_REG_OFFSET) = 18 /\
    Port_Status s' = PORT_INITIALIZED.
Proof.
  eexists. split; [apply Port_Init_replay; reflexivity|].
  vm_compute. repeat split.
Qed.

(** * The claims *)

(** C8. [Port_Init] called with a null table reference reports
    [PORT_E_PARAM_CONFIG] (InvalidConfig) and does nothing else: no
    register is accessed, and the flag and the stored pointer are
    unchanged, so a driver that was NOT_INITIALIZED stays so. *)
Theorem C8_Port_Init_null (s : State) :
  exists s',
    Port_Init None s = Some (tt, s') /\
    events_since s s'
    = [EvDet PORT_MODULE_ID PORT_INSTANCE_ID PORT_INIT_SID PORT_E_PARAM_CONFIG] /\
    regs s' = regs s /\
    Port_Status s' = Port_Status s /\
    Port_ConfigPtr s' = Port_ConfigPtr s /\
    (Port_Status s = PORT_NOT_INITIALIZED -> Port_Status s' = PORT_NOT_INITIALIZED).
Proof.
  exists (replay [EvDet PORT_MODULE_ID PORT_INSTANCE_ID PORT_INIT_SID
                    PORT_E_PARAM_CONFIG] s).
  split; [reflexivity|].
  split; [apply events_since_replay|].
  repeat split. intros H. exact H.
Qed.

Lemma C8_Port_Init_null_witness :
  exists s',
    Port_Init None (reset_state hw_zero) = Some (tt, s') /\
    Port_Status s' = PORT_NOT_INITIALIZED.
Proof.
  destruct (C8_Port_Init_null (reset_state hw_zero)) as (s' & H1 & _ & _ & _ & _ & H6).
  exists s'. split; [exact H1 | apply H6; reflexivity].
Defined.

(** C7. On entering [Port_Init] with a table, the pointer is stored and
    the flag is set to NOT_INITIALIZED before anything else happens; the
    flag is not written again while the table is processed, so it reads
    NOT_INITIALIZED after every entry; it is set to INITIALIZED once the
    pass over the entire table is complete, whatever the entries are
    (skipped with an error or not). *)
Theorem C7_Port_Init_status_lifecycle (cfg : Port_ConfigType) (s : State) :
  wf_config cfg ->
  exists s0 m sN s',
    exec (write_Port_ConfigPtr (Some cfg) ;; write_Port_Status PORT_NOT_INITIALIZED) s
    = Some s0 /\
    events_since s s0 = [EvConfigPtr (Some cfg); EvStatus PORT_NOT_INITIALIZED] /\
    Port_Init_entries (Pins cfg) 0 s0 = Some (m, sN) /\
    (forall v, ~ In (EvStatus v) (events_since s0 sN)) /\
    (forall pre post, Pins cfg = pre ++ post ->
       exists m1 s1, Port_Init_entries pre 0 s0 = Some (m1, s1) /\
                     Port_Status s1 = PORT_NOT_INITIALIZED) /\
    Port_Init (Some cfg) s = Some (tt, s') /\
    events_since sN s' = [EvStatus PORT_INITIALIZED] /\
    trace s' = trace s ++ [EvConfigPtr (Some cfg); EvStatus PORT_NOT_INITIALIZED]
                       ++ events_since s0 sN ++ [EvStatus PORT_INITIALIZED] /\
    Port_Status s' = PORT_INITIALIZED.
Proof.
  intros Hwf.
  set (s0 := replay [EvConfigPtr (Some cfg); EvStatus PORT_NOT_INITIALIZED] s).
  set (body := Port_Init_table_events (Pins cfg) 0).
  exists s0, (table_mask (Pins cfg) 0), (replay body s0),
    (replay [EvStatus PORT_INITIALIZED] (replay body s0)).
  split; [reflexivity|].
  split; [apply events_since_replay|].
  split; [apply Port_Init_entries_replay|].
  rewrite events_since_replay.
  split; [apply hw_no_status, hw_Port_Init_table_events|].
  split.
  { intros pre post _. eexists _, _. split; [apply Port_Init_entries_replay|].
    destruct (static_replay _ s0 (hw_Port_Init_table_events pre 0)) as [-> _].
    reflexivity. }
  split.
  { rewrite (Port_Init_replay cfg s Hwf). unfold s0, body.
    rewrite !replay_cons, replay_app. reflexivity. }
  split; [apply events_since_replay|].
  split; [|reflexivity].
  rewrite !trace_replay. unfold s0. rewrite trace_replay.
  now rewrite <- !app_assoc.
Qed.

Lemma C7_Port_Init_status_lifecycle_witness :
  exists s',
    Port_Init (Some Port_Configuration) (reset_state hw_zero) = Some (tt, s') /\
    Port_Status s' = PORT_INITIALIZED.
Proof.
  destruct (C7_Port_Init_status_lifecycle Port_Configuration (reset_state hw_zero)
              eq_refl)
    as (s0 & m & sN & s' & _ & _ & _ & _ & _ & H & _ & _ & Hs).
  exists s'. split; assumption.
Defined.

(** C10. [Port_setPinDirection], [Port_RefreshPortDirection],
    [Port_SetPinMode] and [Port_GetVersionInfo] leave [Port_Status] and
    [Port_ConfigPtr] as they found them, for every argument and every
    starting state, whether they succeed or report an error; on a usable
    driver each of them returns.  [Port_Init] is the operation that
    writes the two variables. *)
Theorem C10_static_variables_frame (s : State) :
  (forall Pin Direction s',
     exec (Port_setPinDirection Pin Direction) s = Some s' ->
     Port_Status s' = Port_Status s /\ Port_ConfigPtr s' = Port_ConfigPtr s) /\
  (forall s',
     exec Port_RefreshPortDirection s = Some s' ->
     Port_Status s' = Port_Status s /\ Port_ConfigPtr s' = Port_ConfigPtr s) /\
  (forall Pin Mode s',
     exec (Port_SetPinMode Pin Mode) s = Some s' ->
     Port_Status s' = Port_Status s /\ Port_ConfigPtr s' = Port_ConfigPtr s) /\
  (forall versioninfo s',
     exec (Port_GetVersionInfo versioninfo) s = Some s' ->
     Port_Status s' = Port_Status s /\ Port_ConfigPtr s' = Port_ConfigPtr s) /\
  (state_ok s ->
     (forall Pin Direction, exists s', exec (Port_setPinDirection Pin Direction) s = Some s') /\
     (exists s', exec Port_RefreshPortDirection s = Some s') /\
     (forall Pin Mode, exists s', exec (Port_SetPinMode Pin Mode) s = Some s') /\
     (forall versioninfo, exists s', exec (Port_GetVersionInfo versioninfo) s = Some s')) /\
  (exists s',
     exec (Port_Init (Some Port_Configuration)) (reset_state hw_zero) = Some s' /\
     Port_Status s' <> Port_Status (reset_state hw_zero) /\
     Port_ConfigPtr s' <> Port_ConfigPtr (reset_state hw_zero)).
Proof.
  split; [|split; [|split; [|split; [|split]]]].
  - intros Pin d s' H. destruct (Port_setPinDirection_inv _ _ _ _ H) as (tr & -> & Htr).
    now apply static_replay.
  - intros s' H. destruct (Port_RefreshPortDirection_inv _ _ H) as (tr & -> & Htr).
    now apply static_replay.
  - intros Pin m s' H. destruct (Port_SetPinMode_inv _ _ _ _ H) as (tr & -> & Htr).
    now apply static_replay.
  - intros v s' H. destruct (Port_GetVersionInfo_inv _ _ _ H) as (tr & -> & Htr).
    now apply static_replay.
  - intros Hok. split; [|split; [|split]].
    + intros Pin d. destruct (Port_setPinDirection_runs Pin d s Hok) as (tr & H & _).
      eexists. apply (exec_Some _ _ _ _ H).
    + destruct (Port_RefreshPortDirection_runs s Hok) as (tr & H & _).
      eexists. apply (exec_Some _ _ _ _ H).
    + intros Pin m. destruct (Port_SetPinMode_runs Pin m s Hok) as (tr & H & _).
      eexists. apply (exec_Some _ _ _ _ H).
    + intros [v|]; eexists; reflexivity.
  - eexists. split; [apply (exec_Some _ _ tt), (Port_Init_replay Port_Configuration); reflexivity|].
    split; discriminate.
Qed.

Lemma C10_static_variables_frame_witness :
  exists s',
    exec (Port_setPinDirection 0 PORT_PIN_IN)
         (initialized_state Port_Configuration hw_zero) = Some s' /\
    Port_Status s' = PORT_INITIALIZED /\
    Port_ConfigPtr s' = Some Port_Configuration.
Proof.
  pose (s := initialized_state Port_Configuration hw_zero).
  assert (Hok : state_ok s).
  { intros _. exists Port_Configuration. split; reflexivity. }
  destruct (C10_static_variables_frame s) as (H1 & _ & _ & _ & H5 & _).
  destruct (H5 Hok) as (Hrun & _).
  destruct (Hrun 0 PORT_PIN_IN) as (s' & Hs').
  exists s'. split; [exact Hs'|]. exact (H1 _ _ _ Hs').
Defined.

(** ** The unlock sequence comes first *)













Lemma unlock_events_locked (P : GpioBase) (p c : Z) :
  GPIO_base p = Some P ->
  locked_pin P c = true ->
  unlock_events P p c
  = [EvReg (GpioReg P PORT_LOCK_REG_OFFSET) (Store GPIO_UNLOCK_KEY);
     EvReg (GpioReg P PORT_COMMIT_REG_OFFSET) (set_bit c)].
Proof.
  intros HP Hl. unfold unlock_events.
  rewrite (locked_pin_is_PD7_or_PF0 p c P HP), Hl. reflexivity.
Qed.

Lemma unlock_events_not_locked (P : GpioBase) (p c : Z) :
  GPIO_base p = Some P ->
  locked_pin P c = false ->
  unlock_events P p c = [].
Proof.
  intros HP Hl. unfold unlock_events.
  rewrite (locked_pin_is_PD7_or_PF0 p c P HP), Hl. reflexivity.
Qed.



(** ** Walking the table *)

Lemma Port_Init_table_events_app (l1 l2 : list Port_ConfigChannel) (m : Z) :
  Port_Init_table_events (l1 ++ l2) m
  = Port_Init_table_events l1 m ++ Port_Init_table_events l2 (table_mask l1 m).
Proof.
  revert m. induction l1 as [|e l1 IH]; intros m; [reflexivity|].
  cbn [app Port_Init_table_events table_mask]. now rewrite IH, app_assoc.
Qed.

Lemma Port_Init_visit (cfg : Port_ConfigType) (s : State)
      (pre : list Port_ConfigChannel) (e : Port_ConfigChannel)
      (post : list Port_ConfigChannel) :
  wf_config cfg ->
  Pins cfg = pre ++ e :: post ->
  let s0 := replay [EvConfigPtr (Some cfg); EvStatus PORT_NOT_INITIALIZED] s in
  let m1 := table_mask pre 0 in
  let s1 := replay (Port_Init_table_events pre 0) s0 in
  let s2 := replay (Port_Init_entry_events e m1) s1 in
  let s3 := replay (Port_Init_table_events post (clock_mask (Port_Num e) m1)) s2 in
  Port_Init_visits cfg s pre e post m1 s1 s2 (replay [EvStatus PORT_INITIALIZED] s3).
Proof.
  intros Hwf Hl s0 m1 s1 s2 s3.
  exists s0, (clock_mask (Port_Num e) m1),
    (table_mask post (clock_mask (Port_Num e) m1)), s3.
  split; [exact Hl|].
  split; [reflexivity|].
  split; [apply Port_Init_entries_replay|].
  split; [apply Port_Init_entry_replay|].
  split; [apply Port_Init_entries_replay|].
  split; [reflexivity|].
  rewrite (Port_Init_replay cfg s Hwf), Hl, Port_Init_table_events_app.
  cbn [Port_Init_table_events].
  unfold s3, s2, s1, s0, m1.
  rewrite !replay_cons, !replay_app. reflexivity.
Qed.

Lemma Port_RefreshPortDirection_visit (cfg : Port_ConfigType) (s : State)
      (pre : list Port_ConfigChannel) (e : Port_ConfigChannel)
      (post : list Port_ConfigChannel) :
  wf_config cfg ->
  Port_Status s <> PORT_NOT_INITIALIZED ->
  Port_ConfigPtr s = Some cfg ->
  Pins cfg = pre ++ e :: post ->
  let s1 := replay (Port_RefreshPortDirection_table_events pre) s in
  let s2 := replay (Port_RefreshPortDirection_entry_events e) s1 in
  Port_RefreshPortDirection_visits cfg s pre e post s1 s2
    (replay (Port_RefreshPortDirection_table_events post) s2).
Proof.
  intros Hwf Hst Hp Hl s1 s2.
  split; [exact Hl|].
  split; [apply Port_RefreshPortDirection_entries_replay|].
  split; [apply Port_RefreshPortDirection_entry_replay|].
  split; [apply Port_RefreshPortDirection_entries_replay|].
  rewrite (Port_RefreshPortDirection_replay cfg s Hwf Hst Hp), Hl.
  unfold Port_RefreshPortDirection_table_events, s2, s1.
  rewrite flat_map_app. cbn [flat_map]. rewrite !replay_app. reflexivity.
Qed.

(** ** Register contents after an access *)

Lemma regs_replay_last (tr : list Event) (r : Reg) (a : Access) (s : State) :
  regs (replay (tr ++ [EvReg r a]) s) r = apply_access a (regs (replay tr s) r).
Proof.
  rewrite replay_app, replay_cons, replay_nil. cbn [apply_event regs]. unfold upd.
  destruct (Reg_eq_dec r r); [reflexivity | contradiction].
Qed.

Lemma testbit_clear_bit (c v : Z) :
  0 <= c < 32 -> Z.testbit (apply_access (clear_bit c) v) c = false.
Proof.
  intros Hc. cbn [apply_access clear_bit].
  rewrite Z.land_spec, testbit_NOT32, testbit_BIT, Z.eqb_refl by assumption.
  apply andb_false_r.
Qed.

Lemma testbit_set_bit (c v : Z) :
  0 <= c < 32 -> Z.testbit (apply_access (set_bit c) v) c = true.
Proof.
  intros Hc. cbn [apply_access set_bit].
  rewrite Z.lor_spec, testbit_BIT, Z.eqb_refl by assumption.
  apply orb_true_r.
Qed.

Lemma testbit_direction_access (c d v : Z) :
  0 <= c < 32 ->
  Z.testbit (apply_access (direction_access c d) v) c = (d =? PORT_PIN_OUT).
Proof.
  intros Hc. unfold direction_access. destruct (d =? PORT_PIN_OUT).
  - now apply testbit_set_bit.
  - now apply testbit_clear_bit.
Qed.

Lemma testbit_direction_access_other (c d v k : Z) :
  0 <= k < 32 -> c <> k ->
  Z.testbit (apply_access (direction_access c d) v) k = Z.testbit v k.
Proof.
  intros Hk Hne. unfold direction_access, set_bit, clear_bit.
  destruct (d =? PORT_PIN_OUT); cbn [apply_access].
  - rewrite Z.lor_spec, testbit_BIT by assumption.
    destruct (Z.eqb_spec c k); [contradiction | apply orb_false_r].
  - rewrite Z.land_spec, testbit_NOT32, testbit_BIT by assumption.
    destruct (Z.eqb_spec c k); [contradiction | apply andb_true_r].
Qed.

Lemma direction_access_not_OUT (c d : Z) :
  d <> PORT_PIN_OUT -> direction_access c d = clear_bit c.
Proof.
  intros H. unfold direction_access.
  destruct (Z.eqb_spec d PORT_PIN_OUT); [contradiction | reflexivity].
Qed.

(** Which registers the groups of the vocabulary access. *)

Lemma accesses_unlock_events (r : Reg) (P : GpioBase) (p c : Z) :
  r <> GpioReg P PORT_LOCK_REG_OFFSET ->
  r <> GpioReg P PORT_COMMIT_REG_OFFSET ->
  existsb (accesses r) (unlock_events P p c) = false.
Proof.
  intros H1 H2. unfold unlock_events. destruct (is_PD7_or_PF0 p c); [|reflexivity].
  cbn [existsb accesses].
  destruct (Reg_eq_dec _ r) as [E|_]; [now subst r|].
  destruct (Reg_eq_dec _ r) as [E|_]; [now subst r|]. reflexivity.
Qed.

Lemma accesses_clock_events (r : Reg) (p m : Z) :
  r <> SYSCTL_RCGCGPIO_REG ->
  existsb (accesses r) (clock_events p m) = false.
Proof.
  intros H. unfold clock_events. destruct (_ =? 0); [|reflexivity].
  cbn [existsb accesses]. destruct (Reg_eq_dec _ r) as [E|_]; [now subst r|].
  reflexivity.
Qed.

Lemma accesses_mode_events (r : Reg) (sid : Z) (P : GpioBase) (c m : Z) :
  r <> GpioReg P PORT_ANALOG_MODE_SEL_REG_OFFSET ->
  r <> GpioReg P PORT_ALT_FUNC_REG_OFFSET ->
  r <> GpioReg P PORT_CTL_REG_OFFSET ->
  r <> GpioReg P PORT_DIGITAL_ENABLE_REG_OFFSET ->
  existsb (accesses r) (mode_events sid P c m) = false.
Proof.
  intros H1 H2 H3 H4. unfold mode_events, dio_events.
  destruct (m =? PIN_MODE_DIO); [|reflexivity].
  cbn [existsb accesses].
  repeat (destruct (Reg_eq_dec _ r) as [E|_]; [now subst r|]). reflexivity.
Qed.

Lemma accesses_resistor_events (r : Reg) (P : GpioBase) (c x : Z) :
  r <> GpioReg P PORT_PULL_UP_REG_OFFSET ->
  r <> GpioReg P PORT_PULL_DOWN_REG_OFFSET ->
  existsb (accesses r) (resistor_events P c x) = false.
Proof.
  intros H1 H2. unfold resistor_events.
  destruct (x =? PULL_UP); [|destruct (x =? PULL_DOWN); [|reflexivity]];
    cbn [existsb accesses];
    repeat (destruct (Reg_eq_dec _ r) as [E|_]; [now subst r|]); reflexivity.
Qed.

Lemma accesses_single (r r' : Reg) (a : Access) :
  r <> r' -> existsb (accesses r) [EvReg r' a] = false.
Proof.
  intros H. cbn [existsb accesses].
  destruct (Reg_eq_dec r' r) as [E|_]; [now subst r|]. reflexivity.
Qed.

(** ** Direction and resistor programming *)

Lemma Port_Init_entry_events_input (e : Port_ConfigChannel) (m : Z) (P : GpioBase) :
  GPIO_base (Port_Num e) = Some P ->
  Direction e <> PORT_PIN_OUT ->
  Port_Init_entry_events e m
  = clock_events (Port_Num e) m ++
    unlock_events P (Port_Num e) (Ch_Num e) ++
    [EvReg (GpioReg P PORT_DIR_REG_OFFSET) (clear_bit (Ch_Num e))] ++
    resistor_events P (Ch_Num e) (Resistor e) ++
    mode_events PORT_INIT_SID P (Ch_Num e) (Mode e).
Proof.
  intros HP Hd. unfold Port_Init_entry_events.
  rewrite HP, (direction_access_not_OUT _ _ Hd).
  destruct (Z.eqb_spec (Direction e) PORT_PIN_OUT); [contradiction|].
  reflexivity.
Qed.

(** After the entry of an input pin has been processed, its direction
    bit reads 0. *)
Lemma Port_Init_entry_input_bit (e : Port_ConfigChannel) (m : Z) (P : GpioBase)
      (s : State) :
  GPIO_base (Port_Num e) = Some P ->
  Direction e <> PORT_PIN_OUT ->
  0 <= Ch_Num e < 32 ->
  Z.testbit (regs (replay (Port_Init_entry_events e m) s)
                  (GpioReg P PORT_DIR_REG_OFFSET)) (Ch_Num e) = false.
Proof.
  intros HP Hd Hc.
  rewrite (Port_Init_entry_events_input e m P HP Hd).
  set (c := clock_events (Port_Num e) m).
  set (u := unlock_events P (Port_Num e) (Ch_Num e)).
  set (r := resistor_events P (Ch_Num e) (Resistor e)).
  set (x := mode_events PORT_INIT_SID P (Ch_Num e) (Mode e)).
  replace (c ++ u ++ [EvReg (GpioReg P PORT_DIR_REG_OFFSET) (clear_bit (Ch_Num e))]
             ++ r ++ x)
    with (((c ++ u) ++ [EvReg (GpioReg P PORT_DIR_REG_OFFSET) (clear_bit (Ch_Num e))])
            ++ (r ++ x))
    by (now rewrite <- !app_assoc).
  rewrite replay_app, regs_replay_frame.
  - rewrite regs_replay_last. now apply testbit_clear_bit.
  - unfold r, x.
    rewrite existsb_app, accesses_resistor_events, accesses_mode_events by discriminate.
    reflexivity.
Qed.

Lemma no_data_access_input (e : Port_ConfigChannel) (m : Z) (P B : GpioBase) :
  GPIO_base (Port_Num e) = Some P ->
  Direction e <> PORT_PIN_OUT ->
  existsb (accesses (GpioReg B PORT_DATA_REG_OFFSET)) (Port_Init_entry_events e m)
  = false.
Proof.
  intros HP Hd. rewrite (Port_Init_entry_events_input e m P HP Hd).
  rewrite !existsb_app, accesses_clock_events, accesses_unlock_events,
    accesses_single, accesses_resistor_events, accesses_mode_events by discriminate.
  reflexivity.
Qed.

(** C9. Any [Direction] argument other than [PORT_PIN_OUT] makes
    [Port_setPinDirection] behave exactly as [PORT_PIN_IN] does: when the
    call reaches the direction register it clears the direction bit.  In
    [Port_Init] an entry whose [Direction] is not [PORT_PIN_OUT] is
    processed exactly as the same entry with [PORT_PIN_IN]: on a known
    port the direction bit is cleared, the resistor is programmed, and
    no data register is accessed. *)
Theorem C9_non_OUT_is_input (d : Z) :
  d <> PORT_PIN_OUT ->
  (forall Pin s, Port_setPinDirection Pin d s = Port_setPinDirection Pin PORT_PIN_IN s) /\
  (forall Pin s cfg e P,
     Port_Status s <> PORT_NOT_INITIALIZED ->
     Port_ConfigPtr s = Some cfg ->
     Pin < PORT_CONFIGURED_CHANNELS ->
     nth_error (Pins cfg) (Z.to_nat Pin) = Some e ->
     Direction_Changeable e <> FALSE ->
     GPIO_base (Port_Num e) = Some P ->
     exists s',
       Port_setPinDirection Pin d s = Some (tt, s') /\
       events_since s s'
       = unlock_events P (Port_Num e) (Ch_Num e) ++
         [EvReg (GpioReg P PORT_DIR_REG_OFFSET) (clear_bit (Ch_Num e))] /\
       (0 <= Ch_Num e < 32 ->
        Z.testbit (regs s' (GpioReg P PORT_DIR_REG_OFFSET)) (Ch_Num e) = false)) /\
  (forall e m s,
     Direction e = d ->
     Port_Init_entry e m s = Port_Init_entry (with_Direction e PORT_PIN_IN) m s) /\
  (forall e m s P,
     Direction e = d ->
     GPIO_base (Port_Num e) = Some P ->
     exists m' s',
       Port_Init_entry e m s = Some (m', s') /\
       events_since s s'
       = clock_events (Port_Num e) m ++
         unlock_events P (Port_Num e) (Ch_Num e) ++
         [EvReg (GpioReg P PORT_DIR_REG_OFFSET) (clear_bit (Ch_Num e))] ++
         resistor_events P (Ch_Num e) (Resistor e) ++
         mode_events PORT_INIT_SID P (Ch_Num e) (Mode e) /\
       (forall B, existsb (accesses (GpioReg B PORT_DATA_REG_OFFSET))
                          (events_since s s') = false) /\
       (forall B, regs s' (GpioReg B PORT_DATA_REG_OFFSET)
                  = regs s (GpioReg B PORT_DATA_REG_OFFSET)) /\
       (0 <= Ch_Num e < 32 ->
        Z.testbit (regs s' (GpioReg P PORT_DIR_REG_OFFSET)) (Ch_Num e) = false)).
Proof.
  intros Hd. split; [|split; [|split]].
  - intros Pin s. unfold Port_setPinDirection.
    rewrite (proj2 (Z.eqb_neq d PORT_PIN_OUT) Hd). reflexivity.
  - intros Pin s cfg e P Hst Hp Hpin Hn Hch HP.
    eexists. split.
    { apply (Port_setPinDirection_entry Pin d s e Hst Hpin).
      now apply (Pins_at_nth s cfg). }
    unfold Port_setPinDirection_entry_events.
    destruct (Z.eqb_spec (Direction_Changeable e) FALSE); [contradiction|].
    rewrite HP, (direction_access_not_OUT _ _ Hd).
    split; [apply events_since_replay|].
    intros Hc. rewrite regs_replay_last. now apply testbit_clear_bit.
  - intros e m s He. rewrite !Port_Init_entry_replay.
    unfold Port_Init_entry_events, with_Direction.
    cbn [Port_Num Ch_Num Mode Direction InitialValue Resistor].
    rewrite He, (direction_access_not_OUT _ _ Hd).
    rewrite (proj2 (Z.eqb_neq d PORT_PIN_OUT) Hd). reflexivity.
  - intros e m s P He HP. subst d.
    eexists _, _. split; [apply Port_Init_entry_replay|].
    rewrite events_since_replay.
    split; [now apply Port_Init_entry_events_input|].
    split; [intros B; now apply (no_data_access_input e m P)|].
    split.
    + intros B. apply regs_replay_frame. now apply (no_data_access_input e m P).
    + now apply Port_Init_entry_input_bit.
Qed.

Lemma C9_non_OUT_is_input_witness :
  exists s',
    Port_setPinDirection 0 7 (initialized_state Port_Configuration (fun _ => 0xFF))
    = Some (tt, s') /\
    events_since (initialized_state Port_Configuration (fun _ => 0xFF)) s'
    = [EvReg (GpioReg GPIO_PORTF_BASE_ADDRESS PORT_DIR_REG_OFFSET) (AndMask 0xFFFFFFFD)] /\
    Z.testbit (regs s' (GpioReg GPIO_PORTF_BASE_ADDRESS PORT_DIR_REG_OFFSET)) 1 = false.
Proof.
  destruct (C9_non_OUT_is_input 7 ltac:(discriminate)) as (_ & H & _).
  destruct (H 0 (initialized_state Port_Configuration (fun _ => 0xFF))
              Port_Configuration
              (mkChannel 5 1 PIN_MODE_DIO PORT_PIN_OUT STD_HIGH TRUE TRUE RESISTOR_OFF)
              GPIO_PORTF_BASE_ADDRESS)
    as (s' & H1 & H2 & H3); try reflexivity; try discriminate.
  exists s'. split; [exact H1|]. split; [exact H2|].
  apply H3. cbn. lia.
Defined.

(** C4 as stated fails: the entry of an input pin with the resistor OFF
    leaves both pull registers as they were.  Here both pull bits of PA0
    are set before [Port_Init] and are still set after it. *)
Lemma C4_pulls_not_cleared_counterexample :
  Direction (hd (mkChannel 0 0 0 0 0 0 0 0) (Pins cfg_input_resistor_off)) = PORT_PIN_IN /\
  Resistor (hd (mkChannel 0 0 0 0 0 0 0 0) (Pins cfg_input_resistor_off)) = RESISTOR_OFF /\
  exists s',
    Port_Init (Some cfg_input_resistor_off) (reset_state hw_PA0_pulls_on) = Some (tt, s') /\
    Z.testbit (regs s' (GpioReg GPIO_PORTA_BASE_ADDRESS PORT_PULL_UP_REG_OFFSET)) 0 = true /\
    Z.testbit (regs s' (GpioReg GPIO_PORTA_BASE_ADDRESS PORT_PULL_DOWN_REG_OFFSET)) 0 = true /\
    Z.testbit (regs s' (GpioReg GPIO_PORTA_BASE_ADDRESS PORT_DIR_REG_OFFSET)) 0 = false.
Proof.
  split; [reflexivity|]. split; [reflexivity|].
  eexists. split; [apply Port_Init_replay; reflexivity|].
  vm_compute. repeat split.
Qed.

(** C4, amended.  During [Port_Init], for every entry with a valid port
    whose direction is IN and whose resistor is OFF, the engine clears
    the direction bit and accesses neither the pull-up nor the pull-down
    register: both pull bits of that channel keep the value they had. *)
Theorem C4_input_resistor_off_amended (cfg : Port_ConfigType) (s : State)
        (pre : list Port_ConfigChannel) (e : Port_ConfigChannel)
        (post : list Port_ConfigChannel) (P : GpioBase) :
  wf_config cfg ->
  Pins cfg = pre ++ e :: post ->
  GPIO_base (Port_Num e) = Some P ->
  Direction e = PORT_PIN_IN ->
  Resistor e = RESISTOR_OFF ->
  exists m1 s1 s2 s',
    Port_Init_visits cfg s pre e post m1 s1 s2 s' /\
    events_since s1 s2
    = clock_events (Port_Num e) m1 ++
      unlock_events P (Port_Num e) (Ch_Num e) ++
      [EvReg (GpioReg P PORT_DIR_REG_OFFSET) (clear_bit (Ch_Num e))] ++
      mode_events PORT_INIT_SID P (Ch_Num e) (Mode e) /\
    (forall B,
       existsb (accesses (GpioReg B PORT_PULL_UP_REG_OFFSET)) (events_since s1 s2) = false /\
       existsb (accesses (GpioReg B PORT_PULL_DOWN_REG_OFFSET)) (events_since s1 s2) = false /\
       regs s2 (GpioReg B PORT_PULL_UP_REG_OFFSET)
       = regs s1 (GpioReg B PORT_PULL_UP_REG_OFFSET) /\
       regs s2 (GpioReg B PORT_PULL_DOWN_REG_OFFSET)
       = regs s1 (GpioReg B PORT_PULL_DOWN_REG_OFFSET)) /\
    (0 <= Ch_Num e < 32 ->
     Z.testbit (regs s2 (GpioReg P PORT_DIR_REG_OFFSET)) (Ch_Num e) = false).
Proof.
  intros Hwf Hl HP Hd Hr.
  assert (Hd' : Direction e <> PORT_PIN_OUT) by (rewrite Hd; discriminate).
  eexists _, _, _, _. split; [apply (Port_Init_visit cfg s pre e post Hwf Hl)|].
  rewrite events_since_replay.
  assert (Hev : Port_Init_entry_events e (table_mask pre 0)
                = clock_events (Port_Num e) (table_mask pre 0) ++
                  unlock_events P (Port_Num e) (Ch_Num e) ++
                  [EvReg (GpioReg P PORT_DIR_REG_OFFSET) (clear_bit (Ch_Num e))] ++
                  mode_events PORT_INIT_SID P (Ch_Num e) (Mode e)).
  { rewrite (Port_Init_entry_events_input e _ P HP Hd'), Hr. reflexivity. }
  split; [exact Hev|].
  split.
  - intros B.
    assert (Hu : existsb (accesses (GpioReg B PORT_PULL_UP_REG_OFFSET))
                   (Port_Init_entry_events e (table_mask pre 0)) = false).
    { rewrite Hev, !existsb_app, accesses_clock_events, accesses_unlock_events,
        accesses_single, accesses_mode_events by discriminate. reflexivity. }
    assert (Hw : existsb (accesses (GpioReg B PORT_PULL_DOWN_REG_OFFSET))
                   (Port_Init_entry_events e (table_mask pre 0)) = false).
    { rewrite Hev, !existsb_app, accesses_clock_events, accesses_unlock_events,
        accesses_single, accesses_mode_events by discriminate. reflexivity. }
    split; [exact Hu|]. split; [exact Hw|].
    split; now apply regs_replay_frame.
  - now apply Port_Init_entry_input_bit.
Qed.

Lemma C4_input_resistor_off_amended_witness :
  exists m1 s1 s2 s',
    Port_Init_visits cfg_input_resistor_off (reset_state hw_PA0_pulls_on) []
      (mkChannel 0 0 PIN_MODE_DIO PORT_PIN_IN STD_LOW FALSE TRUE RESISTOR_OFF)
      [mkChannel 5 1 PIN_MODE_DIO PORT_PIN_OUT STD_HIGH TRUE TRUE RESISTOR_OFF]
      m1 s1 s2 s' /\
    regs s2 (GpioReg GPIO_PORTA_BASE_ADDRESS PORT_PULL_UP_REG_OFFSET)
    = regs s1 (GpioReg GPIO_PORTA_BASE_ADDRESS PORT_PULL_UP_REG_OFFSET) /\
    Z.testbit (regs s2 (GpioReg GPIO_PORTA_BASE_ADDRESS PORT_DIR_REG_OFFSET)) 0 = false.
Proof.
  destruct (C4_input_resistor_off_amended cfg_input_resistor_off
              (reset_state hw_PA0_pulls_on) []
              (mkChannel 0 0 PIN_MODE_DIO PORT_PIN_IN STD_LOW FALSE TRUE RESISTOR_OFF)
              [mkChannel 5 1 PIN_MODE_DIO PORT_PIN_OUT STD_HIGH TRUE TRUE RESISTOR_OFF]
              GPIO_PORTA_BASE_ADDRESS eq_refl eq_refl eq_refl eq_refl eq_refl)
    as (m1 & s1 & s2 & s' & Hv & _ & Hb & Hdir).
  exists m1, s1, s2, s'. split; [exact Hv|].
  split; [apply (Hb GPIO_PORTA_BASE_ADDRESS)|].
  apply Hdir. cbn. lia.
Defined.

(** ** Entries that name an unknown port *)

Lemma Port_Init_entry_events_unknown_port (e : Port_ConfigChannel) (m : Z) :
  GPIO_base (Port_Num e) = None ->
  Port_Init_entry_events e m
  = clock_events (Port_Num e) m ++
    [EvDet PORT_MODULE_ID PORT_INSTANCE_ID PORT_INIT_SID PORT_E_PARAM_PIN].
Proof. intros H. unfold Port_Init_entry_events. now rewrite H. Qed.

(** C2 (the code departs from the claim).  [Port_Init] on a table whose
    first entry names port 6: the entry is reported with
    [PORT_E_PARAM_PIN] and skipped, and the second entry is processed,
    but the skipped entry has already set bit 6 of the clock-gate
    register. *)
Theorem C2_unknown_port_writes_clock_gate :
  exists s',
    Port_Init (Some cfg_unknown_port) (reset_state hw_zero) = Some (tt, s') /\
    trace s'
    = [ EvConfigPtr (Some cfg_unknown_port);
        EvStatus PORT_NOT_INITIALIZED;
        EvReg SYSCTL_RCGCGPIO_REG (OrMask 64);
        EvDet PORT_MODULE_ID PORT_INSTANCE_ID PORT_INIT_SID PORT_E_PARAM_PIN;
        EvReg SYSCTL_RCGCGPIO_REG (OrMask 32);
        EvReg (GpioReg GPIO_PORTF_BASE_ADDRESS PORT_DIR_REG_OFFSET) (AndMask 0xFFFFFFEF);
        EvReg (GpioReg GPIO_PORTF_BASE_ADDRESS PORT_PULL_UP_REG_OFFSET) (OrMask 16);
        EvReg (GpioReg GPIO_PORTF_BASE_ADDRESS PORT_PULL_DOWN_REG_OFFSET)
          (AndMask 0xFFFFFFEF);
        EvReg (GpioReg GPIO_PORTF_BASE_ADDRESS PORT_ANALOG_MODE_SEL_REG_OFFSET)
          (AndMask 0xFFFFFFEF);
        EvReg (GpioReg GPIO_PORTF_BASE_ADDRESS PORT_ALT_FUNC_REG_OFFSET)
          (AndMask 0xFFFFFFEF);
        EvReg (GpioReg GPIO_PORTF_BASE_ADDRESS PORT_CTL_REG_OFFSET) (AndMask 0xFFF0FFFF);
        EvReg (GpioReg GPIO_PORTF_BASE_ADDRESS PORT_DIGITAL_ENABLE_REG_OFFSET) (OrMask 16);
        EvStatus PORT_INITIALIZED ] /\
    regs s' SYSCTL_RCGCGPIO_REG = 96.
Proof.
  eexists. split; [apply Port_Init_replay; reflexivity|].
  split; vm_compute; reflexivity.
Qed.

(** ** Rejected mode changes *)

Lemma In_unlock_events (ev : Event) (P : GpioBase) (p c : Z) :
  GPIO_base p = Some P ->
  In ev (unlock_events P p c) ->
  locked_pin P c = true /\
  (ev = EvReg (GpioReg P PORT_LOCK_REG_OFFSET) (Store GPIO_UNLOCK_KEY) \/
   ev = EvReg (GpioReg P PORT_COMMIT_REG_OFFSET) (set_bit c)).
Proof.
  intros HP Hin. unfold unlock_events in Hin.
  rewrite (locked_pin_is_PD7_or_PF0 p c P HP) in Hin.
  destruct (locked_pin P c); [|contradiction].
  split; [reflexivity|].
  destruct Hin as [<-|[<-|[]]]; [now left | now right].
Qed.

Lemma mode_events_unsupported (sid : Z) (P : GpioBase) (c m : Z) :
  m <> PIN_MODE_DIO ->
  mode_events sid P c m
  = [EvDet PORT_MODULE_ID PORT_INSTANCE_ID sid PORT_E_PARAM_INVALID_MODE].
Proof.
  intros H. unfold mode_events.
  destruct (Z.eqb_spec m PIN_MODE_DIO); [contradiction | reflexivity].
Qed.

(** C1 as stated fails twice.  On PF0 the rejected call has already
    stored the key in the lock register and set the commit bit; and for
    an entry that names an unknown port the error reported is
    [PORT_E_PARAM_PIN], not [PORT_E_PARAM_INVALID_MODE]. *)
Lemma C1_rejected_mode_counterexample :
  (exists s',
     Port_SetPinMode 0 PIN_MODE_OTHER (initialized_state cfg_locked_pins hw_zero)
     = Some (tt, s') /\
     trace s'
     = [EvReg (GpioReg GPIO_PORTF_BASE_ADDRESS PORT_LOCK_REG_OFFSET) (Store 0x4C4F434B);
        EvReg (GpioReg GPIO_PORTF_BASE_ADDRESS PORT_COMMIT_REG_OFFSET) (OrMask 1);
        EvDet PORT_MODULE_ID PORT_INSTANCE_ID PORT_SET_PIN_MODE_SID
          PORT_E_PARAM_INVALID_MODE] /\
     regs s' (GpioReg GPIO_PORTF_BASE_ADDRESS PORT_LOCK_REG_OFFSET) = 0x4C4F434B /\
     regs s' (GpioReg GPIO_PORTF_BASE_ADDRESS PORT_COMMIT_REG_OFFSET) = 1) /\
  (exists s',
     Port_SetPinMode 0 PIN_MODE_OTHER (initialized_state cfg_unknown_port hw_zero)
     = Some (tt, s') /\
     trace s'
     = [EvDet PORT_MODULE_ID PORT_INSTANCE_ID PORT_SET_PIN_MODE_SID PORT_E_PARAM_PIN]).
Proof.
  split.
  - eexists. split.
    + apply (Port_SetPinMode_entry 0 PIN_MODE_OTHER _
               (mkChannel 5 0 PIN_MODE_DIO PORT_PIN_OUT STD_LOW TRUE TRUE RESISTOR_OFF));
        [discriminate | reflexivity | reflexivity].
    + vm_compute. repeat split.
  - eexists. split.
    + apply (Port_SetPinMode_entry 0 PIN_MODE_OTHER _
               (mkChannel 6 0 PIN_MODE_DIO PORT_PIN_OUT STD_HIGH TRUE TRUE RESISTOR_OFF));
        [discriminate | reflexivity | reflexivity].
    + vm_compute. reflexivity.
Qed.

(** C1, amended.  For every initialized state, every in-bounds pin
    identifier whose entry has [Mode_Changeable] true and every mode
    other than [PIN_MODE_DIO]: if the entry names a known port,
    [Port_SetPinMode] reports [PORT_E_PARAM_INVALID_MODE] as its last and
    only report, accesses no register other than the lock and commit
    registers of that port, and accesses no register at all unless the
    pin is PD7 or PF0; if the entry names an unknown port it reports
    [PORT_E_PARAM_PIN] and accesses no register. *)
Theorem C1_rejected_mode_amended (s : State) (cfg : Port_ConfigType)
        (Pin Mode : Z) (e : Port_ConfigChannel) :
  Port_Status s <> PORT_NOT_INITIALIZED ->
  Port_ConfigPtr s = Some cfg ->
  0 <= Pin < PORT_CONFIGURED_CHANNELS ->
  nth_error (Pins cfg) (Z.to_nat Pin) = Some e ->
  Mode_Changeable e <> FALSE ->
  Mode <> PIN_MODE_DIO ->
  exists s',
    Port_SetPinMode Pin Mode s = Some (tt, s') /\
    (forall P, GPIO_base (Port_Num e) = Some P ->
       (exists tr,
          events_since s s'
          = tr ++ [EvDet PORT_MODULE_ID PORT_INSTANCE_ID PORT_SET_PIN_MODE_SID
                     PORT_E_PARAM_INVALID_MODE] /\
          forall ev, In ev tr ->
            locked_pin P (Ch_Num e) = true /\
            (ev = EvReg (GpioReg P PORT_LOCK_REG_OFFSET) (Store GPIO_UNLOCK_KEY) \/
             ev = EvReg (GpioReg P PORT_COMMIT_REG_OFFSET) (set_bit (Ch_Num e)))) /\
       (forall r, r <> GpioReg P PORT_LOCK_REG_OFFSET ->
                  r <> GpioReg P PORT_COMMIT_REG_OFFSET ->
                  regs s' r = regs s r) /\
       (locked_pin P (Ch_Num e) = false ->
        events_since s s'
        = [EvDet PORT_MODULE_ID PORT_INSTANCE_ID PORT_SET_PIN_MODE_SID
             PORT_E_PARAM_INVALID_MODE] /\
        regs s' = regs s)) /\
    (GPIO_base (Port_Num e) = None ->
     events_since s s'
     = [EvDet PORT_MODULE_ID PORT_INSTANCE_ID PORT_SET_PIN_MODE_SID PORT_E_PARAM_PIN] /\
     regs s' = regs s).
Proof.
  intros Hst Hp Hpin Hn Hch Hm.
  eexists. split.
  { apply (Port_SetPinMode_entry Pin Mode s e Hst); [lia|].
    now apply (Pins_at_nth s cfg). }
  rewrite events_since_replay. unfold Port_SetPinMode_entry_events.
  destruct (Z.eqb_spec (Mode_Changeable e) FALSE); [contradiction|].
  split.
  - intros P HP. rewrite HP, (mode_events_unsupported _ _ _ _ Hm).
    split; [|split].
    + exists (unlock_events P (Port_Num e) (Ch_Num e)). split; [reflexivity|].
      intros ev. now apply In_unlock_events.
    + intros r H1 H2. apply regs_replay_frame.
      rewrite existsb_app, accesses_unlock_events by assumption. reflexivity.
    + intros Hl. rewrite (unlock_events_not_locked P _ _ HP Hl).
      split; reflexivity.
  - intros HP. rewrite HP. split; reflexivity.
Qed.

Lemma C1_rejected_mode_amended_witness :
  exists s',
    Port_SetPinMode 0 PIN_MODE_OTHER (initialized_state Port_Configuration hw_zero)
    = Some (tt, s') /\
    events_since (initialized_state Port_Configuration hw_zero) s'
    = [EvDet PORT_MODULE_ID PORT_INSTANCE_ID PORT_SET_PIN_MODE_SID
         PORT_E_PARAM_INVALID_MODE] /\
    regs s' = hw_zero.
Proof.
  destruct (C1_rejected_mode_amended
              (initialized_state Port_Configuration hw_zero) Port_Configuration
              0 PIN_MODE_OTHER
              (mkChannel 5 1 PIN_MODE_DIO PORT_PIN_OUT STD_HIGH TRUE TRUE RESISTOR_OFF))
    as (s' & H1 & H2 & _);
    [discriminate | reflexivity | cbv; split; congruence | reflexivity
    | discriminate | discriminate |].
  destruct (H2 GPIO_PORTF_BASE_ADDRESS eq_refl) as (_ & _ & H3).
  destruct (H3 eq_refl) as (H4 & H5).
  exists s'. split; [exact H1|]. split; [exact H4 | exact H5].
Defined.

(** ** What is validated *)

Lemma no_gpio_access_unknown_port (e : Port_ConfigChannel) (m : Z)
      (B : GpioBase) (off : RegOffset) :
  GPIO_base (Port_Num e) = None ->
  existsb (accesses (GpioReg B off)) (Port_Init_entry_events e m) = false.
Proof.
  intros H. rewrite (Port_Init_entry_events_unknown_port e m H).
  rewrite existsb_app, accesses_clock_events by discriminate. reflexivity.
Qed.

Lemma no_PARAM_PIN_known_port (e : Port_ConfigChannel) (m : Z) (P : GpioBase) :
  GPIO_base (Port_Num e) = Some P ->
  ~ In (EvDet PORT_MODULE_ID PORT_INSTANCE_ID PORT_INIT_SID PORT_E_PARAM_PIN)
       (Port_Init_entry_events e m).
Proof.
  intros HP. unfold Port_Init_entry_events. rewrite HP.
  unfold clock_events, unlock_events, level_events, resistor_events, mode_events,
    dio_events.
  destruct (_ =? 0); destruct (is_PD7_or_PF0 _ _); destruct (Direction e =? _);
    destruct (Mode e =? _); destruct (Resistor e =? PULL_UP);
    destruct (Resistor e =? PULL_DOWN); cbn [app In];
    intros H; repeat (destruct H as [H|H]; [discriminate H|]); exact H.
Qed.

(** C3 as stated fails: the channel index is not validated.  An entry
    that names channel 9 of port A is accepted by [Port_setPinDirection],
    which sets bit 9 of the direction register and reports nothing. *)
Lemma C3_channel_not_validated_counterexample :
  ~ (0 <= Ch_Num (hd (mkChannel 0 0 0 0 0 0 0 0) (Pins cfg_channel_9)) <= 7) /\
  exists s',
    Port_setPinDirection 0 PORT_PIN_OUT (initialized_state cfg_channel_9 hw_zero)
    = Some (tt, s') /\
    trace s' = [EvReg (GpioReg GPIO_PORTA_BASE_ADDRESS PORT_DIR_REG_OFFSET) (OrMask 512)] /\
    regs s' (GpioReg GPIO_PORTA_BASE_ADDRESS PORT_DIR_REG_OFFSET) = 512.
Proof.
  split; [cbn; lia|].
  eexists. split.
  - apply (Port_setPinDirection_entry 0 PORT_PIN_OUT _
             (mkChannel 0 9 PIN_MODE_DIO PORT_PIN_IN STD_LOW TRUE TRUE RESISTOR_OFF));
      [discriminate | reflexivity | reflexivity].
  - vm_compute. split; reflexivity.
Qed.

(** C3, amended.  Each entry point re-validates the port index of the
    entry it uses, and none validates the channel index.

    For an entry whose port is not one of 0..5: the iteration of
    [Port_Init] reports [PORT_E_PARAM_PIN] and accesses no register of
    any port block; the iteration of [Port_RefreshPortDirection]
    accesses no register, and reports [PORT_E_PARAM_PIN] when the
    direction of the entry is fixed (a changeable entry is skipped, with
    no event at all); [Port_setPinDirection] and [Port_SetPinMode]
    access no register and make one report, [PORT_E_PARAM_PIN] when the
    entry is changeable and the earlier rejection
    ([PORT_E_DIRECTION_UNCHANGEABLE], [PORT_E_MODE_UNCHANGEABLE]) when
    it is not.

    For an entry on a port in 0..5 that the operation accepts (every
    entry for [Port_Init], a fixed-direction entry for the refresh, a
    changeable entry for the two single-pin operations), whatever
    [Ch_Num] is: no [PORT_E_PARAM_PIN] is reported (the refresh and the
    single-pin operations report nothing), and the direction register,
    or for [Port_SetPinMode] with [PIN_MODE_DIO] each of the four
    function registers, is accessed.  A channel in 0..31, inside 0..7 or
    not, is the bit position of the single-bit accesses. *)
Theorem C3_port_validated_channel_not_amended (e : Port_ConfigChannel) (s : State) :
  (~ (0 <= Port_Num e <= 5) ->
     (forall m, exists m' s',
        Port_Init_entry e m s = Some (m', s') /\
        In (EvDet PORT_MODULE_ID PORT_INSTANCE_ID PORT_INIT_SID PORT_E_PARAM_PIN)
           (events_since s s') /\
        forall B off, existsb (accesses (GpioReg B off)) (events_since s s') = false) /\
     (exists s',
        Port_RefreshPortDirection_entry e s = Some (tt, s') /\
        existsb is_access (events_since s s') = false /\
        regs s' = regs s /\
        events_since s s'
        = if Direction_Changeable e =? FALSE
          then [EvDet PORT_MODULE_ID PORT_INSTANCE_ID PORT_REFRESH_PIN_DIRECTION_SID
                  PORT_E_PARAM_PIN]
          else []) /\
     (forall Pin x cfg,
        Port_Status s <> PORT_NOT_INITIALIZED ->
        Port_ConfigPtr s = Some cfg ->
        Pin < PORT_CONFIGURED_CHANNELS ->
        nth_error (Pins cfg) (Z.to_nat Pin) = Some e ->
        (exists s',
           Port_setPinDirection Pin x s = Some (tt, s') /\
           existsb is_access (events_since s s') = false /\
           regs s' = regs s /\
           events_since s s'
           = [EvDet PORT_MODULE_ID PORT_INSTANCE_ID PORT_SET_PIN_DIRECTION_SID
                (if Direction_Changeable e =? FALSE
                 then PORT_E_DIRECTION_UNCHANGEABLE else PORT_E_PARAM_PIN)]) /\
        (exists s',
           Port_SetPinMode Pin x s = Some (tt, s') /\
           existsb is_access (events_since s s') = false /\
           regs s' = regs s /\
           events_since s s'
           = [EvDet PORT_MODULE_ID PORT_INSTANCE_ID PORT_SET_PIN_MODE_SID
                (if Mode_Changeable e =? FALSE
                 then PORT_E_MODE_UNCHANGEABLE else PORT_E_PARAM_PIN)]))) /\
  (0 <= Port_Num e <= 5 ->
   exists P, GPIO_base (Port_Num e) = Some P /\
     (forall m, exists m' s',
        Port_Init_entry e m s = Some (m', s') /\
        ~ In (EvDet PORT_MODULE_ID PORT_INSTANCE_ID PORT_INIT_SID PORT_E_PARAM_PIN)
             (events_since s s') /\
        existsb (accesses (GpioReg P PORT_DIR_REG_OFFSET)) (events_since s s') = true /\
        (0 <= Ch_Num e < 32 ->
         In (EvReg (GpioReg P PORT_DIR_REG_OFFSET)
                   (direction_access (Ch_Num e) (Direction e)))
            (events_since s s'))) /\
     (Direction_Changeable e = FALSE ->
      exists s',
        Port_RefreshPortDirection_entry e s = Some (tt, s') /\
        existsb is_report (events_since s s') = false /\
        existsb (accesses (GpioReg P PORT_DIR_REG_OFFSET)) (events_since s s') = true /\
        (0 <= Ch_Num e < 32 ->
         events_since s s'
         = unlock_events P (Port_Num e) (Ch_Num e) ++
           [EvReg (GpioReg P PORT_DIR_REG_OFFSET)
              (direction_access (Ch_Num e) (Direction e))])) /\
     (forall Pin x cfg,
        Port_Status s <> PORT_NOT_INITIALIZED ->
        Port_ConfigPtr s = Some cfg ->
        Pin < PORT_CONFIGURED_CHANNELS ->
        nth_error (Pins cfg) (Z.to_nat Pin) = Some e ->
        (Direction_Changeable e <> FALSE ->
         exists s',
           Port_setPinDirection Pin x s = Some (tt, s') /\
           existsb is_report (events_since s s') = false /\
           existsb (accesses (GpioReg P PORT_DIR_REG_OFFSET)) (events_since s s') = true /\
           (0 <= Ch_Num e < 32 ->
            events_since s s'
            = unlock_events P (Port_Num e) (Ch_Num e) ++
              [EvReg (GpioReg P PORT_DIR_REG_OFFSET) (direction_access (Ch_Num e) x)])) /\
        (Mode_Changeable e <> FALSE ->
         exists s',
           Port_SetPinMode Pin PIN_MODE_DIO s = Some (tt, s') /\
           existsb is_report (events_since s s') = false /\
           (forall off,
              off = PORT_ANALOG_MODE_SEL_REG_OFFSET \/ off = PORT_ALT_FUNC_REG_OFFSET \/
              off = PORT_CTL_REG_OFFSET \/ off = PORT_DIGITAL_ENABLE_REG_OFFSET ->
              existsb (accesses (GpioReg P off)) (events_since s s') = true) /\
           (0 <= Ch_Num e < 32 ->
            In (EvReg (GpioReg P PORT_ANALOG_MODE_SEL_REG_OFFSET) (clear_bit (Ch_Num e)))
               (events_since s s') /\
            In (EvReg (GpioReg P PORT_ALT_FUNC_REG_OFFSET) (clear_bit (Ch_Num e)))
               (events_since s s') /\
            In (EvReg (GpioReg P PORT_DIGITAL_ENABLE_REG_OFFSET) (set_bit (Ch_Num e)))
               (events_since s s'))))).
Proof.
  split.
  - intros Hbad. pose proof (GPIO_base_None _ Hbad) as HP.
    split; [|split].
    + intros m. eexists _, _. split; [apply Port_Init_entry_replay|].
      rewrite events_since_replay. split.
      * rewrite (Port_Init_entry_events_unknown_port e m HP).
        apply in_or_app. right. now left.
      * intros B off. now apply no_gpio_access_unknown_port.
    + eexists. split; [apply Port_RefreshPortDirection_entry_replay|].
      rewrite events_since_replay. unfold Port_RefreshPortDirection_entry_events.
      rewrite HP. destruct (Direction_Changeable e =? FALSE); repeat split.
    + intros Pin x cfg Hst Hp Hpin Hn. split.
      * eexists. split.
        { apply (Port_setPinDirection_entry Pin x s e Hst Hpin).
          now apply (Pins_at_nth s cfg). }
        rewrite events_since_replay. unfold Port_setPinDirection_entry_events.
        rewrite HP. destruct (Direction_Changeable e =? FALSE); repeat split.
      * eexists. split.
        { apply (Port_SetPinMode_entry Pin x s e Hst Hpin).
          now apply (Pins_at_nth s cfg). }
        rewrite events_since_replay. unfold Port_SetPinMode_entry_events.
        rewrite HP. destruct (Mode_Changeable e =? FALSE); repeat split.
  - intros Hok. destruct (GPIO_base_valid _ Hok) as (P & HP).
    exists P. split; [exact HP|].
    assert (Hdir : forall d pre post,
               In (EvReg (GpioReg P PORT_DIR_REG_OFFSET) (direction_access (Ch_Num e) d))
                  (pre ++ (EvReg (GpioReg P PORT_DIR_REG_OFFSET)
                             (direction_access (Ch_Num e) d) :: post))).
    { intros d pre post. apply in_or_app. right. now left. }
    assert (Hacc : forall ev tr, In ev tr -> forall r, accesses r ev = true ->
                                 existsb (accesses r) tr = true).
    { intros ev tr Hin r Hr. apply existsb_exists. now exists ev. }
    assert (Hunl : existsb is_report (unlock_events P (Port_Num e) (Ch_Num e)) = false).
    { unfold unlock_events. now destruct (is_PD7_or_PF0 _ _). }
    assert (Hself : forall off a, accesses (GpioReg P off) (EvReg (GpioReg P off) a) = true).
    { intros off a. cbn [accesses]. now destruct (Reg_eq_dec _ _). }
    split; [|split].
    + intros m. eexists _, _. split; [apply Port_Init_entry_replay|].
      rewrite events_since_replay. split; [now apply (no_PARAM_PIN_known_port e m P)|].
      assert (Hin : In (EvReg (GpioReg P PORT_DIR_REG_OFFSET)
                          (direction_access (Ch_Num e) (Direction e)))
                       (Port_Init_entry_events e m)).
      { unfold Port_Init_entry_events. rewrite HP.
        apply in_or_app. right. apply in_or_app. right.
        apply in_or_app. left. now left. }
      split; [exact (Hacc _ _ Hin _ (Hself _ _)) | intros _; exact Hin].
    + intros Hd. eexists. split; [apply Port_RefreshPortDirection_entry_replay|].
      rewrite events_since_replay. unfold Port_RefreshPortDirection_entry_events.
      rewrite Hd, HP. cbn [Z.eqb FALSE]. split; [|split].
      * rewrite existsb_app, Hunl. reflexivity.
      * exact (Hacc _ _ (Hdir _ _ []) _ (Hself _ _)).
      * reflexivity.
    + intros Pin x cfg Hst Hp Hpin Hn. split.
      * intros Hd. eexists. split.
        { apply (Port_setPinDirection_entry Pin x s e Hst Hpin).
          now apply (Pins_at_nth s cfg). }
        rewrite events_since_replay. unfold Port_setPinDirection_entry_events.
        destruct (Z.eqb_spec (Direction_Changeable e) FALSE); [contradiction|].
        rewrite HP. split; [|split].
        { rewrite existsb_app, Hunl. reflexivity. }
        { exact (Hacc _ _ (Hdir _ _ []) _ (Hself _ _)). }
        { reflexivity. }
      * intros Hd. eexists. split.
        { apply (Port_SetPinMode_entry Pin PIN_MODE_DIO s e Hst Hpin).
          now apply (Pins_at_nth s cfg). }
        rewrite events_since_replay. unfold Port_SetPinMode_entry_events.
        destruct (Z.eqb_spec (Mode_Changeable e) FALSE); [contradiction|].
        rewrite HP. unfold mode_events. cbn [Z.eqb PIN_MODE_DIO]. unfold dio_events.
        split; [|split].
        { rewrite existsb_app, Hunl. reflexivity. }
        { intros off Hoff. rewrite existsb_app. apply orb_true_intro. right.
          destruct Hoff as [->|[->|[->| ->]]]; cbn [existsb];
            rewrite ?Hself, ?orb_true_r; reflexivity. }
        { intros _. repeat split; apply in_or_app; right; cbn [In]; tauto. }
Qed.

Lemma C3_port_validated_channel_not_amended_witness :
  (exists s',
     Port_setPinDirection 0 PORT_PIN_IN (initialized_state cfg_unknown_port hw_zero)
     = Some (tt, s') /\
     events_since (initialized_state cfg_unknown_port hw_zero) s'
     = [EvDet PORT_MODULE_ID PORT_INSTANCE_ID PORT_SET_PIN_DIRECTION_SID
          PORT_E_PARAM_PIN]) /\
  (exists s',
     Port_setPinDirection 0 PORT_PIN_OUT (initialized_state cfg_channel_9 hw_zero)
     = Some (tt, s') /\
     events_since (initialized_state cfg_channel_9 hw_zero) s'
     = [EvReg (GpioReg GPIO_PORTA_BASE_ADDRESS PORT_DIR_REG_OFFSET) (OrMask 512)]).
Proof.
  split.
  - destruct (C3_port_validated_channel_not_amended
                (mkChannel 6 0 PIN_MODE_DIO PORT_PIN_OUT STD_HIGH TRUE TRUE RESISTOR_OFF)
                (initialized_state cfg_unknown_port hw_zero)) as (H & _).
    destruct H as (_ & _ & H); [cbn; lia|].
    destruct (H 0 PORT_PIN_IN cfg_unknown_port) as (H1 & _);
      [discriminate | reflexivity | reflexivity | reflexivity |].
    destruct H1 as (s' & Hrun & _ & _ & Hev).
    exists s'. split; [exact Hrun | exact Hev].
  - destruct (C3_port_validated_channel_not_amended
                (mkChannel 0 9 PIN_MODE_DIO PORT_PIN_IN STD_LOW TRUE TRUE RESISTOR_OFF)
                (initialized_state cfg_channel_9 hw_zero)) as (_ & H).
    destruct H as (P & HP & _ & _ & H); [cbn; lia|].
    assert (P = GPIO_PORTA_BASE_ADDRESS) by (cbn in HP; congruence). subst P.
    destruct (H 0 PORT_PIN_OUT cfg_channel_9) as (H1 & _);
      [discriminate | reflexivity | reflexivity | reflexivity |].
    destruct H1 as (s' & Hrun & _ & _ & Hev); [discriminate|].
    exists s'. split; [exact Hrun | apply Hev; cbn; lia].
Defined.

(** ** Direction bits across a refresh *)

Lemma Port_RefreshPortDirection_entry_bit (e : Port_ConfigChannel) (s : State)
      (P : GpioBase) (k : Z) :
  0 <= k < 32 ->
  Z.testbit (regs (replay (Port_RefreshPortDirection_entry_events e) s)
                  (GpioReg P PORT_DIR_REG_OFFSET)) k
  = if names_fixed_pin e P k then Direction e =? PORT_PIN_OUT
    else Z.testbit (regs s (GpioReg P PORT_DIR_REG_OFFSET)) k.
Proof.
  intros Hk. unfold Port_RefreshPortDirection_entry_events, names_fixed_pin.
  destruct (Direction_Changeable e =? FALSE); cbn [andb]; [|reflexivity].
  destruct (GPIO_base (Port_Num e)) as [P'|] eqn:HP; [|reflexivity].
  destruct (GpioBase_eq_dec P' P) as [->|Hne].
  - rewrite regs_replay_last.
    destruct (Z.eqb_spec (Ch_Num e) k) as [->|Hc].
    + now apply testbit_direction_access.
    + rewrite testbit_direction_access_other by assumption.
      rewrite regs_replay_frame; [reflexivity|].
      apply accesses_unlock_events; discriminate.
  - rewrite regs_replay_frame; [reflexivity|].
    rewrite existsb_app, accesses_unlock_events, accesses_single;
      try discriminate; try reflexivity.
    congruence.
Qed.

Lemma Port_RefreshPortDirection_table_bit_kept (l : list Port_ConfigChannel)
      (s : State) (P : GpioBase) (k : Z) :
  0 <= k < 32 ->
  (forall e, In e l -> names_fixed_pin e P k = false) ->
  Z.testbit (regs (replay (Port_RefreshPortDirection_table_events l) s)
                  (GpioReg P PORT_DIR_REG_OFFSET)) k
  = Z.testbit (regs s (GpioReg P PORT_DIR_REG_OFFSET)) k.
Proof.
  intros Hk. revert s. induction l as [|e l IH]; intros s Hl; [reflexivity|].
  unfold Port_RefreshPortDirection_table_events in *. cbn [flat_map].
  rewrite replay_app, IH by (intros e' He'; apply Hl; now right).
  rewrite Port_RefreshPortDirection_entry_bit by assumption.
  now rewrite (Hl e (or_introl eq_refl)).
Qed.

Lemma Port_RefreshPortDirection_table_bit_set (l : list Port_ConfigChannel)
      (s : State) (P : GpioBase) (k : Z) (b : bool) :
  0 <= k < 32 ->
  Z.testbit (regs s (GpioReg P PORT_DIR_REG_OFFSET)) k = b ->
  (forall e, In e l -> names_fixed_pin e P k = true ->
             (Direction e =? PORT_PIN_OUT) = b) ->
  Z.testbit (regs (replay (Port_RefreshPortDirection_table_events l) s)
                  (GpioReg P PORT_DIR_REG_OFFSET)) k = b.
Proof.
  intros Hk. revert s. induction l as [|e l IH]; intros s Hs Hl; [exact Hs|].
  unfold Port_RefreshPortDirection_table_events in *. cbn [flat_map].
  rewrite replay_app. apply IH; [|intros e' He'; apply Hl; now right].
  rewrite Port_RefreshPortDirection_entry_bit by assumption.
  destruct (names_fixed_pin e P k) eqn:Hn; [|exact Hs].
  apply Hl; [now left | exact Hn].
Qed.

Lemma names_fixed_pin_self (e : Port_ConfigChannel) (P : GpioBase) :
  Direction_Changeable e = FALSE ->
  GPIO_base (Port_Num e) = Some P ->
  names_fixed_pin e P (Ch_Num e) = true.
Proof.
  intros Hd HP. unfold names_fixed_pin. rewrite Hd, HP.
  destruct (GpioBase_eq_dec P P); [|contradiction]. now rewrite !Z.eqb_refl.
Qed.

Lemma Port_Init_establishes (cfg : Port_ConfigType) (s0 s1 : State) :
  wf_config cfg ->
  Port_Init (Some cfg) s0 = Some (tt, s1) ->
  Port_Status s1 = PORT_INITIALIZED /\ Port_ConfigPtr s1 = Some cfg.
Proof.
  intros Hwf H. rewrite (Port_Init_replay cfg s0 Hwf) in H.
  injection H as <-.
  rewrite replay_app. split; [reflexivity|].
  rewrite replay_cons, replay_nil. cbn [apply_event Port_ConfigPtr].
  match goal with
  | |- Port_ConfigPtr (replay ?tr ?st) = _ =>
      destruct (static_replay tr st (hw_Port_Init_table_events _ _)) as [_ ->]
  end.
  reflexivity.
Qed.

(** C5 as stated fails twice.  A fixed-direction entry that names an
    unknown port is reported and skipped, nothing is re-applied for it;
    and with the table of the spec's scenario the refresh of the fixed
    pin PF4 writes the direction register of port F, which is also the
    direction register of the changeable pin PF1. *)
Lemma C5_refresh_counterexample :
  (Direction_Changeable (hd (mkChannel 0 0 0 0 0 0 0 0) (Pins cfg_fixed_unknown_port))
   = FALSE /\
   exists s',
     Port_RefreshPortDirection (initialized_state cfg_fixed_unknown_port hw_zero)
     = Some (tt, s') /\
     trace s'
     = [EvDet PORT_MODULE_ID PORT_INSTANCE_ID PORT_REFRESH_PIN_DIRECTION_SID
          PORT_E_PARAM_PIN]) /\
  (Direction_Changeable (hd (mkChannel 0 0 0 0 0 0 0 0) (Pins Port_Configuration))
   = TRUE /\
   GPIO_base (Port_Num (hd (mkChannel 0 0 0 0 0 0 0 0) (Pins Port_Configuration)))
   = Some GPIO_PORTF_BASE_ADDRESS /\
   exists s',
     Port_RefreshPortDirection (initialized_state Port_Configuration hw_zero)
     = Some (tt, s') /\
     trace s'
     = [EvReg (GpioReg GPIO_PORTF_BASE_ADDRESS PORT_DIR_REG_OFFSET)
          (AndMask 0xFFFFFFEF)]).
Proof.
  split.
  - split; [reflexivity|]. eexists. split.
    + apply (Port_RefreshPortDirection_replay cfg_fixed_unknown_port);
        [reflexivity | discriminate | reflexivity].
    + vm_compute. reflexivity.
  - split; [reflexivity|]. split; [reflexivity|]. eexists. split.
    + apply (Port_RefreshPortDirection_replay Port_Configuration);
        [reflexivity | discriminate | reflexivity].
    + vm_compute. reflexivity.
Qed.

(** C5, amended.  After [Port_Init] has run on a table, and whatever the
    registers hold by then, [Port_RefreshPortDirection] re-applies the
    configured direction bit (set for OUT, cleared otherwise, after the
    lock and commit accesses for PD7 and PF0) for every entry whose
    [Direction_Changeable] is false and whose port is one of 0..5; a
    fixed entry with another port is reported and skipped.  For an entry
    whose [Direction_Changeable] is true nothing is done at all.  When
    the call returns, the direction bit of a fixed pin has its configured
    value, unless a later fixed entry names the same pin with the other
    direction, and the direction bit of a pin that no fixed entry names
    is what it was before the call. *)
Theorem C5_refresh_amended (cfg : Port_ConfigType) (s0 s1 s : State) :
  wf_config cfg ->
  Port_Init (Some cfg) s0 = Some (tt, s1) ->
  Port_Status s = Port_Status s1 ->
  Port_ConfigPtr s = Port_ConfigPtr s1 ->
  exists s',
    Port_RefreshPortDirection s = Some (tt, s') /\
    (forall pre e post, Pins cfg = pre ++ e :: post ->
       exists sa sb,
         Port_RefreshPortDirection_visits cfg s pre e post sa sb s' /\
         (Direction_Changeable e <> FALSE -> sb = sa) /\
         (Direction_Changeable e = FALSE ->
          GPIO_base (Port_Num e) = None ->
          events_since sa sb
          = [EvDet PORT_MODULE_ID PORT_INSTANCE_ID PORT_REFRESH_PIN_DIRECTION_SID
               PORT_E_PARAM_PIN] /\
          regs sb = regs sa) /\
         (Direction_Changeable e = FALSE ->
          forall P, GPIO_base (Port_Num e) = Some P ->
            events_since sa sb
            = unlock_events P (Port_Num e) (Ch_Num e) ++
              [EvReg (GpioReg P PORT_DIR_REG_OFFSET)
                 (direction_access (Ch_Num e) (Direction e))] /\
            (0 <= Ch_Num e < 32 ->
             Z.testbit (regs sb (GpioReg P PORT_DIR_REG_OFFSET)) (Ch_Num e)
             = (Direction e =? PORT_PIN_OUT)) /\
            (0 <= Ch_Num e < 32 ->
             (forall e', In e' post -> names_fixed_pin e' P (Ch_Num e) = true ->
                         (Direction e' =? PORT_PIN_OUT) = (Direction e =? PORT_PIN_OUT)) ->
             Z.testbit (regs s' (GpioReg P PORT_DIR_REG_OFFSET)) (Ch_Num e)
             = (Direction e =? PORT_PIN_OUT)))) /\
    (forall P k, 0 <= k < 32 ->
       (forall e, In e (Pins cfg) -> names_fixed_pin e P k = false) ->
       Z.testbit (regs s' (GpioReg P PORT_DIR_REG_OFFSET)) k
       = Z.testbit (regs s (GpioReg P PORT_DIR_REG_OFFSET)) k).
Proof.
  intros Hwf Hinit Hst Hp.
  destruct (Port_Init_establishes cfg s0 s1 Hwf Hinit) as [Hs1 Hp1].
  rewrite Hs1 in Hst. rewrite Hp1 in Hp.
  assert (Hst' : Port_Status s <> PORT_NOT_INITIALIZED) by (rewrite Hst; discriminate).
  exists (replay (Port_RefreshPortDirection_table_events (Pins cfg)) s).
  split; [now apply (Port_RefreshPortDirection_replay cfg)|].
  split.
  - intros pre e post Hl.
    pose proof (Port_RefreshPortDirection_visit cfg s pre e post Hwf Hst' Hp Hl) as Hv.
    cbv zeta in Hv.
    set (sa := replay (Port_RefreshPortDirection_table_events pre) s) in *.
    set (sb := replay (Port_RefreshPortDirection_entry_events e) sa) in *.
    assert (Hfin : replay (Port_RefreshPortDirection_table_events (Pins cfg)) s
                   = replay (Port_RefreshPortDirection_table_events post) sb).
    { rewrite Hl. unfold Port_RefreshPortDirection_table_events, sb, sa.
      rewrite flat_map_app. cbn [flat_map]. now rewrite !replay_app. }
    rewrite Hfin.
    exists sa, sb. split; [exact Hv|]. split; [|split].
    + intros Hd. unfold sb, Port_RefreshPortDirection_entry_events.
      destruct (Z.eqb_spec (Direction_Changeable e) FALSE); [contradiction|].
      reflexivity.
    + intros Hd HP. unfold sb. rewrite events_since_replay.
      unfold Port_RefreshPortDirection_entry_events. rewrite Hd, HP.
      split; reflexivity.
    + intros Hd P HP.
      assert (Hev : Port_RefreshPortDirection_entry_events e
                    = unlock_events P (Port_Num e) (Ch_Num e) ++
                      [EvReg (GpioReg P PORT_DIR_REG_OFFSET)
                         (direction_access (Ch_Num e) (Direction e))]).
      { unfold Port_RefreshPortDirection_entry_events. now rewrite Hd, HP. }
      assert (Hbit : 0 <= Ch_Num e < 32 ->
                     Z.testbit (regs sb (GpioReg P PORT_DIR_REG_OFFSET)) (Ch_Num e)
                     = (Direction e =? PORT_PIN_OUT)).
      { intros Hc. unfold sb.
        rewrite Port_RefreshPortDirection_entry_bit by assumption.
        now rewrite (names_fixed_pin_self e P Hd HP). }
      split; [unfold sb; rewrite events_since_replay; exact Hev|].
      split; [exact Hbit|].
      intros Hc Hpost.
      apply Port_RefreshPortDirection_table_bit_set; auto.
  - intros P k Hk Hno.
    now apply Port_RefreshPortDirection_table_bit_kept.
Qed.

Lemma C5_refresh_amended_witness :
  exists s',
    Port_RefreshPortDirection (initialized_state Port_Configuration hw_tampered)
    = Some (tt, s') /\
    Z.testbit (regs s' (GpioReg GPIO_PORTF_BASE_ADDRESS PORT_DIR_REG_OFFSET)) 4 = false /\
    Z.testbit (regs s' (GpioReg GPIO_PORTF_BASE_ADDRESS PORT_DIR_REG_OFFSET)) 1 = true.
Proof.
  pose proof (Port_Init_replay Port_Configuration (reset_state hw_zero) eq_refl) as Hinit.
  destruct (C5_refresh_amended Port_Configuration (reset_state hw_zero) _
              (initialized_state Port_Configuration hw_tampered)
              eq_refl Hinit eq_refl eq_refl) as (s' & Hrun & Hentries & Hkept).
  exists s'. split; [exact Hrun|]. split.
  - destruct (Hentries
                [mkChannel 5 1 PIN_MODE_DIO PORT_PIN_OUT STD_HIGH TRUE TRUE RESISTOR_OFF]
                (mkChannel 5 4 PIN_MODE_DIO PORT_PIN_IN STD_LOW FALSE TRUE PULL_UP)
                [] eq_refl) as (sa & sb & _ & _ & _ & H).
    destruct (H eq_refl GPIO_PORTF_BASE_ADDRESS eq_refl) as (_ & _ & Hfin).
    apply Hfin; [cbn; lia|]. intros e' [].
  - rewrite (Hkept GPIO_PORTF_BASE_ADDRESS 1); [reflexivity | lia |].
    intros e [<-|[<-|[]]]; reflexivity.
Defined.

(** ** Further facts about rejected entries and rejected modes *)

(** What [Port_Init] does for an entry that names an unknown port: the
    clock-gate access, when the mask does not hold the bit yet, then the
    report; no register of a port block is accessed and the pass goes
    on. *)
Lemma Port_Init_unknown_port_entry (cfg : Port_ConfigType) (s : State)
      (pre : list Port_ConfigChannel) (e : Port_ConfigChannel)
      (post : list Port_ConfigChannel) :
  wf_config cfg ->
  Pins cfg = pre ++ e :: post ->
  ~ (0 <= Port_Num e <= 5) ->
  exists m1 s1 s2 s',
    Port_Init_visits cfg s pre e post m1 s1 s2 s' /\
    events_since s1 s2
    = clock_events (Port_Num e) m1 ++
      [EvDet PORT_MODULE_ID PORT_INSTANCE_ID PORT_INIT_SID PORT_E_PARAM_PIN] /\
    (forall B off, existsb (accesses (GpioReg B off)) (events_since s1 s2) = false) /\
    (Z.land m1 (Z.shiftl 1 (Port_Num e)) = 0 ->
     clock_events (Port_Num e) m1
     = [EvReg SYSCTL_RCGCGPIO_REG (OrMask (uint32 (Z.shiftl 1 (Port_Num e))))]).
Proof.
  intros Hwf Hl Hbad. pose proof (GPIO_base_None _ Hbad) as HP.
  eexists _, _, _, _. split; [apply (Port_Init_visit cfg s pre e post Hwf Hl)|].
  rewrite events_since_replay.
  split; [now apply Port_Init_entry_events_unknown_port|].
  split; [intros B off; now apply no_gpio_access_unknown_port|].
  intros Hm. unfold clock_events. now rewrite Hm.
Qed.

(** What [Port_SetPinMode] does when it rejects a mode for PD7 or PF0:
    the lock store and the commit-bit set come before the report. *)
Lemma Port_SetPinMode_rejected_on_locked_pin (s : State) (cfg : Port_ConfigType)
      (Pin Mode : Z) (e : Port_ConfigChannel) (P : GpioBase) :
  Port_Status s <> PORT_NOT_INITIALIZED ->
  Port_ConfigPtr s = Some cfg ->
  0 <= Pin < PORT_CONFIGURED_CHANNELS ->
  nth_error (Pins cfg) (Z.to_nat Pin) = Some e ->
  Mode_Changeable e <> FALSE ->
  Mode <> PIN_MODE_DIO ->
  GPIO_base (Port_Num e) = Some P ->
  locked_pin P (Ch_Num e) = true ->
  exists s',
    Port_SetPinMode Pin Mode s = Some (tt, s') /\
    events_since s s'
    = [EvReg (GpioReg P PORT_LOCK_REG_OFFSET) (Store GPIO_UNLOCK_KEY);
       EvReg (GpioReg P PORT_COMMIT_REG_OFFSET) (set_bit (Ch_Num e));
       EvDet PORT_MODULE_ID PORT_INSTANCE_ID PORT_SET_PIN_MODE_SID
         PORT_E_PARAM_INVALID_MODE].
Proof.
  intros Hst Hp Hpin Hn Hch Hm HP Hl.
  eexists. split.
  { apply (Port_SetPinMode_entry Pin Mode s e Hst); [lia|].
    now apply (Pins_at_nth s cfg). }
  rewrite events_since_replay. unfold Port_SetPinMode_entry_events.
  destruct (Z.eqb_spec (Mode_Changeable e) FALSE); [contradiction|].
  rewrite HP, (mode_events_unsupported _ _ _ _ Hm), (unlock_events_locked P _ _ HP Hl).
  reflexivity.
Qed.

(** * Further properties of the driver *)

(** ** The events of a call *)

Lemma Port_setPinDirection_events_run (s : State) (Pin d : Z) :
  state_ok s ->
  Port_setPinDirection Pin d s
  = Some (tt, replay (Port_setPinDirection_events s Pin d) s).
Proof.
  intros Hok. unfold Port_setPinDirection_events.
  destruct (Z.eqb_spec (Port_Status s) PORT_NOT_INITIALIZED) as [E|NE].
  - now apply Port_setPinDirection_uninit.
  - destruct (Z.geb_spec Pin PORT_CONFIGURED_CHANNELS) as [Hge|Hlt].
    + apply Port_setPinDirection_bad_pin; [assumption | lia].
    + destruct (Hok NE) as (cfg & Hp & Hwf).
      destruct (Pins_at_total s cfg Pin Hp Hwf Hlt) as (e & Hn & He).
      rewrite Hp, Hn. now apply Port_setPinDirection_entry.
Qed.

Lemma Port_SetPinMode_events_run (s : State) (Pin m : Z) :
  state_ok s ->
  Port_SetPinMode Pin m s = Some (tt, replay (Port_SetPinMode_events s Pin m) s).
Proof.
  intros Hok. unfold Port_SetPinMode_events.
  destruct (Z.eqb_spec (Port_Status s) PORT_NOT_INITIALIZED) as [E|NE].
  - now apply Port_SetPinMode_uninit.
  - destruct (Z.geb_spec Pin PORT_CONFIGURED_CHANNELS) as [Hge|Hlt].
    + apply Port_SetPinMode_bad_pin; [assumption | lia].
    + destruct (Hok NE) as (cfg & Hp & Hwf).
      destruct (Pins_at_total s cfg Pin Hp Hwf Hlt) as (e & Hn & He).
      rewrite Hp, Hn. now apply Port_SetPinMode_entry.
Qed.

Lemma Port_RefreshPortDirection_uninit (s : State) :
  Port_Status s = PORT_NOT_INITIALIZED ->
  Port_RefreshPortDirection s
  = Some (tt, replay [EvDet PORT_MODULE_ID PORT_INSTANCE_ID
                        PORT_REFRESH_PIN_DIRECTION_SID PORT_E_UNINIT] s).
Proof.
  intros H. unfold Port_RefreshPortDirection, bind, read_Port_Status.
  rewrite H. reflexivity.
Qed.

Lemma Port_RefreshPortDirection_events_run (s : State) :
  state_ok s ->
  Port_RefreshPortDirection s
  = Some (tt, replay (Port_RefreshPortDirection_events s) s).
Proof.
  intros Hok. unfold Port_RefreshPortDirection_events.
  destruct (Z.eqb_spec (Port_Status s) PORT_NOT_INITIALIZED) as [E|NE].
  - now apply Port_RefreshPortDirection_uninit.
  - destruct (Hok NE) as (cfg & Hp & Hwf). rewrite Hp.
    now apply (Port_RefreshPortDirection_replay cfg).
Qed.

Lemma Port_Init_events_run (p : option Port_ConfigType) (s : State) :
  match p with Some cfg => wf_config cfg | None => True end ->
  Port_Init p s = Some (tt, replay (Port_Init_events p) s).
Proof.
  destruct p as [cfg|]; intros H; [now apply Port_Init_replay | reflexivity].
Qed.

Lemma hw_Port_setPinDirection_events (s : State) (Pin d : Z) :
  forallb hw_event (Port_setPinDirection_events s Pin d) = true.
Proof.
  unfold Port_setPinDirection_events.
  destruct (_ =? _); [reflexivity|]. destruct (_ >=? _); [reflexivity|].
  destruct (Port_ConfigPtr s) as [cfg|]; [|reflexivity].
  destruct (nth_error _ _); [|reflexivity].
  apply hw_Port_setPinDirection_entry_events.
Qed.

Lemma hw_Port_SetPinMode_events (s : State) (Pin m : Z) :
  forallb hw_event (Port_SetPinMode_events s Pin m) = true.
Proof.
  unfold Port_SetPinMode_events.
  destruct (_ =? _); [reflexivity|]. destruct (_ >=? _); [reflexivity|].
  destruct (Port_ConfigPtr s) as [cfg|]; [|reflexivity].
  destruct (nth_error _ _); [|reflexivity].
  apply hw_Port_SetPinMode_entry_events.
Qed.

Lemma hw_Port_RefreshPortDirection_events (s : State) :
  forallb hw_event (Port_RefreshPortDirection_events s) = true.
Proof.
  unfold Port_RefreshPortDirection_events.
  destruct (_ =? _); [reflexivity|].
  destruct (Port_ConfigPtr s) as [cfg|]; [|reflexivity].
  apply hw_Port_RefreshPortDirection_table_events.
Qed.

(** A state that differs from [s] in registers and trace only is as
    usable as [s]. *)
Lemma state_ok_static (s s' : State) :
  Port_Status s' = Port_Status s ->
  Port_ConfigPtr s' = Port_ConfigPtr s ->
  state_ok s -> state_ok s'.
Proof. unfold state_ok. intros -> ->. auto. Qed.

Lemma state_ok_replay (tr : list Event) (s : State) :
  forallb hw_event tr = true -> state_ok s -> state_ok (replay tr s).
Proof.
  intros Htr. destruct (static_replay tr s Htr) as [H1 H2].
  now apply state_ok_static.
Qed.

(** ** Rejected calls *)

(** X1. While the driver is NOT_INITIALIZED, [Port_setPinDirection],
    [Port_RefreshPortDirection] and [Port_SetPinMode] make one report,
    [PORT_E_UNINIT] under their own service id, and return: no register
    is accessed and the table pointer is not dereferenced (the calls
    return even when it is null), whatever the arguments are. *)
Theorem X1_uninitialized_calls_rejected (s : State) :
  Port_Status s = PORT_NOT_INITIALIZED ->
  (forall Pin Direction, exists s',
     Port_setPinDirection Pin Direction s = Some (tt, s') /\
     events_since s s'
     = [EvDet PORT_MODULE_ID PORT_INSTANCE_ID PORT_SET_PIN_DIRECTION_SID PORT_E_UNINIT] /\
     regs s' = regs s) /\
  (exists s',
     Port_RefreshPortDirection s = Some (tt, s') /\
     events_since s s'
     = [EvDet PORT_MODULE_ID PORT_INSTANCE_ID PORT_REFRESH_PIN_DIRECTION_SID
          PORT_E_UNINIT] /\
     regs s' = regs s) /\
  (forall Pin Mode, exists s',
     Port_SetPinMode Pin Mode s = Some (tt, s') /\
     events_since s s'
     = [EvDet PORT_MODULE_ID PORT_INSTANCE_ID PORT_SET_PIN_MODE_SID PORT_E_UNINIT] /\
     regs s' = regs s).
Proof.
  intros H. split; [|split].
  - intros Pin d. eexists. split; [now apply Port_setPinDirection_uninit|].
    split; [apply events_since_replay | reflexivity].
  - eexists. split; [now apply Port_RefreshPortDirection_uninit|].
    split; [apply events_since_replay | reflexivity].
  - intros Pin m. eexists. split; [now apply Port_SetPinMode_uninit|].
    split; [apply events_since_replay | reflexivity].
Qed.

Lemma X1_uninitialized_calls_rejected_witness :
  exists s',
    Port_setPinDirection 200 PORT_PIN_OUT (reset_state hw_tampered) = Some (tt, s') /\
    events_since (reset_state hw_tampered) s'
    = [EvDet PORT_MODULE_ID PORT_INSTANCE_ID PORT_SET_PIN_DIRECTION_SID PORT_E_UNINIT] /\
    regs s' = hw_tampered.
Proof.
  destruct (X1_uninitialized_calls_rejected (reset_state hw_tampered) eq_refl)
    as (H & _).
  exact (H 200 PORT_PIN_OUT).
Defined.

(** X2. A call of [Port_setPinDirection] that is rejected has no effect
    on the registers.  The checks are made in this order: pin identifier
    out of range ([PORT_E_PARAM_PIN]), direction not changeable
    ([PORT_E_DIRECTION_UNCHANGEABLE], also when the entry names an
    unknown port or a locked pin), unknown port ([PORT_E_PARAM_PIN]);
    each rejection is a single report.  A call that passes them reports
    nothing. *)
Theorem X2_setPinDirection_rejections (s : State) (Pin Direction : Z) :
  Port_Status s <> PORT_NOT_INITIALIZED ->
  (PORT_CONFIGURED_CHANNELS <= Pin ->
   exists s',
     Port_setPinDirection Pin Direction s = Some (tt, s') /\
     events_since s s'
     = [EvDet PORT_MODULE_ID PORT_INSTANCE_ID PORT_SET_PIN_DIRECTION_SID
          PORT_E_PARAM_PIN] /\
     regs s' = regs s) /\
  (forall cfg e,
     Pin < PORT_CONFIGURED_CHANNELS ->
     Port_ConfigPtr s = Some cfg ->
     nth_error (Pins cfg) (Z.to_nat Pin) = Some e ->
     exists s',
       Port_setPinDirection Pin Direction s = Some (tt, s') /\
       (Direction_Changeable e = FALSE ->
        events_since s s'
        = [EvDet PORT_MODULE_ID PORT_INSTANCE_ID PORT_SET_PIN_DIRECTION_SID
             PORT_E_DIRECTION_UNCHANGEABLE] /\
        regs s' = regs s) /\
       (Direction_Changeable e <> FALSE -> ~ (0 <= Port_Num e <= 5) ->
        events_since s s'
        = [EvDet PORT_MODULE_ID PORT_INSTANCE_ID PORT_SET_PIN_DIRECTION_SID
             PORT_E_PARAM_PIN] /\
        regs s' = regs s) /\
       (Direction_Changeable e <> FALSE -> 0 <= Port_Num e <= 5 ->
        existsb is_report (events_since s s') = false)).
Proof.
  intros Hst. split.
  - intros Hpin. eexists. split; [now apply Port_setPinDirection_bad_pin|].
    split; [apply events_since_replay | reflexivity].
  - intros cfg e Hpin Hp Hn. eexists. split.
    { apply (Port_setPinDirection_entry Pin Direction s e Hst Hpin).
      now apply (Pins_at_nth s cfg). }
    rewrite events_since_replay. unfold Port_setPinDirection_entry_events.
    split; [|split].
    + intros Hd. rewrite Hd. split; reflexivity.
    + intros Hd Hbad.
      destruct (Z.eqb_spec (Direction_Changeable e) FALSE); [contradiction|].
      rewrite (GPIO_base_None _ Hbad). split; reflexivity.
    + intros Hd Hgood.
      destruct (Z.eqb_spec (Direction_Changeable e) FALSE); [contradiction|].
      destruct (GPIO_base_valid _ Hgood) as (P & ->).
      unfold unlock_events. destruct (is_PD7_or_PF0 _ _); reflexivity.
Qed.

Lemma X2_setPinDirection_rejections_witness :
  exists s',
    Port_setPinDirection 1 PORT_PIN_OUT (initialized_state cfg_locked_pins hw_zero)
    = Some (tt, s') /\
    events_since (initialized_state cfg_locked_pins hw_zero) s'
    = [EvDet PORT_MODULE_ID PORT_INSTANCE_ID PORT_SET_PIN_DIRECTION_SID
         PORT_E_DIRECTION_UNCHANGEABLE] /\
    regs s' = hw_zero.
Proof.
  destruct (X2_setPinDirection_rejections
              (initialized_state cfg_locked_pins hw_zero) 1 PORT_PIN_OUT)
    as (_ & H); [discriminate|].
  destruct (H cfg_locked_pins
              (mkChannel 3 7 PIN_MODE_DIO PORT_PIN_IN STD_LOW FALSE TRUE PULL_UP))
    as (s' & Hrun & Hfixed & _); [reflexivity | reflexivity | reflexivity |].
  exists s'. split; [exact Hrun|]. exact (Hfixed eq_refl).
Defined.

(** X3. [Port_SetPinMode] rejects an out-of-range pin identifier with
    [PORT_E_PARAM_PIN] and a pin whose mode is not changeable with
    [PORT_E_MODE_UNCHANGEABLE]; the second check comes before the port
    and the mode are looked at, so it is the report made also for an
    unknown port, a locked pin or an unsupported mode.  In both cases no
    register is accessed. *)
Theorem X3_SetPinMode_rejections (s : State) (Pin Mode : Z) :
  Port_Status s <> PORT_NOT_INITIALIZED ->
  (PORT_CONFIGURED_CHANNELS <= Pin ->
   exists s',
     Port_SetPinMode Pin Mode s = Some (tt, s') /\
     events_since s s'
     = [EvDet PORT_MODULE_ID PORT_INSTANCE_ID PORT_SET_PIN_MODE_SID PORT_E_PARAM_PIN] /\
     regs s' = regs s) /\
  (forall cfg e,
     Pin < PORT_CONFIGURED_CHANNELS ->
     Port_ConfigPtr s = Some cfg ->
     nth_error (Pins cfg) (Z.to_nat Pin) = Some e ->
     Mode_Changeable e = FALSE ->
     exists s',
       Port_SetPinMode Pin Mode s = Some (tt, s') /\
       events_since s s'
       = [EvDet PORT_MODULE_ID PORT_INSTANCE_ID PORT_SET_PIN_MODE_SID
            PORT_E_MODE_UNCHANGEABLE] /\
       regs s' = regs s).
Proof.
  intros Hst. split.
  - intros Hpin. eexists. split; [now apply Port_SetPinMode_bad_pin|].
    split; [apply events_since_replay | reflexivity].
  - intros cfg e Hpin Hp Hn Hm. eexists. split.
    { apply (Port_SetPinMode_entry Pin Mode s e Hst Hpin).
      now apply (Pins_at_nth s cfg). }
    rewrite events_since_replay. unfold Port_SetPinMode_entry_events.
    rewrite Hm. split; reflexivity.
Qed.

Lemma X3_SetPinMode_rejections_witness :
  exists s',
    Port_SetPinMode 2 PIN_MODE_DIO (initialized_state Port_Configuration hw_zero)
    = Some (tt, s') /\
    events_since (initialized_state Port_Configuration hw_zero) s'
    = [EvDet PORT_MODULE_ID PORT_INSTANCE_ID PORT_SET_PIN_MODE_SID PORT_E_PARAM_PIN] /\
    regs s' = hw_zero.
Proof.
  destruct (X3_SetPinMode_rejections
              (initialized_state Port_Configuration hw_zero) 2 PIN_MODE_DIO)
    as (H & _); [discriminate|].
  apply H. cbv. discriminate.
Defined.

(** ** Bits of the registers after a run *)

Lemma bit_replay (tr : list Event) (s : State) (r : Reg) (k : Z) :
  Z.testbit (regs (replay tr s) r) k
  = match bit_effect tr r k with
    | Some c => c
    | None => Z.testbit (regs s r) k
    end.
Proof.
  revert s. induction tr as [|ev tr IH]; intros s; [reflexivity|].
  rewrite replay_cons, IH. cbn [bit_effect].
  destruct (bit_effect tr r k); [reflexivity|].
  destruct ev as [r' a| | |]; try reflexivity.
  cbn [apply_event regs]. unfold upd.
  destruct (Reg_eq_dec r' r) as [->|Hne].
  - destruct (Reg_eq_dec r r); [|contradiction].
    destruct a as [v|m|m]; cbn [apply_access access_bit].
    + reflexivity.
    + rewrite Z.lor_spec. destruct (Z.testbit m k);
        [apply orb_true_r | apply orb_false_r].
    + rewrite Z.land_spec. destruct (Z.testbit m k);
        [apply andb_true_r | apply andb_false_r].
  - destruct (Reg_eq_dec r r') as [->|]; [contradiction | reflexivity].
Qed.

Lemma bit_effect_app (tr1 tr2 : list Event) (r : Reg) (k : Z) :
  bit_effect (tr1 ++ tr2) r k
  = match bit_effect tr2 r k with
    | Some c => Some c
    | None => bit_effect tr1 r k
    end.
Proof.
  induction tr1 as [|ev tr1 IH]; cbn [app bit_effect].
  - now destruct (bit_effect tr2 r k).
  - rewrite IH. now destruct (bit_effect tr2 r k).
Qed.

Lemma bit_effect_no_access (tr : list Event) (r : Reg) (k : Z) :
  existsb (accesses r) tr = false -> bit_effect tr r k = None.
Proof.
  induction tr as [|ev tr IH]; [reflexivity|].
  cbn [existsb bit_effect]. intros H. apply orb_false_elim in H as [Hev Htr].
  rewrite (IH Htr). destruct ev as [r' a| | |]; try reflexivity.
  cbn [accesses] in Hev. destruct (Reg_eq_dec r' r); [discriminate | reflexivity].
Qed.

(** Running the same events twice in a row leaves every register as
    running them once. *)
Lemma regs_replay_twice (tr : list Event) (s : State) (r : Reg) :
  regs (replay (tr ++ tr) s) r = regs (replay tr s) r.
Proof.
  apply Z.bits_inj'. intros k _.
  rewrite !bit_replay, bit_effect_app.
  now destruct (bit_effect tr r k).
Qed.

Lemma access_bit_direction_access (c d k : Z) :
  0 <= k < 32 ->
  access_bit (direction_access c d) k
  = if c =? k then Some (d =? PORT_PIN_OUT) else None.
Proof.
  intros Hk. unfold direction_access, set_bit, clear_bit.
  destruct (d =? PORT_PIN_OUT); cbn [access_bit].
  - rewrite testbit_BIT by assumption. now destruct (c =? k).
  - rewrite testbit_NOT32, testbit_BIT by assumption. now destruct (c =? k).
Qed.

Lemma access_bit_set_bit (c k : Z) :
  0 <= k < 32 -> access_bit (set_bit c) k = if c =? k then Some true else None.
Proof.
  intros Hk. unfold set_bit. cbn [access_bit].
  rewrite testbit_BIT by assumption. now destruct (c =? k).
Qed.

Lemma access_bit_clear_bit (c k : Z) :
  0 <= k < 32 -> access_bit (clear_bit c) k = if c =? k then Some false else None.
Proof.
  intros Hk. unfold clear_bit. cbn [access_bit].
  rewrite testbit_NOT32, testbit_BIT by assumption. now destruct (c =? k).
Qed.

Lemma bit_effect_single (r' r : Reg) (a : Access) (k : Z) :
  bit_effect [EvReg r' a] r k = if Reg_eq_dec r' r then access_bit a k else None.
Proof. reflexivity. Qed.

(** ** An accepted direction change *)

(** X4. A call of [Port_setPinDirection] that passes the checks gives
    the direction bit of the pin the requested value (1 for
    [PORT_PIN_OUT], 0 otherwise) and changes nothing else: the other
    bits of the direction register and every other register keep their
    values, apart from the lock and commit registers of the port when
    the pin is PD7 or PF0.  In particular the data, pull and function
    registers are left alone. *)
Theorem X4_setPinDirection_effect (s : State) (cfg : Port_ConfigType)
        (Pin Direction : Z) (e : Port_ConfigChannel) (P : GpioBase) :
  Port_Status s <> PORT_NOT_INITIALIZED ->
  Port_ConfigPtr s = Some cfg ->
  Pin < PORT_CONFIGURED_CHANNELS ->
  nth_error (Pins cfg) (Z.to_nat Pin) = Some e ->
  Direction_Changeable e <> FALSE ->
  GPIO_base (Port_Num e) = Some P ->
  exists s',
    Port_setPinDirection Pin Direction s = Some (tt, s') /\
    (0 <= Ch_Num e < 32 ->
     Z.testbit (regs s' (GpioReg P PORT_DIR_REG_OFFSET)) (Ch_Num e)
     = (Direction =? PORT_PIN_OUT)) /\
    (forall k, 0 <= k < 32 -> k <> Ch_Num e ->
       Z.testbit (regs s' (GpioReg P PORT_DIR_REG_OFFSET)) k
       = Z.testbit (regs s (GpioReg P PORT_DIR_REG_OFFSET)) k) /\
    (forall r, r <> GpioReg P PORT_DIR_REG_OFFSET ->
               r <> GpioReg P PORT_LOCK_REG_OFFSET ->
               r <> GpioReg P PORT_COMMIT_REG_OFFSET ->
               regs s' r = regs s r) /\
    (locked_pin P (Ch_Num e) = false ->
     forall r, r <> GpioReg P PORT_DIR_REG_OFFSET -> regs s' r = regs s r).
Proof.
  intros Hst Hp Hpin Hn Hd HP.
  eexists. split.
  { apply (Port_setPinDirection_entry Pin Direction s e Hst Hpin).
    now apply (Pins_at_nth s cfg). }
  unfold Port_setPinDirection_entry_events.
  destruct (Z.eqb_spec (Direction_Changeable e) FALSE); [contradiction|].
  rewrite HP. split; [|split; [|split]].
  - intros Hc. rewrite regs_replay_last. now apply testbit_direction_access.
  - intros k Hk Hne. rewrite regs_replay_last.
    rewrite testbit_direction_access_other by (assumption || congruence).
    rewrite regs_replay_frame; [reflexivity|].
    apply accesses_unlock_events; discriminate.
  - intros r H1 H2 H3. apply regs_replay_frame.
    rewrite existsb_app, accesses_unlock_events, accesses_single by assumption.
    reflexivity.
  - intros Hl r H1. apply regs_replay_frame.
    rewrite (unlock_events_not_locked P _ _ HP Hl).
    cbn [app]. now apply accesses_single.
Qed.

Lemma X4_setPinDirection_effect_witness :
  exists s',
    Port_setPinDirection 0 PORT_PIN_IN (initialized_state Port_Configuration hw_tampered)
    = Some (tt, s') /\
    Z.testbit (regs s' (GpioReg GPIO_PORTF_BASE_ADDRESS PORT_DIR_REG_OFFSET)) 1 = false /\
    Z.testbit (regs s' (GpioReg GPIO_PORTF_BASE_ADDRESS PORT_DIR_REG_OFFSET)) 4 = true /\
    regs s' (GpioReg GPIO_PORTF_BASE_ADDRESS PORT_DATA_REG_OFFSET) = 0xFF.
Proof.
  destruct (X4_setPinDirection_effect
              (initialized_state Port_Configuration hw_tampered) Port_Configuration
              0 PORT_PIN_IN
              (mkChannel 5 1 PIN_MODE_DIO PORT_PIN_OUT STD_HIGH TRUE TRUE RESISTOR_OFF)
              GPIO_PORTF_BASE_ADDRESS)
    as (s' & Hrun & Hbit & Hother & _ & Hframe);
    [discriminate | reflexivity | reflexivity | reflexivity | discriminate
    | reflexivity |].
  exists s'. split; [exact Hrun|]. split; [|split].
  - apply Hbit. cbn. lia.
  - rewrite Hother; [reflexivity | lia | cbn; lia].
  - rewrite (Hframe eq_refl); [reflexivity | discriminate].
Defined.

(** ** Calls and sequences of calls *)

Lemma run_call_events (c : Call) (s : State) :
  state_ok s ->
  well_typed_call c ->
  run_call c s = Some (tt, replay (call_events c s) s).
Proof.
  intros Hok Hwt. destruct c as [p|Pin d| |v|Pin m]; cbn [run_call call_events].
  - apply Port_Init_events_run. destruct p; [exact Hwt | exact I].
  - now apply Port_setPinDirection_events_run.
  - now apply Port_RefreshPortDirection_events_run.
  - destruct v; reflexivity.
  - now apply Port_SetPinMode_events_run.
Qed.

Lemma call_events_static (c : Call) (s s' : State) :
  Port_Status s' = Port_Status s ->
  Port_ConfigPtr s' = Port_ConfigPtr s ->
  call_events c s' = call_events c s.
Proof.
  intros H1 H2. destruct c as [p|Pin d| |v|Pin m]; cbn [call_events];
    try reflexivity.
  - unfold Port_setPinDirection_events. now rewrite H1, H2.
  - unfold Port_RefreshPortDirection_events. now rewrite H1, H2.
  - unfold Port_SetPinMode_events. now rewrite H1, H2.
Qed.

Lemma hw_call_events (c : Call) (s : State) :
  match c with Call_Init (Some _) => False | _ => True end ->
  forallb hw_event (call_events c s) = true.
Proof.
  destruct c as [[cfg|]|Pin d| |[v|]|Pin m]; cbn [call_events]; intros H;
    try contradiction; try reflexivity.
  - apply hw_Port_setPinDirection_events.
  - apply hw_Port_RefreshPortDirection_events.
  - apply hw_Port_SetPinMode_events.
Qed.

Lemma static_after_Init (cfg : Port_ConfigType) (s : State) :
  Port_Status (replay (Port_Init_events (Some cfg)) s) = PORT_INITIALIZED /\
  Port_ConfigPtr (replay (Port_Init_events (Some cfg)) s) = Some cfg.
Proof.
  cbn [Port_Init_events]. rewrite !replay_cons, replay_app.
  split; [reflexivity|].
  rewrite replay_cons, replay_nil. cbn [apply_event Port_ConfigPtr].
  match goal with
  | |- Port_ConfigPtr (replay ?tr ?st) = _ =>
      destruct (static_replay tr st (hw_Port_Init_table_events _ _)) as [_ ->]
  end.
  reflexivity.
Qed.

(** What a call does to the two static variables. *)
Lemma static_after_call (c : Call) (s : State) :
  Port_Status (replay (call_events c s) s)
  = status_after [c] (Port_Status s) /\
  Port_ConfigPtr (replay (call_events c s) s)
  = last_table [c] (Port_ConfigPtr s).
Proof.
  destruct c as [[cfg|]|Pin d| |[v|]|Pin m];
    try (apply static_replay, hw_call_events; exact I).
  apply static_after_Init.
Qed.

Lemma state_ok_after_call (c : Call) (s : State) :
  state_ok s -> well_typed_call c -> state_ok (replay (call_events c s) s).
Proof.
  intros Hok Hwt. destruct c as [[cfg|]|Pin d| |[v|]|Pin m];
    try (apply state_ok_replay; [apply hw_call_events; exact I | exact Hok]).
  destruct (static_after_Init cfg s) as [_ Hp].
  intros _. exists cfg. split; [exact Hp | exact Hwt].
Qed.

Lemma run_calls_replay (cs : list Call) (s : State) :
  state_ok s ->
  Forall well_typed_call cs ->
  exists tr,
    run_calls cs s = Some (tt, replay tr s) /\
    state_ok (replay tr s) /\
    Port_ConfigPtr (replay tr s) = last_table cs (Port_ConfigPtr s) /\
    Port_Status (replay tr s) = status_after cs (Port_Status s).
Proof.
  revert s. induction cs as [|c cs IH]; intros s Hok Hwt.
  - exists []. repeat split; assumption.
  - inversion Hwt as [|c' cs' Hc Hcs]; subst.
    pose proof (state_ok_after_call c s Hok Hc) as Hok1.
    destruct (static_after_call c s) as [Hs1 Hp1].
    destruct (IH _ Hok1 Hcs) as (tr & Hrun & Hok2 & Hp2 & Hs2).
    exists (call_events c s ++ tr). rewrite replay_app.
    split; [|split; [exact Hok2|split]].
    + cbn [run_calls]. unfold bind. rewrite (run_call_events c s Hok Hc). exact Hrun.
    + rewrite Hp2, Hp1. destruct c as [[cfg|]|Pin d| |[v|]|Pin m]; reflexivity.
    + rewrite Hs2, Hs1. destruct c as [[cfg|]|Pin d| |[v|]|Pin m]; reflexivity.
Qed.

Lemma status_after_INITIALIZED (cs : list Call) :
  status_after cs PORT_INITIALIZED = PORT_INITIALIZED.
Proof.
  induction cs as [|c cs IH]; [reflexivity|].
  destruct c as [[cfg|]|Pin d| |[v|]|Pin m]; exact IH.
Qed.

Lemma status_after_values (cs : list Call) :
  status_after cs PORT_NOT_INITIALIZED = PORT_INITIALIZED /\
  last_table cs None <> None \/
  status_after cs PORT_NOT_INITIALIZED = PORT_NOT_INITIALIZED /\
  last_table cs None = None.
Proof.
  induction cs as [|c cs IH]; [right; split; reflexivity|].
  destruct c as [[cfg|]|Pin d| |[v|]|Pin m]; cbn [status_after last_table];
    try exact IH.
  left. split; [apply status_after_INITIALIZED|].
  clear IH. generalize cfg. induction cs as [|c cs IH]; intros cfg0; [discriminate|].
  destruct c as [[cfg'|]|Pin d| |[v|]|Pin m]; cbn [last_table]; apply IH.
Qed.

(** X13. From program start, every sequence of API calls returns: no
    call dereferences a null [Port_ConfigPtr] or reads outside the
    table.  When the sequence is over, [Port_ConfigPtr] is the table of
    the last [Port_Init] that was given one (null if there was none;
    a [Port_Init(NULL)] in between does not reset it), and
    [Port_Status] is INITIALIZED exactly when there was one: no call
    brings an initialized driver back to NOT_INITIALIZED. *)
Theorem X13_call_sequences_are_safe (cs : list Call) (hw : Reg -> Z) :
  Forall well_typed_call cs ->
  exists s',
    run_calls cs (reset_state hw) = Some (tt, s') /\
    state_ok s' /\
    Port_ConfigPtr s' = last_table cs None /\
    Port_Status s' = status_after cs PORT_NOT_INITIALIZED /\
    (Port_Status s' = PORT_INITIALIZED /\ Port_ConfigPtr s' <> None \/
     Port_Status s' = PORT_NOT_INITIALIZED /\ Port_ConfigPtr s' = None).
Proof.
  intros Hwt.
  assert (Hok : state_ok (reset_state hw)) by (intros H; now contradiction H).
  destruct (run_calls_replay cs (reset_state hw) Hok Hwt)
    as (tr & Hrun & Hok' & Hp & Hs).
  exists (replay tr (reset_state hw)).
  split; [exact Hrun|]. split; [exact Hok'|]. split; [exact Hp|]. split; [exact Hs|].
  rewrite Hp, Hs. apply status_after_values.
Qed.

Lemma X13_call_sequences_are_safe_witness :
  exists s',
    run_calls [ Call_setPinDirection 0 PORT_PIN_OUT;
                Call_Init (Some Port_Configuration);
                Call_Init None;
                Call_SetPinMode 1 PIN_MODE_DIO;
                Call_RefreshPortDirection ] (reset_state hw_zero) = Some (tt, s') /\
    Port_ConfigPtr s' = Some Port_Configuration /\
    Port_Status s' = PORT_INITIALIZED.
Proof.
  destruct (X13_call_sequences_are_safe
              [ Call_setPinDirection 0 PORT_PIN_OUT;
                Call_Init (Some Port_Configuration);
                Call_Init None;
                Call_SetPinMode 1 PIN_MODE_DIO;
                Call_RefreshPortDirection ] hw_zero)
    as (s' & Hrun & _ & Hp & Hs & _).
  { repeat constructor. }
  exists s'. split; [exact Hrun|]. split; [exact Hp | exact Hs].
Defined.

(** X6. Every call is idempotent: made a second time right after the
    first, with the same arguments, it emits the same events again and
    leaves every register and both static variables as the first call
    left them.  This holds for [Port_Init] (re-initialisation with the
    same table), for a refresh, and for the single-pin operations,
    rejected or not. *)
Theorem X6_calls_are_idempotent (c : Call) (s : State) :
  state_ok s ->
  well_typed_call c ->
  exists s1 s2,
    run_call c s = Some (tt, s1) /\
    run_call c s1 = Some (tt, s2) /\
    events_since s1 s2 = events_since s s1 /\
    (forall r, regs s2 r = regs s1 r) /\
    Port_Status s2 = Port_Status s1 /\
    Port_ConfigPtr s2 = Port_ConfigPtr s1.
Proof.
  intros Hok Hwt.
  set (tr := call_events c s).
  pose proof (state_ok_after_call c s Hok Hwt) as Hok1. fold tr in Hok1.
  assert (Htr : call_events c (replay tr s) = tr).
  { destruct c as [[cfg|]|Pin d| |[v|]|Pin m]; try reflexivity;
      apply call_events_static; apply static_replay, hw_call_events; exact I. }
  exists (replay tr s), (replay tr (replay tr s)).
  split; [now apply run_call_events|].
  split; [rewrite (run_call_events c (replay tr s) Hok1 Hwt), Htr; reflexivity|].
  rewrite !events_since_replay. split; [reflexivity|].
  split; [intros r; rewrite <- replay_app; apply regs_replay_twice|].
  destruct (static_after_call c s) as [Hs1 Hp1]. fold tr in Hs1, Hp1.
  destruct (static_after_call c (replay tr s)) as [Hs2 Hp2]. rewrite Htr in Hs2, Hp2.
  rewrite Hs2, Hp2, Hs1, Hp1.
  destruct c as [[cfg|]|Pin d| |[v|]|Pin m]; split; reflexivity.
Qed.

Lemma X6_calls_are_idempotent_witness :
  exists s1 s2,
    run_call (Call_Init (Some Port_Configuration)) (reset_state hw_tampered)
    = Some (tt, s1) /\
    run_call (Call_Init (Some Port_Configuration)) s1 = Some (tt, s2) /\
    regs s2 (GpioReg GPIO_PORTF_BASE_ADDRESS PORT_DIR_REG_OFFSET)
    = regs s1 (GpioReg GPIO_PORTF_BASE_ADDRESS PORT_DIR_REG_OFFSET).
Proof.
  destruct (X6_calls_are_idempotent (Call_Init (Some Port_Configuration))
              (reset_state hw_tampered))
    as (s1 & s2 & H1 & H2 & _ & Hr & _).
  { intros H. now contradiction H. }
  { reflexivity. }
  exists s1, s2. split; [exact H1|]. split; [exact H2 | apply Hr].
Defined.

(** What a call does is decided by the two static variables and
    the arguments alone: started in two states that agree on
    [Port_Status] and [Port_ConfigPtr] but hold different register
    contents, a call emits the same events.  The driver never reads a
    register back to take a decision. *)
Theorem events_do_not_depend_on_registers (c : Call) (s s' : State) :
  state_ok s ->
  well_typed_call c ->
  Port_Status s' = Port_Status s ->
  Port_ConfigPtr s' = Port_ConfigPtr s ->
  exists s1 s1',
    run_call c s = Some (tt, s1) /\
    run_call c s' = Some (tt, s1') /\
    events_since s' s1' = events_since s s1.
Proof.
  intros Hok Hwt H1 H2.
  pose proof (state_ok_static s s' H1 H2 Hok) as Hok'.
  exists (replay (call_events c s) s), (replay (call_events c s') s').
  split; [now apply run_call_events|]. split; [now apply run_call_events|].
  rewrite !events_since_replay. now apply call_events_static.
Qed.

Lemma events_do_not_depend_on_registers_witness :
  exists s1 s1',
    run_call Call_RefreshPortDirection (initialized_state Port_Configuration hw_zero)
    = Some (tt, s1) /\
    run_call Call_RefreshPortDirection (initialized_state Port_Configuration hw_tampered)
    = Some (tt, s1') /\
    events_since (initialized_state Port_Configuration hw_tampered) s1'
    = events_since (initialized_state Port_Configuration hw_zero) s1.
Proof.
  apply events_do_not_depend_on_registers; try reflexivity.
  intros _. exists Port_Configuration. split; reflexivity.
Defined.

(** ** The last direction change wins *)

Lemma bit_effect_setPinDirection_entry (e : Port_ConfigChannel) (d1 d2 : Z)
      (r : Reg) (k : Z) :
  0 <= k < 32 ->
  bit_effect (Port_setPinDirection_entry_events e d2) r k = None ->
  bit_effect (Port_setPinDirection_entry_events e d1) r k = None.
Proof.
  intros Hk. unfold Port_setPinDirection_entry_events.
  destruct (Direction_Changeable e =? FALSE); [reflexivity|].
  destruct (GPIO_base (Port_Num e)) as [P|]; [|reflexivity].
  rewrite !bit_effect_app, !bit_effect_single.
  destruct (Reg_eq_dec (GpioReg P PORT_DIR_REG_OFFSET) r); [|trivial].
  rewrite !access_bit_direction_access by assumption.
  destruct (Ch_Num e =? k); [discriminate | trivial].
Qed.

Lemma bit_effect_setPinDirection (s : State) (Pin d1 d2 : Z) (r : Reg) (k : Z) :
  0 <= k < 32 ->
  bit_effect (Port_setPinDirection_events s Pin d2) r k = None ->
  bit_effect (Port_setPinDirection_events s Pin d1) r k = None.
Proof.
  intros Hk. unfold Port_setPinDirection_events.
  destruct (_ =? _); [trivial|]. destruct (_ >=? _); [trivial|].
  destruct (Port_ConfigPtr s) as [cfg|]; [|trivial].
  destruct (nth_error _ _) as [e|]; [|trivial].
  now apply bit_effect_setPinDirection_entry.
Qed.

(** X5. Two calls of [Port_setPinDirection] on the same pin, one after
    the other, leave the 32 bits of every register as the second call
    alone would: the direction requested last is the one in force, and
    the first request leaves no residue.  This holds whether the calls
    are accepted or rejected. *)
Theorem X5_last_direction_wins (s : State) (Pin Direction1 Direction2 : Z) :
  state_ok s ->
  exists s1 s2 s2',
    Port_setPinDirection Pin Direction1 s = Some (tt, s1) /\
    Port_setPinDirection Pin Direction2 s1 = Some (tt, s2) /\
    Port_setPinDirection Pin Direction2 s = Some (tt, s2') /\
    forall r k, 0 <= k < 32 -> Z.testbit (regs s2 r) k = Z.testbit (regs s2' r) k.
Proof.
  intros Hok.
  set (tr1 := Port_setPinDirection_events s Pin Direction1).
  set (tr2 := Port_setPinDirection_events s Pin Direction2).
  assert (Hok1 : state_ok (replay tr1 s))
    by (apply state_ok_replay; [apply hw_Port_setPinDirection_events | exact Hok]).
  assert (Htr : Port_setPinDirection_events (replay tr1 s) Pin Direction2 = tr2).
  { apply (call_events_static (Call_setPinDirection Pin Direction2));
      apply static_replay, hw_Port_setPinDirection_events. }
  exists (replay tr1 s), (replay tr2 (replay tr1 s)), (replay tr2 s).
  split; [now apply Port_setPinDirection_events_run|].
  split; [rewrite (Port_setPinDirection_events_run _ Pin Direction2 Hok1), Htr;
          reflexivity|].
  split; [now apply Port_setPinDirection_events_run|].
  intros r k Hk. rewrite <- replay_app, !bit_replay, bit_effect_app.
  destruct (bit_effect tr2 r k) eqn:E; [reflexivity|].
  unfold tr1. now rewrite (bit_effect_setPinDirection s Pin Direction1 Direction2 r k Hk E).
Qed.

Lemma X5_last_direction_wins_witness :
  exists s1 s2 s2',
    Port_setPinDirection 0 PORT_PIN_IN (initialized_state Port_Configuration hw_tampered)
    = Some (tt, s1) /\
    Port_setPinDirection 0 PORT_PIN_OUT s1 = Some (tt, s2) /\
    Port_setPinDirection 0 PORT_PIN_OUT (initialized_state Port_Configuration hw_tampered)
    = Some (tt, s2') /\
    Z.testbit (regs s2 (GpioReg GPIO_PORTF_BASE_ADDRESS PORT_DIR_REG_OFFSET)) 1
    = Z.testbit (regs s2' (GpioReg GPIO_PORTF_BASE_ADDRESS PORT_DIR_REG_OFFSET)) 1.
Proof.
  destruct (X5_last_direction_wins
              (initialized_state Port_Configuration hw_tampered) 0
              PORT_PIN_IN PORT_PIN_OUT)
    as (s1 & s2 & s2' & H1 & H2 & H3 & Hb).
  { intros _. exists Port_Configuration. split; reflexivity. }
  exists s1, s2, s2'. repeat (split; [assumption|]). apply Hb. lia.
Defined.

(** ** The version query *)

(** [Port_GetVersionInfo] does not look at the state of the driver:
    in every state, initialized or not, a call with a slot fills it with
    vendor 1000, module 124 and version 1.0.0 and leaves the state as it
    is, with no event at all; a call with a null slot makes the single
    report [PORT_E_PARAM_POINTER] and returns no data. *)
Theorem Port_GetVersionInfo_result (s : State) :
  (forall slot,
     Port_GetVersionInfo (Some slot) s
     = Some (Some {| vendorID := 1000; moduleID := 124;
                     sw_major_version := 1; sw_minor_version := 0;
                     sw_patch_version := 0 |}, s)) /\
  (exists s',
     Port_GetVersionInfo None s = Some (None, s') /\
     events_since s s'
     = [EvDet PORT_MODULE_ID PORT_INSTANCE_ID PORT_GET_VERSION_INFO_SID
          PORT_E_PARAM_POINTER] /\
     regs s' = regs s /\
     Port_Status s' = Port_Status s /\
     Port_ConfigPtr s' = Port_ConfigPtr s).
Proof.
  split; [reflexivity|].
  exists (replay [EvDet PORT_MODULE_ID PORT_INSTANCE_ID PORT_GET_VERSION_INFO_SID
                    PORT_E_PARAM_POINTER] s).
  split; [reflexivity|]. split; [apply events_since_replay|]. repeat split.
Qed.

(** ** The clock gate *)

Lemma shiftl_1_neg (q : Z) : q < 0 -> Z.shiftl 1 q = 0.
Proof.
  intros H. apply Z.bits_inj'. intros k Hk.
  rewrite Z.shiftl_spec, testbit_1, Z.bits_0 by assumption.
  apply Z.eqb_neq. lia.
Qed.

Lemma land_shiftl_1 (m q : Z) :
  (Z.land m (Z.shiftl 1 q) =? 0) = negb (Z.testbit m q).
Proof.
  destruct (Z_lt_le_dec q 0) as [Hq|Hq].
  - rewrite (shiftl_1_neg q Hq), Z.land_0_r, Z.testbit_neg_r by assumption.
    reflexivity.
  - destruct (Z.testbit m q) eqn:E; cbn [negb].
    + apply Z.eqb_neq. intros H.
      apply (f_equal (fun z => Z.testbit z q)) in H.
      rewrite Z.land_spec, Z.shiftl_spec, testbit_1, E, Z.bits_0 in H by assumption.
      rewrite Z.sub_diag in H. discriminate.
    + apply Z.eqb_eq. apply Z.bits_inj'. intros k Hk.
      rewrite Z.land_spec, Z.shiftl_spec, testbit_1, Z.bits_0 by assumption.
      destruct (Z.eqb_spec (k - q) 0) as [Hkq|]; [|apply andb_false_r].
      replace k with q by lia. now rewrite E.
Qed.

Lemma testbit_uint8_BIT (q k : Z) :
  0 <= k -> Z.testbit (uint8 (uint32 (Z.shiftl 1 q))) k = (q =? k) && (k <? 8).
Proof.
  intros Hk. unfold uint8. destruct (Z.ltb_spec k 8) as [H8|H8].
  - rewrite Z.mod_pow2_bits_low by lia.
    change (uint32 (Z.shiftl 1 q)) with (BIT q).
    rewrite testbit_BIT by lia. now rewrite andb_true_r.
  - rewrite Z.mod_pow2_bits_high by lia. now rewrite andb_false_r.
Qed.

Lemma testbit_clock_mask (q m k : Z) :
  mask_inv m -> 0 <= k ->
  Z.testbit (clock_mask q m) k = Z.testbit m k || ((q =? k) && (k <? 8)).
Proof.
  intros Hm Hk. unfold clock_mask. rewrite land_shiftl_1.
  destruct (Z.testbit m q) eqn:E; cbn [negb].
  - destruct (Z.eqb_spec q k) as [->|]; [|now rewrite orb_false_r].
    rewrite E. reflexivity.
  - now rewrite Z.lor_spec, testbit_uint8_BIT.
Qed.

Lemma mask_inv_clock_mask (q m : Z) : mask_inv m -> mask_inv (clock_mask q m).
Proof.
  intros Hm k Hk.
  destruct (Z_lt_le_dec k 0) as [Hneg|Hpos].
  - rewrite Z.testbit_neg_r in Hk by assumption. discriminate.
  - rewrite testbit_clock_mask in Hk by assumption.
    apply orb_prop in Hk as [Hk|Hk]; [now apply Hm|].
    apply andb_prop in Hk as [_ Hk]. apply Z.ltb_lt in Hk. lia.
Qed.

Lemma mask_inv_0 : mask_inv 0.
Proof. intros k H. rewrite Z.bits_0 in H. discriminate. Qed.

Lemma BIT_eqb_pow2 (q p : Z) :
  0 <= p < 32 -> (BIT q =? 2 ^ p) = (q =? p).
Proof.
  intros Hp. destruct (Z.eqb_spec q p) as [->|Hne].
  - apply Z.eqb_eq. unfold BIT, uint32.
    rewrite Z.shiftl_1_l. apply Z.mod_small.
    split; [apply Z.pow_nonneg; lia | apply Z.pow_lt_mono_r; lia].
  - apply Z.eqb_neq. intros H.
    apply (f_equal (fun z => Z.testbit z p)) in H.
    rewrite testbit_BIT, Z.pow2_bits_true in H by lia.
    apply Z.eqb_eq in H. contradiction.
Qed.

Lemma filter_clock_no_access (p : Z) (tr : list Event) :
  existsb (accesses SYSCTL_RCGCGPIO_REG) tr = false ->
  filter (is_clock_enable p) tr = [].
Proof.
  induction tr as [|ev tr IH]; [reflexivity|].
  cbn [existsb filter]. intros H. apply orb_false_elim in H as [Hev Htr].
  rewrite (IH Htr).
  destruct ev as [[|B off] a| | |]; try reflexivity.
  cbn [accesses] in Hev.
  destruct (Reg_eq_dec SYSCTL_RCGCGPIO_REG SYSCTL_RCGCGPIO_REG);
    [discriminate | contradiction].
Qed.

(** An iteration of [Port_Init] is the clock-gate step followed by
    events that do not access the clock-gate register. *)
Lemma Port_Init_entry_events_split (e : Port_ConfigChannel) (m : Z) :
  exists tail,
    Port_Init_entry_events e m = clock_events (Port_Num e) m ++ tail /\
    existsb (accesses SYSCTL_RCGCGPIO_REG) tail = false.
Proof.
  unfold Port_Init_entry_events. eexists. split; [reflexivity|].
  destruct (GPIO_base (Port_Num e)) as [P|]; [|reflexivity].
  rewrite !existsb_app, accesses_unlock_events, accesses_mode_events by discriminate.
  cbn [existsb accesses orb].
  destruct (Reg_eq_dec _ SYSCTL_RCGCGPIO_REG); [discriminate|].
  rewrite orb_false_r. cbn [orb].
  unfold level_events.
  destruct (Direction e =? PORT_PIN_OUT).
  - now apply accesses_single.
  - apply accesses_resistor_events; discriminate.
Qed.

Lemma clock_enables_entry (e : Port_ConfigChannel) (m p : Z) :
  0 <= p < 32 ->
  filter (is_clock_enable p) (Port_Init_entry_events e m)
  = if negb (Z.testbit m (Port_Num e)) && (Port_Num e =? p)
    then [EvReg SYSCTL_RCGCGPIO_REG (OrMask (BIT (Port_Num e)))]
    else [].
Proof.
  intros Hp. destruct (Port_Init_entry_events_split e m) as (tail & -> & Htail).
  rewrite filter_app, (filter_clock_no_access p tail Htail), app_nil_r.
  unfold clock_events. rewrite land_shiftl_1.
  destruct (Z.testbit m (Port_Num e)); cbn [negb andb]; [reflexivity|].
  cbn [filter is_clock_enable].
  change (uint32 (Z.shiftl 1 (Port_Num e))) with (BIT (Port_Num e)).
  rewrite BIT_eqb_pow2 by assumption.
  now destruct (Port_Num e =? p).
Qed.

Lemma clock_enables_table (l : list Port_ConfigChannel) (m p : Z) :
  mask_inv m ->
  0 <= p <= 7 ->
  length (filter (is_clock_enable p) (Port_Init_table_events l m))
  = if Z.testbit m p then 0%nat else if names_port p l then 1%nat else 0%nat.
Proof.
  intros Hm Hp. revert m Hm. induction l as [|e l IH]; intros m Hm.
  - cbn. now destruct (Z.testbit m p).
  - cbn [Port_Init_table_events names_port existsb].
    rewrite filter_app, length_app, clock_enables_entry by lia.
    rewrite (IH _ (mask_inv_clock_mask (Port_Num e) m Hm)).
    rewrite testbit_clock_mask by (assumption || lia).
    fold (names_port p l).
    destruct (Z.ltb_spec p 8); [|lia]. rewrite andb_true_r.
    destruct (Z.eqb_spec (Port_Num e) p) as [->|Hne].
    + destruct (Z.testbit m p); cbn; reflexivity.
    + rewrite andb_false_r, orb_false_r. cbn [length orb Nat.add]. reflexivity.
Qed.

Lemma clock_bit_entry (e : Port_ConfigChannel) (m p : Z) (s : State) :
  0 <= p < 32 ->
  (Z.testbit m (Port_Num e) = true ->
   Z.testbit (regs s SYSCTL_RCGCGPIO_REG) (Port_Num e) = true) ->
  Z.testbit (regs (replay (Port_Init_entry_events e m) s) SYSCTL_RCGCGPIO_REG) p
  = Z.testbit (regs s SYSCTL_RCGCGPIO_REG) p || (Port_Num e =? p).
Proof.
  intros Hp Hinv. destruct (Port_Init_entry_events_split e m) as (tail & -> & Htail).
  rewrite replay_app, (regs_replay_frame _ tail _ Htail).
  unfold clock_events. rewrite land_shiftl_1.
  destruct (Z.testbit m (Port_Num e)) eqn:E; cbn [negb].
  - rewrite replay_nil.
    destruct (Z.eqb_spec (Port_Num e) p) as [<-|]; [|now rewrite orb_false_r].
    rewrite (Hinv eq_refl). reflexivity.
  - rewrite replay_cons, replay_nil. cbn [apply_event regs]. unfold upd.
    destruct (Reg_eq_dec SYSCTL_RCGCGPIO_REG SYSCTL_RCGCGPIO_REG); [|contradiction].
    cbn [apply_access]. rewrite Z.lor_spec.
    change (uint32 (Z.shiftl 1 (Port_Num e))) with (BIT (Port_Num e)).
    now rewrite testbit_BIT.
Qed.

Lemma clock_bit_table (l : list Port_ConfigChannel) (m p : Z) (s : State) :
  mask_inv m ->
  (forall k, Z.testbit m k = true -> Z.testbit (regs s SYSCTL_RCGCGPIO_REG) k = true) ->
  0 <= p < 32 ->
  Z.testbit (regs (replay (Port_Init_table_events l m) s) SYSCTL_RCGCGPIO_REG) p
  = Z.testbit (regs s SYSCTL_RCGCGPIO_REG) p || names_port p l.
Proof.
  intros Hm Hr Hp. revert m s Hm Hr. induction l as [|e l IH]; intros m s Hm Hr.
  - cbn. now rewrite orb_false_r.
  - cbn [Port_Init_table_events names_port existsb]. fold (names_port p l).
    rewrite replay_app, IH.
    + rewrite clock_bit_entry by (assumption || apply Hr). now rewrite orb_assoc.
    + now apply mask_inv_clock_mask.
    + intros k Hk.
      pose proof (mask_inv_clock_mask (Port_Num e) m Hm k Hk) as Hk8.
      rewrite clock_bit_entry by (lia || apply Hr).
      rewrite testbit_clock_mask in Hk by (assumption || lia).
      apply orb_prop in Hk as [Hk|Hk].
      * now rewrite (Hr k Hk).
      * apply andb_prop in Hk as [Hk _]. rewrite Hk. apply orb_true_r.
Qed.

(** X7. In one pass of [Port_Init] the clock of a port is enabled once:
    for a port number p in 0..7 the access that sets bit p of the
    clock-gate register is made exactly once when some entry names p,
    however many entries do, and never otherwise.  After the pass, bit p
    of the clock-gate register (p in 0..31) is set if an entry names
    port p and is unchanged if none does. *)
Theorem X7_clock_enabled_once (cfg : Port_ConfigType) (s : State) :
  wf_config cfg ->
  exists s',
    Port_Init (Some cfg) s = Some (tt, s') /\
    (forall p, 0 <= p <= 7 ->
       length (filter (is_clock_enable p) (events_since s s'))
       = if names_port p (Pins cfg) then 1%nat else 0%nat) /\
    (forall p, 0 <= p < 32 ->
       Z.testbit (regs s' SYSCTL_RCGCGPIO_REG) p
       = Z.testbit (regs s SYSCTL_RCGCGPIO_REG) p || names_port p (Pins cfg)).
Proof.
  intros Hwf. eexists. split; [now apply Port_Init_replay|].
  rewrite events_since_replay. split.
  - intros p Hp. cbn [filter is_clock_enable].
    rewrite filter_app, length_app. cbn [filter is_clock_enable length].
    rewrite Nat.add_0_r, (clock_enables_table _ 0 p mask_inv_0 Hp), Z.bits_0.
    reflexivity.
  - intros p Hp. rewrite !replay_cons, replay_app, replay_cons, replay_nil.
    cbn [apply_event regs].
    rewrite clock_bit_table; [reflexivity | apply mask_inv_0 | | assumption].
    intros k Hk. rewrite Z.bits_0 in Hk. discriminate.
Qed.

Lemma X7_clock_enabled_once_witness :
  exists s',
    Port_Init (Some Port_Configuration) (reset_state hw_zero) = Some (tt, s') /\
    length (filter (is_clock_enable 5)
                   (events_since (reset_state hw_zero) s')) = 1%nat /\
    Z.testbit (regs s' SYSCTL_RCGCGPIO_REG) 5 = true /\
    Z.testbit (regs s' SYSCTL_RCGCGPIO_REG) 4 = false.
Proof.
  destruct (X7_clock_enabled_once Port_Configuration (reset_state hw_zero) eq_refl)
    as (s' & Hrun & Hcount & Hbit).
  exists s'. split; [exact Hrun|]. split; [|split].
  - rewrite (Hcount 5) by lia. reflexivity.
  - rewrite (Hbit 5) by lia. reflexivity.
  - rewrite (Hbit 4) by lia. reflexivity.
Defined.

(** ** Bits programmed by an iteration of [Port_Init] *)

Lemma bit_effect_clock_events (p m : Z) (r : Reg) (k : Z) :
  r <> SYSCTL_RCGCGPIO_REG -> bit_effect (clock_events p m) r k = None.
Proof. intros H. now apply bit_effect_no_access, accesses_clock_events. Qed.

Lemma bit_effect_unlock_events (P : GpioBase) (p c : Z) (r : Reg) (k : Z) :
  r <> GpioReg P PORT_LOCK_REG_OFFSET ->
  r <> GpioReg P PORT_COMMIT_REG_OFFSET ->
  bit_effect (unlock_events P p c) r k = None.
Proof. intros H1 H2. now apply bit_effect_no_access, accesses_unlock_events. Qed.

Lemma bit_effect_mode_events (sid : Z) (P : GpioBase) (c m : Z) (r : Reg) (k : Z) :
  r <> GpioReg P PORT_ANALOG_MODE_SEL_REG_OFFSET ->
  r <> GpioReg P PORT_ALT_FUNC_REG_OFFSET ->
  r <> GpioReg P PORT_CTL_REG_OFFSET ->
  r <> GpioReg P PORT_DIGITAL_ENABLE_REG_OFFSET ->
  bit_effect (mode_events sid P c m) r k = None.
Proof. intros. now apply bit_effect_no_access, accesses_mode_events. Qed.

Lemma bit_effect_resistor_events_other (P : GpioBase) (c x : Z) (r : Reg) (k : Z) :
  r <> GpioReg P PORT_PULL_UP_REG_OFFSET ->
  r <> GpioReg P PORT_PULL_DOWN_REG_OFFSET ->
  bit_effect (resistor_events P c x) r k = None.
Proof. intros. now apply bit_effect_no_access, accesses_resistor_events. Qed.

Ltac reg_cases :=
  repeat match goal with
         | |- context [Reg_eq_dec ?a ?b] =>
             destruct (Reg_eq_dec a b); [try discriminate; try congruence|]
         end.

Lemma bit_effect_Port_Init_entry_DIR (e : Port_ConfigChannel) (m : Z)
      (P : GpioBase) (k : Z) :
  GPIO_base (Port_Num e) = Some P ->
  0 <= k < 32 ->
  bit_effect (Port_Init_entry_events e m) (GpioReg P PORT_DIR_REG_OFFSET) k
  = if Ch_Num e =? k then Some (Direction e =? PORT_PIN_OUT) else None.
Proof.
  intros HP Hk. unfold Port_Init_entry_events. rewrite HP.
  rewrite !bit_effect_app, bit_effect_mode_events by discriminate.
  cbn [bit_effect].
  replace (bit_effect (if Direction e =? PORT_PIN_OUT
                       then level_events P (Ch_Num e) (InitialValue e)
                       else resistor_events P (Ch_Num e) (Resistor e))
                      (GpioReg P PORT_DIR_REG_OFFSET) k)
    with (@None bool).
  2:{ destruct (Direction e =? PORT_PIN_OUT).
      - symmetry. apply bit_effect_no_access, accesses_single. discriminate.
      - symmetry. apply bit_effect_resistor_events_other; discriminate. }
  destruct (Reg_eq_dec (GpioReg P PORT_DIR_REG_OFFSET) (GpioReg P PORT_DIR_REG_OFFSET));
    [|contradiction].
  rewrite access_bit_direction_access by assumption.
  destruct (Ch_Num e =? k); [reflexivity|].
  rewrite bit_effect_unlock_events, bit_effect_clock_events by discriminate.
  reflexivity.
Qed.

Lemma bit_effect_Port_Init_entry_DATA (e : Port_ConfigChannel) (m : Z)
      (P : GpioBase) (k : Z) :
  GPIO_base (Port_Num e) = Some P ->
  0 <= k < 32 ->
  bit_effect (Port_Init_entry_events e m) (GpioReg P PORT_DATA_REG_OFFSET) k
  = if (Direction e =? PORT_PIN_OUT) && (Ch_Num e =? k)
    then Some (InitialValue e =? STD_HIGH) else None.
Proof.
  intros HP Hk. unfold Port_Init_entry_events. rewrite HP.
  rewrite !bit_effect_app, bit_effect_mode_events by discriminate.
  cbn [bit_effect].
  destruct (Reg_eq_dec (GpioReg P PORT_DIR_REG_OFFSET) (GpioReg P PORT_DATA_REG_OFFSET));
    [discriminate|].
  rewrite bit_effect_unlock_events, bit_effect_clock_events by discriminate.
  destruct (Direction e =? PORT_PIN_OUT); cbn [andb].
  - unfold level_events. rewrite bit_effect_single.
    destruct (Reg_eq_dec _ _); [|contradiction].
    destruct (InitialValue e =? STD_HIGH);
      [rewrite access_bit_set_bit | rewrite access_bit_clear_bit]; try assumption;
      now destruct (Ch_Num e =? k).
  - rewrite bit_effect_resistor_events_other by discriminate. reflexivity.
Qed.

(** The pull bit that an input entry forces, in the pull-up register
    ([up = true]) or the pull-down register. *)
Lemma bit_effect_resistor_events (P : GpioBase) (c x k : Z) (up : bool) :
  0 <= k < 32 ->
  bit_effect (resistor_events P c x)
             (GpioReg P (if up then PORT_PULL_UP_REG_OFFSET
                         else PORT_PULL_DOWN_REG_OFFSET)) k
  = if ((x =? PULL_UP) || (x =? PULL_DOWN)) && (c =? k)
    then Some (if up then x =? PULL_UP else negb (x =? PULL_UP))
    else None.
Proof.
  intros Hk. unfold resistor_events.
  destruct (x =? PULL_UP); cbn [orb andb negb].
  - destruct up; cbn [bit_effect]; reg_cases;
      rewrite ?access_bit_set_bit, ?access_bit_clear_bit by assumption;
      now destruct (c =? k).
  - destruct (x =? PULL_DOWN); cbn [andb]; [|reflexivity].
    destruct up; cbn [bit_effect]; reg_cases;
      rewrite ?access_bit_set_bit, ?access_bit_clear_bit by assumption;
      now destruct (c =? k).
Qed.

Lemma bit_effect_Port_Init_entry_pull (e : Port_ConfigChannel) (m : Z)
      (P : GpioBase) (k : Z) (up : bool) :
  GPIO_base (Port_Num e) = Some P ->
  0 <= k < 32 ->
  bit_effect (Port_Init_entry_events e m)
             (GpioReg P (if up then PORT_PULL_UP_REG_OFFSET
                         else PORT_PULL_DOWN_REG_OFFSET)) k
  = if negb (Direction e =? PORT_PIN_OUT) &&
       (((Resistor e =? PULL_UP) || (Resistor e =? PULL_DOWN)) && (Ch_Num e =? k))
    then Some (if up then Resistor e =? PULL_UP else negb (Resistor e =? PULL_UP))
    else None.
Proof.
  intros HP Hk. unfold Port_Init_entry_events. rewrite HP.
  rewrite !bit_effect_app, bit_effect_mode_events by (destruct up; discriminate).
  cbn [bit_effect].
  destruct (Reg_eq_dec (GpioReg P PORT_DIR_REG_OFFSET)
              (GpioReg P (if up then PORT_PULL_UP_REG_OFFSET
                          else PORT_PULL_DOWN_REG_OFFSET)));
    [destruct up; discriminate|].
  rewrite bit_effect_unlock_events, bit_effect_clock_events
    by (destruct up; discriminate).
  destruct (Direction e =? PORT_PIN_OUT); cbn [negb andb].
  - rewrite bit_effect_no_access; [reflexivity|].
    apply accesses_single. destruct up; discriminate.
  - rewrite bit_effect_resistor_events by assumption.
    now destruct (((Resistor e =? PULL_UP) || (Resistor e =? PULL_DOWN))
                  && (Ch_Num e =? k)).
Qed.

(** X8. An entry of [Port_Init] on a known port with direction OUT gets
    its direction bit set and its data bit driven to the initial level:
    1 when [InitialValue] is [STD_HIGH], 0 for any other value.  The
    other bits of the direction and data registers keep their values
    and the pull registers are not accessed. *)
Theorem X8_Init_output_entry (e : Port_ConfigChannel) (m : Z) (s : State)
        (P : GpioBase) :
  GPIO_base (Port_Num e) = Some P ->
  Direction e = PORT_PIN_OUT ->
  0 <= Ch_Num e < 32 ->
  exists m' s',
    Port_Init_entry e m s = Some (m', s') /\
    Z.testbit (regs s' (GpioReg P PORT_DIR_REG_OFFSET)) (Ch_Num e) = true /\
    Z.testbit (regs s' (GpioReg P PORT_DATA_REG_OFFSET)) (Ch_Num e)
    = (InitialValue e =? STD_HIGH) /\
    (forall k, 0 <= k < 32 -> k <> Ch_Num e ->
       Z.testbit (regs s' (GpioReg P PORT_DIR_REG_OFFSET)) k
       = Z.testbit (regs s (GpioReg P PORT_DIR_REG_OFFSET)) k /\
       Z.testbit (regs s' (GpioReg P PORT_DATA_REG_OFFSET)) k
       = Z.testbit (regs s (GpioReg P PORT_DATA_REG_OFFSET)) k) /\
    (forall k, 0 <= k < 32 ->
       Z.testbit (regs s' (GpioReg P PORT_PULL_UP_REG_OFFSET)) k
       = Z.testbit (regs s (GpioReg P PORT_PULL_UP_REG_OFFSET)) k /\
       Z.testbit (regs s' (GpioReg P PORT_PULL_DOWN_REG_OFFSET)) k
       = Z.testbit (regs s (GpioReg P PORT_PULL_DOWN_REG_OFFSET)) k).
Proof.
  intros HP Hd Hc. eexists _, _. split; [apply Port_Init_entry_replay|].
  split; [|split; [|split]].
  - rewrite bit_replay, (bit_effect_Port_Init_entry_DIR e m P _ HP Hc).
    now rewrite Z.eqb_refl, Hd.
  - rewrite bit_replay, (bit_effect_Port_Init_entry_DATA e m P _ HP Hc).
    now rewrite Z.eqb_refl, Hd.
  - intros k Hk Hne.
    rewrite !bit_replay, (bit_effect_Port_Init_entry_DIR e m P _ HP Hk),
      (bit_effect_Port_Init_entry_DATA e m P _ HP Hk).
    destruct (Z.eqb_spec (Ch_Num e) k); [congruence|].
    rewrite andb_false_r. split; reflexivity.
  - intros k Hk.
    rewrite !bit_replay, (bit_effect_Port_Init_entry_pull e m P k true HP Hk),
      (bit_effect_Port_Init_entry_pull e m P k false HP Hk), Hd.
    split; reflexivity.
Qed.

Lemma X8_Init_output_entry_witness :
  exists m' s',
    Port_Init_entry
      (mkChannel 5 1 PIN_MODE_DIO PORT_PIN_OUT 7 TRUE TRUE RESISTOR_OFF) 0
      (reset_state hw_tampered) = Some (m', s') /\
    Z.testbit (regs s' (GpioReg GPIO_PORTF_BASE_ADDRESS PORT_DIR_REG_OFFSET)) 1 = true /\
    Z.testbit (regs s' (GpioReg GPIO_PORTF_BASE_ADDRESS PORT_DATA_REG_OFFSET)) 1 = false.
Proof.
  destruct (X8_Init_output_entry
              (mkChannel 5 1 PIN_MODE_DIO PORT_PIN_OUT 7 TRUE TRUE RESISTOR_OFF) 0
              (reset_state hw_tampered) GPIO_PORTF_BASE_ADDRESS eq_refl eq_refl)
    as (m' & s' & Hrun & Hdir & Hdata & _); [cbn; lia|].
  exists m', s'. split; [exact Hrun|]. split; [exact Hdir | exact Hdata].
Defined.

(** X9. An entry of [Port_Init] on a known port whose direction is not
    OUT programs the pull resistor of its channel: with [PULL_UP] the
    pull-up bit ends set and the pull-down bit cleared, with
    [PULL_DOWN] the reverse, and with any other resistor value both
    bits keep their values.  The pull bits of the other channels and
    the data register are unchanged. *)
Theorem X9_Init_input_pull_resistor (e : Port_ConfigChannel) (m : Z) (s : State)
        (P : GpioBase) :
  GPIO_base (Port_Num e) = Some P ->
  Direction e <> PORT_PIN_OUT ->
  0 <= Ch_Num e < 32 ->
  exists m' s',
    Port_Init_entry e m s = Some (m', s') /\
    (Resistor e = PULL_UP ->
     Z.testbit (regs s' (GpioReg P PORT_PULL_UP_REG_OFFSET)) (Ch_Num e) = true /\
     Z.testbit (regs s' (GpioReg P PORT_PULL_DOWN_REG_OFFSET)) (Ch_Num e) = false) /\
    (Resistor e = PULL_DOWN ->
     Z.testbit (regs s' (GpioReg P PORT_PULL_UP_REG_OFFSET)) (Ch_Num e) = false /\
     Z.testbit (regs s' (GpioReg P PORT_PULL_DOWN_REG_OFFSET)) (Ch_Num e) = true) /\
    (Resistor e <> PULL_UP -> Resistor e <> PULL_DOWN ->
     regs s' (GpioReg P PORT_PULL_UP_REG_OFFSET)
     = regs s (GpioReg P PORT_PULL_UP_REG_OFFSET) /\
     regs s' (GpioReg P PORT_PULL_DOWN_REG_OFFSET)
     = regs s (GpioReg P PORT_PULL_DOWN_REG_OFFSET)) /\
    (forall k, 0 <= k < 32 -> k <> Ch_Num e ->
       Z.testbit (regs s' (GpioReg P PORT_PULL_UP_REG_OFFSET)) k
       = Z.testbit (regs s (GpioReg P PORT_PULL_UP_REG_OFFSET)) k /\
       Z.testbit (regs s' (GpioReg P PORT_PULL_DOWN_REG_OFFSET)) k
       = Z.testbit (regs s (GpioReg P PORT_PULL_DOWN_REG_OFFSET)) k) /\
    regs s' (GpioReg P PORT_DATA_REG_OFFSET) = regs s (GpioReg P PORT_DATA_REG_OFFSET).
Proof.
  intros HP Hd Hc. eexists _, _. split; [apply Port_Init_entry_replay|].
  pose proof (bit_effect_Port_Init_entry_pull e m P (Ch_Num e) true HP Hc) as Hu.
  pose proof (bit_effect_Port_Init_entry_pull e m P (Ch_Num e) false HP Hc) as Hw.
  cbv iota in Hu, Hw.
  destruct (Z.eqb_spec (Direction e) PORT_PIN_OUT); [contradiction|].
  rewrite Z.eqb_refl in Hu, Hw. cbn [negb andb] in Hu, Hw.
  split; [|split; [|split; [|split]]].
  - intros Hr. rewrite !bit_replay, Hu, Hw, Hr. split; reflexivity.
  - intros Hr. rewrite !bit_replay, Hu, Hw, Hr. split; reflexivity.
  - intros H1 H2.
    rewrite (Port_Init_entry_events_input e m P HP n).
    unfold resistor_events.
    destruct (Z.eqb_spec (Resistor e) PULL_UP); [contradiction|].
    destruct (Z.eqb_spec (Resistor e) PULL_DOWN); [contradiction|].
    split; apply regs_replay_frame;
      rewrite !existsb_app, accesses_clock_events, accesses_unlock_events,
        accesses_single, accesses_mode_events by discriminate; reflexivity.
  - intros k Hk Hne.
    rewrite !bit_replay, (bit_effect_Port_Init_entry_pull e m P k true HP Hk),
      (bit_effect_Port_Init_entry_pull e m P k false HP Hk).
    destruct (Z.eqb_spec (Ch_Num e) k); [congruence|].
    rewrite !andb_false_r. split; reflexivity.
  - apply regs_replay_frame. now apply (no_data_access_input e m P).
Qed.

Lemma X9_Init_input_pull_resistor_witness :
  exists m' s',
    Port_Init_entry
      (mkChannel 5 4 PIN_MODE_DIO PORT_PIN_IN STD_LOW FALSE TRUE PULL_UP) 0
      (reset_state hw_tampered) = Some (m', s') /\
    Z.testbit (regs s' (GpioReg GPIO_PORTF_BASE_ADDRESS PORT_PULL_UP_REG_OFFSET)) 4 = true /\
    Z.testbit (regs s' (GpioReg GPIO_PORTF_BASE_ADDRESS PORT_PULL_DOWN_REG_OFFSET)) 4
    = false.
Proof.
  destruct (X9_Init_input_pull_resistor
              (mkChannel 5 4 PIN_MODE_DIO PORT_PIN_IN STD_LOW FALSE TRUE PULL_UP) 0
              (reset_state hw_tampered) GPIO_PORTF_BASE_ADDRESS eq_refl)
    as (m' & s' & Hrun & Hup & _); [discriminate | cbn; lia |].
  exists m', s'. split; [exact Hrun|]. exact (Hup eq_refl).
Defined.

(** X16. The pull resistor is programmed set-first: for an input entry
    with [PULL_UP] whose channel still has its pull-down bit set, the
    iteration of [Port_Init] passes through a state in which the pull-up
    bit and the pull-down bit of the channel are both set, before the
    pull-down bit is cleared; and the same with the roles exchanged for
    [PULL_DOWN]. *)
Theorem X16_pull_resistor_window (e : Port_ConfigChannel) (m : Z) (s : State)
        (P : GpioBase) :
  GPIO_base (Port_Num e) = Some P ->
  Direction e <> PORT_PIN_OUT ->
  0 <= Ch_Num e < 32 ->
  (Resistor e = PULL_UP /\
   Z.testbit (regs s (GpioReg P PORT_PULL_DOWN_REG_OFFSET)) (Ch_Num e) = true) \/
  (Resistor e = PULL_DOWN /\
   Z.testbit (regs s (GpioReg P PORT_PULL_UP_REG_OFFSET)) (Ch_Num e) = true) ->
  exists m' s' before after,
    Port_Init_entry e m s = Some (m', s') /\
    events_since s s' = before ++ after /\
    s' = replay after (replay before s) /\
    Z.testbit (regs (replay before s) (GpioReg P PORT_PULL_UP_REG_OFFSET)) (Ch_Num e)
    = true /\
    Z.testbit (regs (replay before s) (GpioReg P PORT_PULL_DOWN_REG_OFFSET)) (Ch_Num e)
    = true.
Proof.
  intros HP Hd Hc Hcase.
  set (pre := clock_events (Port_Num e) m ++ unlock_events P (Port_Num e) (Ch_Num e) ++
              [EvReg (GpioReg P PORT_DIR_REG_OFFSET) (clear_bit (Ch_Num e))]).
  assert (Hpre : forall off, off = PORT_PULL_UP_REG_OFFSET \/ off = PORT_PULL_DOWN_REG_OFFSET ->
                 regs (replay pre s) (GpioReg P off) = regs s (GpioReg P off)).
  { intros off Hoff. apply regs_replay_frame. unfold pre.
    rewrite !existsb_app, accesses_clock_events, accesses_unlock_events, accesses_single
      by (destruct Hoff; subst; discriminate).
    reflexivity. }
  destruct Hcase as [[Hr Hbit]|[Hr Hbit]].
  - exists (clock_mask (Port_Num e) m), (replay (Port_Init_entry_events e m) s),
      (pre ++ [EvReg (GpioReg P PORT_PULL_UP_REG_OFFSET) (set_bit (Ch_Num e))]),
      (EvReg (GpioReg P PORT_PULL_DOWN_REG_OFFSET) (clear_bit (Ch_Num e))
       :: mode_events PORT_INIT_SID P (Ch_Num e) (Mode e)).
    assert (Hev : Port_Init_entry_events e m
                  = (pre ++ [EvReg (GpioReg P PORT_PULL_UP_REG_OFFSET)
                               (set_bit (Ch_Num e))]) ++
                    EvReg (GpioReg P PORT_PULL_DOWN_REG_OFFSET) (clear_bit (Ch_Num e))
                    :: mode_events PORT_INIT_SID P (Ch_Num e) (Mode e)).
    { rewrite (Port_Init_entry_events_input e m P HP Hd). unfold pre, resistor_events.
      rewrite Hr. cbn [Z.eqb Pos.eqb PULL_UP]. now rewrite <- !app_assoc. }
    split; [apply Port_Init_entry_replay|].
    split; [rewrite events_since_replay; exact Hev|].
    split; [rewrite Hev; apply replay_app|].
    split.
    + rewrite regs_replay_last. now apply testbit_set_bit.
    + rewrite replay_app, replay_cons, replay_nil.
      rewrite regs_apply_event_frame
        by (cbn [accesses]; destruct (Reg_eq_dec _ _); [discriminate | reflexivity]).
      rewrite Hpre by now right. exact Hbit.
  - exists (clock_mask (Port_Num e) m), (replay (Port_Init_entry_events e m) s),
      (pre ++ [EvReg (GpioReg P PORT_PULL_DOWN_REG_OFFSET) (set_bit (Ch_Num e))]),
      (EvReg (GpioReg P PORT_PULL_UP_REG_OFFSET) (clear_bit (Ch_Num e))
       :: mode_events PORT_INIT_SID P (Ch_Num e) (Mode e)).
    assert (Hev : Port_Init_entry_events e m
                  = (pre ++ [EvReg (GpioReg P PORT_PULL_DOWN_REG_OFFSET)
                               (set_bit (Ch_Num e))]) ++
                    EvReg (GpioReg P PORT_PULL_UP_REG_OFFSET) (clear_bit (Ch_Num e))
                    :: mode_events PORT_INIT_SID P (Ch_Num e) (Mode e)).
    { rewrite (Port_Init_entry_events_input e m P HP Hd). unfold pre, resistor_events.
      rewrite Hr. cbn [Z.eqb Pos.eqb PULL_UP PULL_DOWN]. now rewrite <- !app_assoc. }
    split; [apply Port_Init_entry_replay|].
    split; [rewrite events_since_replay; exact Hev|].
    split; [rewrite Hev; apply replay_app|].
    split.
    + rewrite replay_app, replay_cons, replay_nil.
      rewrite regs_apply_event_frame
        by (cbn [accesses]; destruct (Reg_eq_dec _ _); [discriminate | reflexivity]).
      rewrite Hpre by now left. exact Hbit.
    + rewrite regs_replay_last. now apply testbit_set_bit.
Qed.

Lemma X16_pull_resistor_window_witness :
  exists m' s' before after,
    Port_Init_entry
      (mkChannel 5 4 PIN_MODE_DIO PORT_PIN_IN STD_LOW FALSE TRUE PULL_UP) 0
      (reset_state hw_tampered) = Some (m', s') /\
    events_since (reset_state hw_tampered) s' = before ++ after /\
    s' = replay after (replay before (reset_state hw_tampered)) /\
    Z.testbit (regs (replay before (reset_state hw_tampered))
                    (GpioReg GPIO_PORTF_BASE_ADDRESS PORT_PULL_UP_REG_OFFSET)) 4 = true /\
    Z.testbit (regs (replay before (reset_state hw_tampered))
                    (GpioReg GPIO_PORTF_BASE_ADDRESS PORT_PULL_DOWN_REG_OFFSET)) 4 = true.
Proof.
  apply (X16_pull_resistor_window
           (mkChannel 5 4 PIN_MODE_DIO PORT_PIN_IN STD_LOW FALSE TRUE PULL_UP) 0
           (reset_state hw_tampered) GPIO_PORTF_BASE_ADDRESS eq_refl).
  - discriminate.
  - cbn. lia.
  - left. split; reflexivity.
Defined.

(** ** Function registers *)

Lemma testbit_15 (j : Z) : Z.testbit 15 j = (0 <=? j) && (j <? 4).
Proof.
  destruct (Z_lt_le_dec j 0) as [Hn|Hp].
  - rewrite Z.testbit_neg_r by assumption.
    destruct (Z.leb_spec 0 j); [lia | reflexivity].
  - destruct (Z_lt_le_dec j 4) as [H4|H4].
    + assert (Hc : j = 0 \/ j = 1 \/ j = 2 \/ j = 3) by lia.
      destruct Hc as [->|[->|[->| ->]]]; reflexivity.
    + change 15 with (15 mod 2 ^ 4). rewrite Z.mod_pow2_bits_high by lia.
      destruct (Z.ltb_spec j 4); [lia|]. now rewrite andb_false_r.
Qed.

Lemma access_bit_nibble (c k : Z) :
  0 <= k < 32 ->
  access_bit (AndMask (NOT32 (uint32 (Z.shiftl 15 (c * 4))))) k
  = if (c * 4 <=? k) && (k <? c * 4 + 4) then Some false else None.
Proof.
  intros Hk. cbn [access_bit]. rewrite testbit_NOT32 by assumption.
  unfold uint32. rewrite Z.mod_pow2_bits_low, Z.shiftl_spec, testbit_15 by lia.
  destruct (Z.leb_spec 0 (k - c * 4)), (Z.ltb_spec (k - c * 4) 4),
    (Z.leb_spec (c * 4) k), (Z.ltb_spec k (c * 4 + 4)); try lia; reflexivity.
Qed.

Lemma bit_effect_dio_events (P : GpioBase) (c k : Z) (off : RegOffset) :
  0 <= k < 32 ->
  bit_effect (dio_events P c) (GpioReg P off) k
  = match off with
    | PORT_ANALOG_MODE_SEL_REG_OFFSET
    | PORT_ALT_FUNC_REG_OFFSET => if c =? k then Some false else None
    | PORT_DIGITAL_ENABLE_REG_OFFSET => if c =? k then Some true else None
    | PORT_CTL_REG_OFFSET =>
        if (c * 4 <=? k) && (k <? c * 4 + 4) then Some false else None
    | _ => None
    end.
Proof.
  intros Hk. unfold dio_events. cbn [bit_effect].
  destruct off; reg_cases;
    rewrite ?access_bit_set_bit, ?access_bit_clear_bit, ?access_bit_nibble
      by assumption;
    try reflexivity;
    try (now destruct (c =? k));
    now destruct ((c * 4 <=? k) && (k <? c * 4 + 4)).
Qed.

(** X10. A call of [Port_SetPinMode] with [PIN_MODE_DIO] that passes
    the checks, for an entry whose channel is in 0..7, makes the pin a
    digital pin: the analog-select and
    alternate-function bits of the channel are cleared, the four bits
    of the channel in the port-control register (bits 4c..4c+3) are
    cleared, and the digital-enable bit of the channel is set; all other
    bits of these four registers keep their values.  No other register
    changes apart from the lock and commit registers of the port, so
    the direction, the output level and the pull resistors are kept. *)
Theorem X10_SetPinMode_DIO_effect (s : State) (cfg : Port_ConfigType)
        (Pin : Z) (e : Port_ConfigChannel) (P : GpioBase) :
  Port_Status s <> PORT_NOT_INITIALIZED ->
  Port_ConfigPtr s = Some cfg ->
  Pin < PORT_CONFIGURED_CHANNELS ->
  nth_error (Pins cfg) (Z.to_nat Pin) = Some e ->
  Mode_Changeable e <> FALSE ->
  GPIO_base (Port_Num e) = Some P ->
  0 <= Ch_Num e <= 7 ->
  exists s',
    Port_SetPinMode Pin PIN_MODE_DIO s = Some (tt, s') /\
    (forall k, 0 <= k < 32 ->
       Z.testbit (regs s' (GpioReg P PORT_ANALOG_MODE_SEL_REG_OFFSET)) k
       = (if Ch_Num e =? k then false
          else Z.testbit (regs s (GpioReg P PORT_ANALOG_MODE_SEL_REG_OFFSET)) k) /\
       Z.testbit (regs s' (GpioReg P PORT_ALT_FUNC_REG_OFFSET)) k
       = (if Ch_Num e =? k then false
          else Z.testbit (regs s (GpioReg P PORT_ALT_FUNC_REG_OFFSET)) k) /\
       Z.testbit (regs s' (GpioReg P PORT_DIGITAL_ENABLE_REG_OFFSET)) k
       = (if Ch_Num e =? k then true
          else Z.testbit (regs s (GpioReg P PORT_DIGITAL_ENABLE_REG_OFFSET)) k) /\
       Z.testbit (regs s' (GpioReg P PORT_CTL_REG_OFFSET)) k
       = (if (Ch_Num e * 4 <=? k) && (k <? Ch_Num e * 4 + 4) then false
          else Z.testbit (regs s (GpioReg P PORT_CTL_REG_OFFSET)) k)) /\
    (forall r, mode_path r = false -> regs s' r = regs s r) /\
    (forall B off, B <> P -> regs s' (GpioReg B off) = regs s (GpioReg B off)).
Proof.
  intros Hst Hp Hpin Hn Hm HP Hch.
  eexists. split.
  { apply (Port_SetPinMode_entry Pin PIN_MODE_DIO s e Hst Hpin).
    now apply (Pins_at_nth s cfg). }
  unfold Port_SetPinMode_entry_events.
  destruct (Z.eqb_spec (Mode_Changeable e) FALSE); [contradiction|].
  rewrite HP. unfold mode_events. cbn [Z.eqb PIN_MODE_DIO].
  split; [|split].
  - intros k Hk.
    rewrite !bit_replay, !bit_effect_app, !bit_effect_dio_events by assumption.
    rewrite !bit_effect_unlock_events by discriminate.
    repeat split.
    + now destruct (Ch_Num e =? k).
    + now destruct (Ch_Num e =? k).
    + now destruct (Ch_Num e =? k).
    + now destruct ((Ch_Num e * 4 <=? k) && (k <? Ch_Num e * 4 + 4)).
  - intros r Hr. apply regs_replay_frame.
    rewrite existsb_app, accesses_unlock_events.
    + unfold dio_events. cbn [existsb accesses orb].
      reg_cases; try reflexivity; subst r; discriminate.
    + intros ->. discriminate.
    + intros ->. discriminate.
  - intros B off HB. apply regs_replay_frame.
    rewrite existsb_app, accesses_unlock_events by congruence.
    unfold dio_events. cbn [existsb accesses orb].
    reg_cases; reflexivity.
Qed.

Lemma X10_SetPinMode_DIO_effect_witness :
  exists s',
    Port_SetPinMode 0 PIN_MODE_DIO (initialized_state Port_Configuration hw_tampered)
    = Some (tt, s') /\
    Z.testbit (regs s' (GpioReg GPIO_PORTF_BASE_ADDRESS PORT_ALT_FUNC_REG_OFFSET)) 1
    = false /\
    Z.testbit (regs s' (GpioReg GPIO_PORTF_BASE_ADDRESS PORT_CTL_REG_OFFSET)) 5 = false /\
    Z.testbit (regs s' (GpioReg GPIO_PORTF_BASE_ADDRESS PORT_CTL_REG_OFFSET)) 3 = true /\
    regs s' (GpioReg GPIO_PORTF_BASE_ADDRESS PORT_DIR_REG_OFFSET) = 0xFF.
Proof.
  destruct (X10_SetPinMode_DIO_effect
              (initialized_state Port_Configuration hw_tampered) Port_Configuration 0
              (mkChannel 5 1 PIN_MODE_DIO PORT_PIN_OUT STD_HIGH TRUE TRUE RESISTOR_OFF)
              GPIO_PORTF_BASE_ADDRESS)
    as (s' & Hrun & Hbits & Hframe & _);
    [discriminate | reflexivity | reflexivity | reflexivity | discriminate
    | reflexivity | cbn; lia |].
  exists s'. split; [exact Hrun|].
  destruct (Hbits 1 ltac:(lia)) as (_ & Haf & _ & _).
  destruct (Hbits 5 ltac:(lia)) as (_ & _ & _ & Hc5).
  destruct (Hbits 3 ltac:(lia)) as (_ & _ & _ & Hc3).
  split; [exact Haf|]. split; [exact Hc5|]. split; [exact Hc3|].
  now apply Hframe.
Defined.

(** ** An entry with an unsupported mode *)

(** X11. When an entry of the table names a known port but a mode other
    than [PIN_MODE_DIO], [Port_Init] reports
    [PORT_E_PARAM_INVALID_MODE] for it only after its direction has been
    programmed: the direction bit of the pin has its configured value,
    the report is the last event of the entry, none of the four function
    registers is accessed, and the pass goes on and ends with the driver
    INITIALIZED. *)
Theorem X11_Init_unsupported_mode (cfg : Port_ConfigType) (s : State)
        (pre : list Port_ConfigChannel) (e : Port_ConfigChannel)
        (post : list Port_ConfigChannel) (P : GpioBase) :
  wf_config cfg ->
  Pins cfg = pre ++ e :: post ->
  GPIO_base (Port_Num e) = Some P ->
  Mode e <> PIN_MODE_DIO ->
  exists m1 s1 s2 s' before,
    Port_Init_visits cfg s pre e post m1 s1 s2 s' /\
    events_since s1 s2
    = before ++ [EvDet PORT_MODULE_ID PORT_INSTANCE_ID PORT_INIT_SID
                   PORT_E_PARAM_INVALID_MODE] /\
    In (EvReg (GpioReg P PORT_DIR_REG_OFFSET) (direction_access (Ch_Num e) (Direction e)))
       before /\
    existsb is_report before = false /\
    (0 <= Ch_Num e < 32 ->
     Z.testbit (regs s2 (GpioReg P PORT_DIR_REG_OFFSET)) (Ch_Num e)
     = (Direction e =? PORT_PIN_OUT)) /\
    (forall B,
       regs s2 (GpioReg B PORT_ANALOG_MODE_SEL_REG_OFFSET)
       = regs s1 (GpioReg B PORT_ANALOG_MODE_SEL_REG_OFFSET) /\
       regs s2 (GpioReg B PORT_ALT_FUNC_REG_OFFSET)
       = regs s1 (GpioReg B PORT_ALT_FUNC_REG_OFFSET) /\
       regs s2 (GpioReg B PORT_CTL_REG_OFFSET)
       = regs s1 (GpioReg B PORT_CTL_REG_OFFSET) /\
       regs s2 (GpioReg B PORT_DIGITAL_ENABLE_REG_OFFSET)
       = regs s1 (GpioReg B PORT_DIGITAL_ENABLE_REG_OFFSET)) /\
    Port_Status s' = PORT_INITIALIZED.
Proof.
  intros Hwf Hl HP Hm.
  set (m1 := table_mask pre 0).
  set (before :=
         clock_events (Port_Num e) m1 ++
         unlock_events P (Port_Num e) (Ch_Num e) ++
         EvReg (GpioReg P PORT_DIR_REG_OFFSET) (direction_access (Ch_Num e) (Direction e))
         :: (if Direction e =? PORT_PIN_OUT
             then level_events P (Ch_Num e) (InitialValue e)
             else resistor_events P (Ch_Num e) (Resistor e))).
  assert (Hev : Port_Init_entry_events e m1
                = before ++ [EvDet PORT_MODULE_ID PORT_INSTANCE_ID PORT_INIT_SID
                               PORT_E_PARAM_INVALID_MODE]).
  { unfold Port_Init_entry_events, before.
    rewrite HP, (mode_events_unsupported _ _ _ _ Hm).
    now rewrite <- !app_assoc. }
  assert (Hfun : forall B off,
             off = PORT_ANALOG_MODE_SEL_REG_OFFSET \/ off = PORT_ALT_FUNC_REG_OFFSET \/
             off = PORT_CTL_REG_OFFSET \/ off = PORT_DIGITAL_ENABLE_REG_OFFSET ->
             existsb (accesses (GpioReg B off)) (Port_Init_entry_events e m1) = false).
  { intros B off Hoff. rewrite Hev. unfold before.
    rewrite !existsb_app, accesses_clock_events, accesses_unlock_events
      by (destruct Hoff as [->|[->|[->| ->]]]; discriminate).
    cbn [existsb accesses orb].
    destruct (Reg_eq_dec _ _) as [E|_];
      [destruct Hoff as [->|[->|[->| ->]]]; discriminate E|].
    cbn [orb]. rewrite orb_false_r.
    unfold level_events. destruct (Direction e =? PORT_PIN_OUT).
    - apply accesses_single. destruct Hoff as [->|[->|[->| ->]]]; discriminate.
    - apply accesses_resistor_events;
        destruct Hoff as [->|[->|[->| ->]]]; discriminate. }
  eexists _, _, _, _, before.
  split; [apply (Port_Init_visit cfg s pre e post Hwf Hl)|].
  fold m1. rewrite events_since_replay.
  split; [exact Hev|].
  split.
  { unfold before. apply in_or_app. right. apply in_or_app. right. now left. }
  split.
  { unfold before, clock_events, unlock_events, level_events, resistor_events.
    destruct (_ =? 0); destruct (is_PD7_or_PF0 _ _); destruct (Direction e =? _);
      destruct (Resistor e =? PULL_UP); destruct (Resistor e =? PULL_DOWN);
      reflexivity. }
  split.
  { intros Hc. rewrite bit_replay, (bit_effect_Port_Init_entry_DIR e m1 P _ HP Hc).
    now rewrite Z.eqb_refl. }
  split.
  { intros B. repeat split; apply regs_replay_frame, Hfun; tauto. }
  reflexivity.
Qed.

Lemma X11_Init_unsupported_mode_witness :
  exists m1 s1 s2 s' before,
    Port_Init_visits
      {| Pins := [ mkChannel 5 1 PIN_MODE_OTHER PORT_PIN_OUT STD_HIGH TRUE TRUE RESISTOR_OFF;
                   mkChannel 5 4 PIN_MODE_DIO PORT_PIN_IN STD_LOW FALSE TRUE PULL_UP ] |}
      (reset_state hw_zero) []
      (mkChannel 5 1 PIN_MODE_OTHER PORT_PIN_OUT STD_HIGH TRUE TRUE RESISTOR_OFF)
      [mkChannel 5 4 PIN_MODE_DIO PORT_PIN_IN STD_LOW FALSE TRUE PULL_UP]
      m1 s1 s2 s' /\
    events_since s1 s2
    = before ++ [EvDet PORT_MODULE_ID PORT_INSTANCE_ID PORT_INIT_SID
                   PORT_E_PARAM_INVALID_MODE] /\
    Z.testbit (regs s2 (GpioReg GPIO_PORTF_BASE_ADDRESS PORT_DIR_REG_OFFSET)) 1 = true /\
    Port_Status s' = PORT_INITIALIZED.
Proof.
  destruct (X11_Init_unsupported_mode
              {| Pins := [ mkChannel 5 1 PIN_MODE_OTHER PORT_PIN_OUT STD_HIGH TRUE TRUE
                             RESISTOR_OFF;
                           mkChannel 5 4 PIN_MODE_DIO PORT_PIN_IN STD_LOW FALSE TRUE
                             PULL_UP ] |}
              (reset_state hw_zero) []
              (mkChannel 5 1 PIN_MODE_OTHER PORT_PIN_OUT STD_HIGH TRUE TRUE RESISTOR_OFF)
              [mkChannel 5 4 PIN_MODE_DIO PORT_PIN_IN STD_LOW FALSE TRUE PULL_UP]
              GPIO_PORTF_BASE_ADDRESS eq_refl eq_refl eq_refl)
    as (m1 & s1 & s2 & s' & before & Hv & Hev & _ & _ & Hbit & _ & Hst);
    [discriminate|].
  exists m1, s1, s2, s', before.
  split; [exact Hv|]. split; [exact Hev|]. split; [|exact Hst].
  apply Hbit. cbn. lia.
Defined.

(** ** Which registers an operation can touch *)

Lemma accesses_only_frame (allowed : Reg -> bool) (tr : list Event) (r : Reg) :
  accesses_only allowed tr = true ->
  allowed r = false ->
  existsb (accesses r) tr = false.
Proof.
  intros H Hr. induction tr as [|ev tr IH]; [reflexivity|].
  cbn [accesses_only forallb] in H. apply andb_prop in H as [Hev Htr].
  cbn [existsb]. rewrite (IH Htr), orb_false_r.
  destruct ev as [r' a| | |]; try reflexivity.
  cbn [accesses]. destruct (Reg_eq_dec r' r) as [->|]; [congruence | reflexivity].
Qed.

Lemma accesses_only_app (allowed : Reg -> bool) (tr1 tr2 : list Event) :
  accesses_only allowed (tr1 ++ tr2)
  = accesses_only allowed tr1 && accesses_only allowed tr2.
Proof. unfold accesses_only. apply forallb_app. Qed.

Lemma direction_path_unlock_events (P : GpioBase) (p c : Z) :
  accesses_only direction_path (unlock_events P p c) = true.
Proof. unfold unlock_events. destruct (is_PD7_or_PF0 p c); reflexivity. Qed.

Lemma mode_path_unlock_events (P : GpioBase) (p c : Z) :
  accesses_only mode_path (unlock_events P p c) = true.
Proof. unfold unlock_events. destruct (is_PD7_or_PF0 p c); reflexivity. Qed.

Lemma direction_path_setPinDirection_entry (e : Port_ConfigChannel) (d : Z) :
  accesses_only direction_path (Port_setPinDirection_entry_events e d) = true.
Proof.
  unfold Port_setPinDirection_entry_events.
  destruct (_ =? _); [reflexivity|].
  destruct (GPIO_base _); [|reflexivity].
  now rewrite accesses_only_app, direction_path_unlock_events.
Qed.

Lemma direction_path_Refresh_entry (e : Port_ConfigChannel) :
  accesses_only direction_path (Port_RefreshPortDirection_entry_events e) = true.
Proof.
  unfold Port_RefreshPortDirection_entry_events.
  destruct (_ =? _); [|reflexivity].
  destruct (GPIO_base _); [|reflexivity].
  now rewrite accesses_only_app, direction_path_unlock_events.
Qed.

Lemma direction_path_Refresh_table (l : list Port_ConfigChannel) :
  accesses_only direction_path (Port_RefreshPortDirection_table_events l) = true.
Proof.
  induction l as [|e l IH]; [reflexivity|].
  unfold Port_RefreshPortDirection_table_events in *. cbn [flat_map].
  now rewrite accesses_only_app, direction_path_Refresh_entry, IH.
Qed.

Lemma mode_path_SetPinMode_entry (e : Port_ConfigChannel) (m : Z) :
  accesses_only mode_path (Port_SetPinMode_entry_events e m) = true.
Proof.
  unfold Port_SetPinMode_entry_events.
  destruct (_ =? _); [reflexivity|].
  destruct (GPIO_base _); [|reflexivity].
  rewrite accesses_only_app, mode_path_unlock_events.
  unfold mode_events. destruct (_ =? _); reflexivity.
Qed.

(** X12. The operations other than [Port_Init] stay inside their own
    registers, whatever the arguments and the table are:
    [Port_setPinDirection] and [Port_RefreshPortDirection] access only
    lock, commit and direction registers, [Port_SetPinMode] only lock,
    commit and the four function registers.  Hence none of them changes
    the clock-gate register, a data register or a pull register, a
    direction change or a refresh never changes a function register,
    and a mode change never changes a direction register. *)
Theorem X12_register_footprints (s : State) :
  state_ok s ->
  (forall Pin Direction, exists s',
     Port_setPinDirection Pin Direction s = Some (tt, s') /\
     accesses_only direction_path (events_since s s') = true /\
     forall r, direction_path r = false -> regs s' r = regs s r) /\
  (exists s',
     Port_RefreshPortDirection s = Some (tt, s') /\
     accesses_only direction_path (events_since s s') = true /\
     forall r, direction_path r = false -> regs s' r = regs s r) /\
  (forall Pin Mode, exists s',
     Port_SetPinMode Pin Mode s = Some (tt, s') /\
     accesses_only mode_path (events_since s s') = true /\
     forall r, mode_path r = false -> regs s' r = regs s r).
Proof.
  intros Hok. split; [|split].
  - intros Pin d.
    assert (H : accesses_only direction_path (Port_setPinDirection_events s Pin d) = true).
    { unfold Port_setPinDirection_events.
      destruct (_ =? _); [reflexivity|]. destruct (_ >=? _); [reflexivity|].
      destruct (Port_ConfigPtr s); [|reflexivity].
      destruct (nth_error _ _); [|reflexivity].
      apply direction_path_setPinDirection_entry. }
    eexists. split; [now apply Port_setPinDirection_events_run|].
    rewrite events_since_replay. split; [exact H|].
    intros r Hr. apply regs_replay_frame. now apply (accesses_only_frame direction_path).
  - assert (H : accesses_only direction_path (Port_RefreshPortDirection_events s) = true).
    { unfold Port_RefreshPortDirection_events.
      destruct (_ =? _); [reflexivity|].
      destruct (Port_ConfigPtr s); [|reflexivity].
      apply direction_path_Refresh_table. }
    eexists. split; [now apply Port_RefreshPortDirection_events_run|].
    rewrite events_since_replay. split; [exact H|].
    intros r Hr. apply regs_replay_frame. now apply (accesses_only_frame direction_path).
  - intros Pin m.
    assert (H : accesses_only mode_path (Port_SetPinMode_events s Pin m) = true).
    { unfold Port_SetPinMode_events.
      destruct (_ =? _); [reflexivity|]. destruct (_ >=? _); [reflexivity|].
      destruct (Port_ConfigPtr s); [|reflexivity].
      destruct (nth_error _ _); [|reflexivity].
      apply mode_path_SetPinMode_entry. }
    eexists. split; [now apply Port_SetPinMode_events_run|].
    rewrite events_since_replay. split; [exact H|].
    intros r Hr. apply regs_replay_frame. now apply (accesses_only_frame mode_path).
Qed.

Lemma X12_register_footprints_witness :
  exists s',
    Port_RefreshPortDirection (initialized_state cfg_locked_pins hw_tampered)
    = Some (tt, s') /\
    regs s' SYSCTL_RCGCGPIO_REG = 0xFF /\
    regs s' (GpioReg GPIO_PORTD_BASE_ADDRESS PORT_PULL_UP_REG_OFFSET) = 0xFF /\
    regs s' (GpioReg GPIO_PORTD_BASE_ADDRESS PORT_DIGITAL_ENABLE_REG_OFFSET) = 0xFF.
Proof.
  destruct (X12_register_footprints (initialized_state cfg_locked_pins hw_tampered))
    as (_ & (s' & Hrun & _ & Hframe) & _).
  { intros _. exists cfg_locked_pins. split; reflexivity. }
  exists s'. split; [exact Hrun|].
  split; [|split]; now apply Hframe.
Defined.

(** ** Direction changes and refresh *)

(** X14. A direction set with [Port_setPinDirection] on a changeable
    pin survives [Port_RefreshPortDirection]: after an accepted call
    followed by a refresh, the direction bit of the pin still has the
    requested value, provided no fixed-direction entry of the table
    names the same port and channel. *)
Theorem X14_direction_change_survives_refresh (s : State) (cfg : Port_ConfigType)
        (Pin Direction : Z) (e : Port_ConfigChannel) (P : GpioBase) :
  wf_config cfg ->
  Port_Status s <> PORT_NOT_INITIALIZED ->
  Port_ConfigPtr s = Some cfg ->
  Pin < PORT_CONFIGURED_CHANNELS ->
  nth_error (Pins cfg) (Z.to_nat Pin) = Some e ->
  Direction_Changeable e <> FALSE ->
  GPIO_base (Port_Num e) = Some P ->
  0 <= Ch_Num e < 32 ->
  (forall e', In e' (Pins cfg) -> names_fixed_pin e' P (Ch_Num e) = false) ->
  exists s1 s2,
    Port_setPinDirection Pin Direction s = Some (tt, s1) /\
    Port_RefreshPortDirection s1 = Some (tt, s2) /\
    Z.testbit (regs s2 (GpioReg P PORT_DIR_REG_OFFSET)) (Ch_Num e)
    = (Direction =? PORT_PIN_OUT).
Proof.
  intros Hwf Hst Hp Hpin Hn Hd HP Hc Hno.
  set (tr := Port_setPinDirection_entry_events e Direction).
  destruct (static_replay tr s (hw_Port_setPinDirection_entry_events e Direction))
    as [Hst1 Hp1].
  exists (replay tr s),
    (replay (Port_RefreshPortDirection_table_events (Pins cfg)) (replay tr s)).
  split.
  { apply (Port_setPinDirection_entry Pin Direction s e Hst Hpin).
    now apply (Pins_at_nth s cfg). }
  split.
  { apply (Port_RefreshPortDirection_replay cfg); [assumption | | ];
      [rewrite Hst1; exact Hst | rewrite Hp1; exact Hp]. }
  rewrite Port_RefreshPortDirection_table_bit_kept by assumption.
  unfold tr, Port_setPinDirection_entry_events.
  destruct (Z.eqb_spec (Direction_Changeable e) FALSE); [contradiction|].
  rewrite HP, regs_replay_last. now apply testbit_direction_access.
Qed.

Lemma X14_direction_change_survives_refresh_witness :
  exists s1 s2,
    Port_setPinDirection 0 PORT_PIN_IN (initialized_state Port_Configuration hw_tampered)
    = Some (tt, s1) /\
    Port_RefreshPortDirection s1 = Some (tt, s2) /\
    Z.testbit (regs s2 (GpioReg GPIO_PORTF_BASE_ADDRESS PORT_DIR_REG_OFFSET)) 1 = false.
Proof.
  apply (X14_direction_change_survives_refresh
           (initialized_state Port_Configuration hw_tampered) Port_Configuration
           0 PORT_PIN_IN
           (mkChannel 5 1 PIN_MODE_DIO PORT_PIN_OUT STD_HIGH TRUE TRUE RESISTOR_OFF)
           GPIO_PORTF_BASE_ADDRESS);
    try reflexivity; try discriminate.
  - cbn. lia.
  - intros e' [<-|[<-|[]]]; reflexivity.
Defined.

Lemma filter_all (f : Event -> bool) (tr : list Event) :
  forallb f tr = true -> filter f tr = tr.
Proof.
  induction tr as [|ev tr IH]; [reflexivity|].
  cbn [forallb filter]. intros H. apply andb_prop in H as [-> Htr].
  now rewrite (IH Htr).
Qed.

Lemma direction_path_of_Init_entry (e : Port_ConfigChannel) (m : Z) :
  filter on_direction_path (Port_Init_entry_events e m)
  = match GPIO_base (Port_Num e) with
    | None => []
    | Some P =>
        unlock_events P (Port_Num e) (Ch_Num e) ++
        [EvReg (GpioReg P PORT_DIR_REG_OFFSET) (direction_access (Ch_Num e) (Direction e))]
    end.
Proof.
  unfold Port_Init_entry_events, clock_events, unlock_events, mode_events,
    dio_events, level_events, resistor_events.
  destruct (Z.land _ _ =? 0);
    (destruct (GPIO_base (Port_Num e)) as [P|]; [|reflexivity]);
    destruct (is_PD7_or_PF0 _ _);
    destruct (Direction e =? PORT_PIN_OUT);
    destruct (Mode e =? PIN_MODE_DIO);
    destruct (Resistor e =? PULL_UP);
    destruct (Resistor e =? PULL_DOWN);
    destruct (InitialValue e =? STD_HIGH);
    reflexivity.
Qed.

Lemma accesses_of_Refresh_entry (e : Port_ConfigChannel) (m : Z) :
  filter is_access (Port_RefreshPortDirection_entry_events e)
  = if fixed_direction e
    then filter on_direction_path (Port_Init_entry_events e m)
    else [].
Proof.
  rewrite direction_path_of_Init_entry.
  unfold Port_RefreshPortDirection_entry_events, fixed_direction.
  destruct (Direction_Changeable e =? FALSE); [|reflexivity].
  destruct (GPIO_base (Port_Num e)) as [P|]; [|reflexivity].
  apply filter_all. rewrite forallb_app. apply andb_true_intro. split; [|reflexivity].
  unfold unlock_events. destruct (is_PD7_or_PF0 _ _); reflexivity.
Qed.

Lemma direction_path_of_Init_table (l : list Port_ConfigChannel) (m : Z) :
  filter on_direction_path (Port_Init_table_events l m)
  = flat_map (fun e => filter on_direction_path (Port_Init_entry_events e 0)) l.
Proof.
  revert m. induction l as [|e l IH]; intros m; [reflexivity|].
  cbn [Port_Init_table_events flat_map].
  rewrite filter_app, IH, !direction_path_of_Init_entry. reflexivity.
Qed.

Lemma accesses_of_Refresh_table (l : list Port_ConfigChannel) :
  filter is_access (Port_RefreshPortDirection_table_events l)
  = flat_map (fun e => if fixed_direction e
                       then filter on_direction_path (Port_Init_entry_events e 0)
                       else []) l.
Proof.
  induction l as [|e l IH]; [reflexivity|].
  unfold Port_RefreshPortDirection_table_events in *. cbn [flat_map].
  now rewrite filter_app, IH, (accesses_of_Refresh_entry e 0).
Qed.

(** X15. [Port_RefreshPortDirection] repeats what [Port_Init] did on the
    direction path: for each fixed-direction entry, in table order, its
    register accesses are exactly the lock, commit and direction
    accesses that the iteration of [Port_Init] for that entry makes, and
    it makes no access for the other entries.  For a table in which
    every entry has a fixed direction, the accesses of a refresh are the
    direction-path accesses of the [Port_Init] call, in the same
    order.  The third part recalls that [Port_Init_entry_events] lists
    the events of one iteration of the code. *)
Theorem X15_refresh_repeats_init (cfg : Port_ConfigType) (s0 s1 s : State) :
  wf_config cfg ->
  Port_Init (Some cfg) s0 = Some (tt, s1) ->
  Port_Status s = Port_Status s1 ->
  Port_ConfigPtr s = Port_ConfigPtr s1 ->
  exists s',
    Port_RefreshPortDirection s = Some (tt, s') /\
    filter is_access (events_since s s')
    = flat_map (fun e => if fixed_direction e
                         then filter on_direction_path (Port_Init_entry_events e 0)
                         else []) (Pins cfg) /\
    (forall e m, Port_Init_entry_events e m
                 = events_since s (replay (Port_Init_entry_events e m) s) /\
                 Port_Init_entry e m s
                 = Some (clock_mask (Port_Num e) m,
                         replay (Port_Init_entry_events e m) s)) /\
    (forallb fixed_direction (Pins cfg) = true ->
     filter is_access (events_since s s')
     = filter on_direction_path (events_since s0 s1)).
Proof.
  intros Hwf Hinit Hst Hp.
  destruct (Port_Init_establishes cfg s0 s1 Hwf Hinit) as [Hs1 Hp1].
  rewrite Hs1 in Hst. rewrite Hp1 in Hp.
  assert (Hst' : Port_Status s <> PORT_NOT_INITIALIZED) by (rewrite Hst; discriminate).
  eexists. split; [now apply (Port_RefreshPortDirection_replay cfg)|].
  rewrite events_since_replay, accesses_of_Refresh_table.
  split; [reflexivity|]. split.
  { intros e m. split; [now rewrite events_since_replay | apply Port_Init_entry_replay]. }
  intros Hall.
  rewrite (Port_Init_replay cfg s0 Hwf) in Hinit.
  assert (E : s1 = replay (EvConfigPtr (Some cfg) :: EvStatus PORT_NOT_INITIALIZED ::
                           Port_Init_table_events (Pins cfg) 0 ++
                           [EvStatus PORT_INITIALIZED]) s0)
    by (injection Hinit; intros E; now symmetry).
  rewrite E, events_since_replay.
  cbn [filter on_direction_path]. rewrite filter_app. cbn [filter on_direction_path].
  rewrite app_nil_r, direction_path_of_Init_table.
  clear - Hall. induction (Pins cfg) as [|e l IH]; [reflexivity|].
  cbn [forallb] in Hall. apply andb_prop in Hall as [He Hl].
  cbn [flat_map]. now rewrite He, (IH Hl).
Qed.

Lemma X15_refresh_repeats_init_witness :
  exists s1 s',
    Port_Init (Some cfg_locked_pins) (reset_state hw_zero) = Some (tt, s1) /\
    Port_RefreshPortDirection s1 = Some (tt, s') /\
    filter is_access (events_since s1 s')
    = [EvReg (GpioReg GPIO_PORTD_BASE_ADDRESS PORT_LOCK_REG_OFFSET) (Store 0x4C4F434B);
       EvReg (GpioReg GPIO_PORTD_BASE_ADDRESS PORT_COMMIT_REG_OFFSET) (OrMask 128);
       EvReg (GpioReg GPIO_PORTD_BASE_ADDRESS PORT_DIR_REG_OFFSET)
         (AndMask 0xFFFFFF7F)].
Proof.
  pose proof (Port_Init_replay cfg_locked_pins (reset_state hw_zero) eq_refl) as Hinit.
  destruct (X15_refresh_repeats_init cfg_locked_pins (reset_state hw_zero) _ _
              eq_refl Hinit eq_refl eq_refl) as (s' & Hrun & Hev & _).
  eexists _, s'. split; [exact Hinit|]. split; [exact Hrun|].
  rewrite Hev. vm_compute. reflexivity.
Defined.

(** ** The state of a pin after [Port_Init] *)

Lemma bit_effect_Port_Init_entry_function (e : Port_ConfigChannel) (m : Z)
      (P : GpioBase) (off : RegOffset) (k : Z) :
  GPIO_base (Port_Num e) = Some P ->
  off = PORT_ANALOG_MODE_SEL_REG_OFFSET \/ off = PORT_ALT_FUNC_REG_OFFSET \/
  off = PORT_CTL_REG_OFFSET \/ off = PORT_DIGITAL_ENABLE_REG_OFFSET ->
  bit_effect (Port_Init_entry_events e m) (GpioReg P off) k
  = if Mode e =? PIN_MODE_DIO
    then bit_effect (dio_events P (Ch_Num e)) (GpioReg P off) k
    else None.
Proof.
  intros HP Hoff. unfold Port_Init_entry_events. rewrite HP.
  rewrite !bit_effect_app. unfold mode_events.
  assert (Hrest :
    bit_effect (clock_events (Port_Num e) m) (GpioReg P off) k = None /\
    bit_effect (unlock_events P (Port_Num e) (Ch_Num e)) (GpioReg P off) k = None /\
    bit_effect
      (EvReg (GpioReg P PORT_DIR_REG_OFFSET) (direction_access (Ch_Num e) (Direction e))
       :: (if Direction e =? PORT_PIN_OUT
           then level_events P (Ch_Num e) (InitialValue e)
           else resistor_events P (Ch_Num e) (Resistor e))) (GpioReg P off) k = None).
  { split; [|split].
    - apply bit_effect_clock_events. discriminate.
    - apply bit_effect_unlock_events;
        destruct Hoff as [->|[->|[->| ->]]]; discriminate.
    - apply bit_effect_no_access. cbn [existsb accesses].
      destruct (Reg_eq_dec _ _) as [E|_];
        [destruct Hoff as [->|[->|[->| ->]]]; discriminate E|].
      cbn [orb]. unfold level_events. destruct (Direction e =? PORT_PIN_OUT).
      + apply accesses_single. destruct Hoff as [->|[->|[->| ->]]]; discriminate.
      + apply accesses_resistor_events;
          destruct Hoff as [->|[->|[->| ->]]]; discriminate. }
  destruct Hrest as (H1 & H2 & H3). rewrite H1, H2, H3.
  destruct (Mode e =? PIN_MODE_DIO).
  - now destruct (bit_effect (dio_events P (Ch_Num e)) (GpioReg P off) k).
  - reflexivity.
Qed.

Lemma no_access_other_port (e : Port_ConfigChannel) (m : Z)
      (P' P : GpioBase) (off : RegOffset) :
  GPIO_base (Port_Num e) = Some P' ->
  P' <> P ->
  existsb (accesses (GpioReg P off)) (Port_Init_entry_events e m) = false.
Proof.
  intros HP Hne. unfold Port_Init_entry_events. rewrite HP.
  rewrite !existsb_app, accesses_clock_events, accesses_unlock_events,
    accesses_mode_events by congruence.
  cbn [existsb accesses orb].
  destruct (Reg_eq_dec _ _) as [E|_]; [congruence|].
  cbn [orb]. rewrite orb_false_r. unfold level_events.
  destruct (Direction e =? PORT_PIN_OUT).
  - apply accesses_single. congruence.
  - apply accesses_resistor_events; congruence.
Qed.

(** The iteration for an entry that does not name a pin leaves the bits
    of that pin alone. *)
Lemma Port_Init_entry_leaves_pin (e : Port_ConfigChannel) (m : Z)
      (P : GpioBase) (off : RegOffset) (k k' : Z) :
  names_pin e P k = false ->
  0 <= k' < 32 ->
  pin_bit off k k' = true ->
  bit_effect (Port_Init_entry_events e m) (GpioReg P off) k' = None.
Proof.
  intros Hn Hk Hb. unfold names_pin in Hn.
  destruct (GPIO_base (Port_Num e)) as [P'|] eqn:HP.
  2:{ apply bit_effect_no_access. now apply no_gpio_access_unknown_port. }
  destruct (GpioBase_eq_dec P' P) as [->|Hne].
  2:{ apply bit_effect_no_access. now apply (no_access_other_port e m P'). }
  apply Z.eqb_neq in Hn.
  destruct off; cbn [pin_bit] in Hb; try discriminate;
    try (apply Z.eqb_eq in Hb; subst k').
  - rewrite (bit_effect_Port_Init_entry_DATA e m P k HP Hk).
    destruct (Z.eqb_spec (Ch_Num e) k); [contradiction|]. now rewrite andb_false_r.
  - rewrite (bit_effect_Port_Init_entry_DIR e m P k HP Hk).
    destruct (Z.eqb_spec (Ch_Num e) k); [contradiction | reflexivity].
  - rewrite (bit_effect_Port_Init_entry_function e m P _ k HP) by tauto.
    rewrite bit_effect_dio_events by assumption.
    destruct (Z.eqb_spec (Ch_Num e) k); [contradiction|]. now destruct (Mode e =? _).
  - rewrite (bit_effect_Port_Init_entry_pull e m P k true HP Hk).
    destruct (Z.eqb_spec (Ch_Num e) k); [contradiction|]. now rewrite !andb_false_r.
  - rewrite (bit_effect_Port_Init_entry_pull e m P k false HP Hk).
    destruct (Z.eqb_spec (Ch_Num e) k); [contradiction|]. now rewrite !andb_false_r.
  - rewrite (bit_effect_Port_Init_entry_function e m P _ k HP) by tauto.
    rewrite bit_effect_dio_events by assumption.
    destruct (Z.eqb_spec (Ch_Num e) k); [contradiction|]. now destruct (Mode e =? _).
  - rewrite (bit_effect_Port_Init_entry_function e m P _ k HP) by tauto.
    rewrite bit_effect_dio_events by assumption.
    destruct (Z.eqb_spec (Ch_Num e) k); [contradiction|]. now destruct (Mode e =? _).
  - rewrite (bit_effect_Port_Init_entry_function e m P _ k' HP) by tauto.
    rewrite bit_effect_dio_events by assumption.
    apply andb_prop in Hb as [Hb1 Hb2].
    apply Z.leb_le in Hb1. apply Z.ltb_lt in Hb2.
    destruct (Z.leb_spec (Ch_Num e * 4) k'), (Z.ltb_spec k' (Ch_Num e * 4 + 4));
      cbn [andb]; try (now destruct (Mode e =? _)).
    exfalso. apply Hn. lia.
Qed.

Lemma Port_Init_table_leaves_pin (l : list Port_ConfigChannel) (m : Z)
      (P : GpioBase) (off : RegOffset) (k k' : Z) :
  (forall e, In e l -> names_pin e P k = false) ->
  0 <= k' < 32 ->
  pin_bit off k k' = true ->
  bit_effect (Port_Init_table_events l m) (GpioReg P off) k' = None.
Proof.
  intros Hl Hk Hb. revert m. induction l as [|e l IH]; intros m; [reflexivity|].
  cbn [Port_Init_table_events]. rewrite bit_effect_app.
  rewrite IH by (intros e' He'; apply Hl; now right).
  apply Port_Init_entry_leaves_pin with (k := k); try assumption.
  apply Hl. now left.
Qed.

Lemma bit_effect_Port_Init_events (cfg : Port_ConfigType) (r : Reg) (k : Z) :
  bit_effect (Port_Init_events (Some cfg)) r k
  = bit_effect (Port_Init_table_events (Pins cfg) 0) r k.
Proof.
  cbn [Port_Init_events bit_effect]. rewrite bit_effect_app. cbn [bit_effect].
  now destruct (bit_effect (Port_Init_table_events (Pins cfg) 0) r k).
Qed.

(** X18. [Port_Init] changes the configuration of the pins that the
    table names and of no other: with a table whose channels are all in
    0..7, for a channel of a port that no entry names, its bit in the direction, data, pull-up, pull-down,
    analog-select, alternate-function and digital-enable registers and
    its four bits in the port-control register are after the call what
    they were before. *)
Theorem X18_Init_leaves_unnamed_pins (cfg : Port_ConfigType) (s : State)
        (P : GpioBase) (off : RegOffset) (k k' : Z) :
  wf_config cfg ->
  (forall e, In e (Pins cfg) -> 0 <= Ch_Num e <= 7) ->
  (forall e, In e (Pins cfg) -> names_pin e P k = false) ->
  0 <= k' < 32 ->
  pin_bit off k k' = true ->
  exists s',
    Port_Init (Some cfg) s = Some (tt, s') /\
    Z.testbit (regs s' (GpioReg P off)) k' = Z.testbit (regs s (GpioReg P off)) k'.
Proof.
  intros Hwf Hch Hno Hk Hb. eexists. split; [now apply Port_Init_replay|].
  change (EvConfigPtr (Some cfg) :: EvStatus PORT_NOT_INITIALIZED ::
          Port_Init_table_events (Pins cfg) 0 ++ [EvStatus PORT_INITIALIZED])
    with (Port_Init_events (Some cfg)).
  rewrite bit_replay, bit_effect_Port_Init_events.
  now rewrite (Port_Init_table_leaves_pin _ 0 P off k k' Hno Hk Hb).
Qed.

Lemma X18_Init_leaves_unnamed_pins_witness :
  exists s',
    Port_Init (Some Port_Configuration) (reset_state hw_tampered) = Some (tt, s') /\
    Z.testbit (regs s' (GpioReg GPIO_PORTF_BASE_ADDRESS PORT_CTL_REG_OFFSET)) 9
    = Z.testbit (regs (reset_state hw_tampered)
                      (GpioReg GPIO_PORTF_BASE_ADDRESS PORT_CTL_REG_OFFSET)) 9.
Proof.
  apply (X18_Init_leaves_unnamed_pins Port_Configuration (reset_state hw_tampered)
           GPIO_PORTF_BASE_ADDRESS PORT_CTL_REG_OFFSET 2 9).
  - reflexivity.
  - intros e [<-|[<-|[]]]; cbn; lia.
  - intros e [<-|[<-|[]]]; reflexivity.
  - lia.
  - reflexivity.
Defined.

(** X17. After [Port_Init] every pin is as its entry says, when the
    entry is the last one of the table that names the pin: on a known
    port and for a channel below 32, the direction bit is 1 for OUT and
    0 otherwise; for an output the data bit is 1 exactly when
    [InitialValue] is [STD_HIGH]; for an input with [PULL_UP] the
    pull-up bit is 1 and the pull-down bit 0, and the reverse with
    [PULL_DOWN]; with [PIN_MODE_DIO] the analog-select and
    alternate-function bits are 0 and the digital-enable bit is 1. *)
Theorem X17_Init_configures_each_pin (cfg : Port_ConfigType) (s : State)
        (pre : list Port_ConfigChannel) (e : Port_ConfigChannel)
        (post : list Port_ConfigChannel) (P : GpioBase) :
  wf_config cfg ->
  Pins cfg = pre ++ e :: post ->
  GPIO_base (Port_Num e) = Some P ->
  0 <= Ch_Num e < 32 ->
  (forall e', In e' post -> names_pin e' P (Ch_Num e) = false) ->
  exists s',
    Port_Init (Some cfg) s = Some (tt, s') /\
    Z.testbit (regs s' (GpioReg P PORT_DIR_REG_OFFSET)) (Ch_Num e)
    = (Direction e =? PORT_PIN_OUT) /\
    (Direction e = PORT_PIN_OUT ->
     Z.testbit (regs s' (GpioReg P PORT_DATA_REG_OFFSET)) (Ch_Num e)
     = (InitialValue e =? STD_HIGH)) /\
    (Direction e <> PORT_PIN_OUT -> Resistor e = PULL_UP ->
     Z.testbit (regs s' (GpioReg P PORT_PULL_UP_REG_OFFSET)) (Ch_Num e) = true /\
     Z.testbit (regs s' (GpioReg P PORT_PULL_DOWN_REG_OFFSET)) (Ch_Num e) = false) /\
    (Direction e <> PORT_PIN_OUT -> Resistor e = PULL_DOWN ->
     Z.testbit (regs s' (GpioReg P PORT_PULL_UP_REG_OFFSET)) (Ch_Num e) = false /\
     Z.testbit (regs s' (GpioReg P PORT_PULL_DOWN_REG_OFFSET)) (Ch_Num e) = true) /\
    (Mode e = PIN_MODE_DIO ->
     Z.testbit (regs s' (GpioReg P PORT_ANALOG_MODE_SEL_REG_OFFSET)) (Ch_Num e) = false /\
     Z.testbit (regs s' (GpioReg P PORT_ALT_FUNC_REG_OFFSET)) (Ch_Num e) = false /\
     Z.testbit (regs s' (GpioReg P PORT_DIGITAL_ENABLE_REG_OFFSET)) (Ch_Num e) = true).
Proof.
  intros Hwf Hl HP Hc Hpost.
  eexists. split; [now apply Port_Init_replay|].
  change (EvConfigPtr (Some cfg) :: EvStatus PORT_NOT_INITIALIZED ::
          Port_Init_table_events (Pins cfg) 0 ++ [EvStatus PORT_INITIALIZED])
    with (Port_Init_events (Some cfg)).
  assert (Hbit : forall off,
             pin_bit off (Ch_Num e) (Ch_Num e) = true ->
             Z.testbit (regs (replay (Port_Init_events (Some cfg)) s) (GpioReg P off))
                       (Ch_Num e)
             = match bit_effect (Port_Init_entry_events e (table_mask pre 0))
                                (GpioReg P off) (Ch_Num e) with
               | Some c => c
               | None =>
                   Z.testbit (regs (replay (Port_Init_table_events pre 0) s)
                                   (GpioReg P off)) (Ch_Num e)
               end).
  { intros off Hoff.
    rewrite bit_replay, bit_effect_Port_Init_events, Hl, Port_Init_table_events_app.
    cbn [Port_Init_table_events]. rewrite !bit_effect_app.
    rewrite (Port_Init_table_leaves_pin post _ P off (Ch_Num e) (Ch_Num e) Hpost Hc Hoff).
    destruct (bit_effect (Port_Init_entry_events e (table_mask pre 0))
                         (GpioReg P off) (Ch_Num e)); [reflexivity|].
    now rewrite bit_replay. }
  split; [|split; [|split; [|split]]].
  - rewrite Hbit by (cbn; apply Z.eqb_refl).
    rewrite (bit_effect_Port_Init_entry_DIR e _ P _ HP Hc). now rewrite Z.eqb_refl.
  - intros Hd. rewrite Hbit by (cbn; apply Z.eqb_refl).
    rewrite (bit_effect_Port_Init_entry_DATA e _ P _ HP Hc).
    now rewrite Z.eqb_refl, Hd.
  - intros Hd Hr. rewrite !Hbit by (cbn; apply Z.eqb_refl).
    rewrite (bit_effect_Port_Init_entry_pull e _ P _ true HP Hc),
      (bit_effect_Port_Init_entry_pull e _ P _ false HP Hc).
    destruct (Z.eqb_spec (Direction e) PORT_PIN_OUT); [contradiction|].
    rewrite Z.eqb_refl, Hr. split; reflexivity.
  - intros Hd Hr. rewrite !Hbit by (cbn; apply Z.eqb_refl).
    rewrite (bit_effect_Port_Init_entry_pull e _ P _ true HP Hc),
      (bit_effect_Port_Init_entry_pull e _ P _ false HP Hc).
    destruct (Z.eqb_spec (Direction e) PORT_PIN_OUT); [contradiction|].
    rewrite Z.eqb_refl, Hr. split; reflexivity.
  - intros Hm. rewrite !Hbit by (cbn; apply Z.eqb_refl).
    rewrite !(bit_effect_Port_Init_entry_function e _ P _ _ HP) by tauto.
    rewrite !bit_effect_dio_events, Hm by assumption.
    cbn [Z.eqb PIN_MODE_DIO]. rewrite !Z.eqb_refl.
    repeat split.
Qed.

Lemma X17_Init_configures_each_pin_witness :
  exists s',
    Port_Init (Some Port_Configuration) (reset_state hw_tampered) = Some (tt, s') /\
    Z.testbit (regs s' (GpioReg GPIO_PORTF_BASE_ADDRESS PORT_DIR_REG_OFFSET)) 4 = false /\
    Z.testbit (regs s' (GpioReg GPIO_PORTF_BASE_ADDRESS PORT_PULL_UP_REG_OFFSET)) 4 = true /\
    Z.testbit (regs s' (GpioReg GPIO_PORTF_BASE_ADDRESS PORT_PULL_DOWN_REG_OFFSET)) 4
    = false /\
    Z.testbit (regs s' (GpioReg GPIO_PORTF_BASE_ADDRESS PORT_DIGITAL_ENABLE_REG_OFFSET)) 4
    = true.
Proof.
  destruct (X17_Init_configures_each_pin Port_Configuration (reset_state hw_tampered)
              [mkChannel 5 1 PIN_MODE_DIO PORT_PIN_OUT STD_HIGH TRUE TRUE RESISTOR_OFF]
              (mkChannel 5 4 PIN_MODE_DIO PORT_PIN_IN STD_LOW FALSE TRUE PULL_UP)
              [] GPIO_PORTF_BASE_ADDRESS eq_refl eq_refl eq_refl)
    as (s' & Hrun & Hdir & _ & Hup & _ & Hdio).
  { cbn. lia. }
  { intros e' []. }
  exists s'. split; [exact Hrun|]. split; [exact Hdir|].
  destruct Hup as [Hu Hw]; [discriminate | reflexivity |].
  destruct (Hdio eq_refl) as (_ & _ & Hden).
  split; [exact Hu|]. split; [exact Hw | exact Hden].
Defined.
